(** * go-otlp-helper: a shallow embedding of the OTLP helper library

    The development follows the layout of the Go package [otlp]:

    - [Encoding]  : the pieces of [encoding/hex], [encoding/base64] and
                    [strings] that the JSON shim calls;
    - [Codec]     : json.go, the hex/base64 identifier shim around protojson;
    - [Signal]    : partition.go, split / filter / partition of the three
                    telemetry containers;
    - [Server]    : proxy.go and mux.go, the HTTP bridge and the multiplexer
                    with its two middleware layers;
    - [Client]    : client.go, channel lifecycle and upload calls.

    Go slices are lists, Go pointers that may be nil are [option]s, Go maps
    keyed by strings are [gmap string _], and every call that leaves the
    package (protojson, grpc, net/http) is a parameter of the section that
    uses it. *)

From Stdlib Require Import ZArith NArith List String Ascii Bool Lia.
From stdpp Require Import gmap strings list fin_maps.
Import ListNotations.

Local Open Scope string_scope.
Set Warnings "-register-all".
Set Default Proof Using "Type".

(** ** Byte and text helpers *)

Module Encoding.

(** A Go [[]byte]. *)
Definition bytes := list Byte.byte.

Definition chars (s : string) : list ascii := list_ascii_of_string s.
Definition text (l : list ascii) : string := string_of_list_ascii l.

Definition byte_of_N (n : N) : Byte.byte :=
  match Byte.of_N n with Some b => b | None => Byte.x00 end.

(** *** strings.ToLower / strings.ToUpper on ASCII text *)

Definition lower_char (c : ascii) : ascii :=
  let n := N_of_ascii c in
  if ((65 <=? n) && (n <=? 90))%N then ascii_of_N (n + 32) else c.

Definition upper_char (c : ascii) : ascii :=
  let n := N_of_ascii c in
  if ((97 <=? n) && (n <=? 122))%N then ascii_of_N (n - 32) else c.

Fixpoint ToLower (s : string) : string :=
  match s with
  | EmptyString => EmptyString
  | String c r => String (lower_char c) (ToLower r)
  end.

Fixpoint ToUpper (s : string) : string :=
  match s with
  | EmptyString => EmptyString
  | String c r => String (upper_char c) (ToUpper r)
  end.

(** [strings.ReplaceAll(k, "_", "")]: every underscore is dropped. *)
Fixpoint RemoveUnderscores (s : string) : string :=
  match s with
  | EmptyString => EmptyString
  | String c r =>
      if Ascii.eqb c "_" then RemoveUnderscores r
      else String c (RemoveUnderscores r)
  end.

(** [strings.Contains(s, sub)]. *)
Fixpoint Contains (s sub : string) : bool :=
  String.prefix sub s ||
  match s with
  | EmptyString => false
  | String _ r => Contains r sub
  end.

(** *** encoding/hex *)

Definition hextable : list ascii := chars "0123456789abcdef".

Definition hex_digit (n : N) : ascii := nth (N.to_nat n) hextable "0"%char.

(** [hex.EncodeToString]: two lower-case digits per byte. *)
Fixpoint hex_encode (bs : bytes) : string :=
  match bs with
  | [] => EmptyString
  | b :: r =>
      let n := Byte.to_N b in
      String (hex_digit (N.shiftr n 4))
        (String (hex_digit (N.land n 15)) (hex_encode r))
  end.

(** [fromHexChar]: both letter cases are accepted. *)
Definition fromHexChar (c : ascii) : option N :=
  let n := N_of_ascii c in
  if ((48 <=? n) && (n <=? 57))%N then Some (n - 48)%N
  else if ((97 <=? n) && (n <=? 102))%N then Some (n - 97 + 10)%N
  else if ((65 <=? n) && (n <=? 70))%N then Some (n - 65 + 10)%N
  else None.

(** [hex.DecodeString]: [None] stands for every error the Go function
    reports (an invalid byte, or an odd length). *)
Fixpoint hex_decode (s : string) : option bytes :=
  match s with
  | EmptyString => Some []
  | String _ EmptyString => None
  | String p (String q r) =>
      match fromHexChar p, fromHexChar q with
      | Some a, Some b =>
          match hex_decode r with
          | Some bs => Some (byte_of_N (a * 16 + b) :: bs)
          | None => None
          end
      | _, _ => None
      end
  end.

(** *** encoding/base64, [StdEncoding] (padded, standard alphabet) *)

Definition b64table : list ascii :=
  chars "ABCDEFGHIJKLMNOPQRSTUVWXYZabcdefghijklmnopqrstuvwxyz0123456789+/".

Definition b64_digit (n : N) : ascii := nth (N.to_nat n) b64table "="%char.

Definition pad : ascii := "="%char.

(** [StdEncoding.EncodeToString]. *)
Fixpoint base64_encode (bs : bytes) : string :=
  match bs with
  | [] => EmptyString
  | [a] =>
      let v := N.shiftl (Byte.to_N a) 16 in
      text [b64_digit (N.land (N.shiftr v 18) 63);
            b64_digit (N.land (N.shiftr v 12) 63); pad; pad]
  | [a; b] =>
      let v := N.lor (N.shiftl (Byte.to_N a) 16) (N.shiftl (Byte.to_N b) 8) in
      text [b64_digit (N.land (N.shiftr v 18) 63);
            b64_digit (N.land (N.shiftr v 12) 63);
            b64_digit (N.land (N.shiftr v 6) 63); pad]
  | a :: b :: c :: r =>
      let v := N.lor (N.lor (N.shiftl (Byte.to_N a) 16)
                            (N.shiftl (Byte.to_N b) 8)) (Byte.to_N c) in
      String (b64_digit (N.land (N.shiftr v 18) 63))
        (String (b64_digit (N.land (N.shiftr v 12) 63))
           (String (b64_digit (N.land (N.shiftr v 6) 63))
              (String (b64_digit (N.land v 63)) (base64_encode r))))
  end.

Definition b64_value (c : ascii) : option N :=
  let n := N_of_ascii c in
  if ((65 <=? n) && (n <=? 90))%N then Some (n - 65)%N
  else if ((97 <=? n) && (n <=? 122))%N then Some (n - 97 + 26)%N
  else if ((48 <=? n) && (n <=? 57))%N then Some (n - 48 + 52)%N
  else if (n =? 43)%N then Some 62%N
  else if (n =? 47)%N then Some 63%N
  else None.

Definition is_newline (c : ascii) : bool :=
  Ascii.eqb c "010"%char || Ascii.eqb c "013"%char.

(** Quanta of four characters; padding is only legal in the last one. *)
Fixpoint b64_quanta (s : list ascii) : option bytes :=
  match s with
  | [] => Some []
  | c1 :: c2 :: c3 :: c4 :: r =>
      match b64_value c1, b64_value c2 with
      | Some v1, Some v2 =>
          match b64_value c3, b64_value c4 with
          | Some v3, Some v4 =>
              let v := N.lor (N.lor (N.shiftl v1 18) (N.shiftl v2 12))
                             (N.lor (N.shiftl v3 6) v4) in
              match b64_quanta r with
              | Some bs =>
                  Some (byte_of_N (N.land (N.shiftr v 16) 255)
                        :: byte_of_N (N.land (N.shiftr v 8) 255)
                        :: byte_of_N (N.land v 255) :: bs)
              | None => None
              end
          | Some v3, None =>
              if Ascii.eqb c4 pad && match r with [] => true | _ => false end
              then
                let v := N.lor (N.lor (N.shiftl v1 18) (N.shiftl v2 12))
                               (N.shiftl v3 6) in
                Some [byte_of_N (N.land (N.shiftr v 16) 255);
                      byte_of_N (N.land (N.shiftr v 8) 255)]
              else None
          | None, _ =>
              if Ascii.eqb c3 pad && Ascii.eqb c4 pad
                 && match r with [] => true | _ => false end
              then
                let v := N.lor (N.shiftl v1 18) (N.shiftl v2 12) in
                Some [byte_of_N (N.land (N.shiftr v 16) 255)]
              else None
          end
      | _, _ => None
      end
  | _ => None
  end.

(** [StdEncoding.DecodeString]: carriage returns and line feeds are
    skipped, the rest must be complete padded quanta. [None] stands for
    [CorruptInputError]. *)
Definition base64_decode (s : string) : option bytes :=
  b64_quanta (List.filter (fun c => negb (is_newline c)) (chars s)).

End Encoding.

(** ** json.go: the identifier shim around protojson *)

Module Codec.
Import Encoding.

(** The dynamic tree [encoding/json] builds when it unmarshals into an
    [any]: nil, bool, float64, string, [[]any] and [map[string]any]. The
    shim never looks inside a number, so a number is carried as its
    literal. A Go map has one entry per key and no order; the entry list
    of an object is read the same way, and the shim treats every entry on
    its own. *)
Inductive json : Type :=
| JNull
| JBool (b : bool)
| JNumber (lit : string)
| JString (s : string)
| JArray (l : list json)
| JObject (m : list (string * json)).

(** The three [slog.Warn] calls of the shim. *)
Inductive Warning : Type :=
| WarnConvertFailed (key : string)
| WarnUnexpectedLength (key : string) (got expected : nat)
| WarnUnexpectedType (key : string).

(** A value together with the warnings logged while computing it. *)
Definition logged (A : Type) : Type := (A * list Warning)%type.

(** keyIsTraceIDOrSpanID: returns hexBytes, base64Bytes, isTraceIDOrSpanID. *)
Definition keyIsTraceIDOrSpanID (k : string) : nat * nat * bool :=
  let key := RemoveUnderscores k in
  let key := ToLower key in
  if Contains key "traceid" then
    (* traceID is 16 bytes *)
    (16, 24, true)
  else if Contains key "spanid" then
    (* spanID is 8 bytes *)
    (8, 12, true)
  else (0, 0, false).

(** One iteration of the loop of convertTraceIDAndSpanIDBase64ToHexForMap:
    the value stored back under [k]. [rec] is
    convertTraceIDAndSpanIDBase64ToHexForAny. *)
Definition base64ToHexEntry (rec : json -> logged json)
    (k : string) (v : json) : logged json :=
  match keyIsTraceIDOrSpanID k with
  | (hexBytes, base64Bytes, true) =>
      match v with
      | JString s =>
          match base64_decode s with
          | None => (v, [WarnConvertFailed k])
          | Some bs =>
              if negb (Nat.eqb (List.length bs) base64Bytes) then
                (v, [WarnUnexpectedLength k (List.length bs) base64Bytes])
              else
                let converted := ToUpper (hex_encode bs) in
                if negb (Nat.eqb (String.length converted) hexBytes) then
                  (v, [WarnUnexpectedLength k (String.length converted) hexBytes])
                else (JString converted, [])
          end
      | _ =>
          let '(v', w) := rec v in (v', WarnUnexpectedType k :: w)
      end
  | (_, _, false) => rec v
  end.

(** One iteration of the loop of convertTraceIDAndSpanIDHexToBase64ForMap. *)
Definition hexToBase64Entry (rec : json -> logged json)
    (k : string) (v : json) : logged json :=
  match keyIsTraceIDOrSpanID k with
  | (hexBytes, base64Bytes, true) =>
      match v with
      | JString s =>
          match hex_decode s with
          | None => (v, [WarnConvertFailed k])
          | Some bs =>
              if negb (Nat.eqb (List.length bs) hexBytes) then
                (v, [WarnUnexpectedLength k (List.length bs) hexBytes])
              else
                let converted := base64_encode bs in
                if negb (Nat.eqb (String.length converted) base64Bytes) then
                  (v, [WarnUnexpectedLength k (String.length converted) base64Bytes])
                else (JString converted, [])
          end
      | _ =>
          let '(v', w) := rec v in (v', WarnUnexpectedType k :: w)
      end
  | (_, _, false) => rec v
  end.

Definition collect {A : Type} (rs : list (logged A)) : logged (list A) :=
  (List.map fst rs, List.concat (List.map snd rs)).

Definition keyed (k : string) (r : logged json) : logged (string * json) :=
  ((k, fst r), snd r).

(** convertTraceIDAndSpanIDBase64ToHexForAny, with
    convertTraceIDAndSpanIDBase64ToHexForMap as its object case. *)
Fixpoint convertTraceIDAndSpanIDBase64ToHexForAny (data : json) : logged json :=
  match data with
  | JObject m =>
      let r := collect (List.map (fun kv =>
                 keyed (fst kv)
                   (base64ToHexEntry convertTraceIDAndSpanIDBase64ToHexForAny
                      (fst kv) (snd kv))) m) in
      (JObject (fst r), snd r)
  | JArray l =>
      let r := collect (List.map convertTraceIDAndSpanIDBase64ToHexForAny l) in
      (JArray (fst r), snd r)
  | _ => (data, [])
  end.

Definition convertTraceIDAndSpanIDBase64ToHexForMap
    (m : list (string * json)) : logged (list (string * json)) :=
  collect (List.map (fun kv =>
    keyed (fst kv)
      (base64ToHexEntry convertTraceIDAndSpanIDBase64ToHexForAny
         (fst kv) (snd kv))) m).

(** convertTraceIDAndSpanIDHexToBase64ForAny / ...ForMap. *)
Fixpoint convertTraceIDAndSpanIDHexToBase64ForAny (data : json) : logged json :=
  match data with
  | JObject m =>
      let r := collect (List.map (fun kv =>
                 keyed (fst kv)
                   (hexToBase64Entry convertTraceIDAndSpanIDHexToBase64ForAny
                      (fst kv) (snd kv))) m) in
      (JObject (fst r), snd r)
  | JArray l =>
      let r := collect (List.map convertTraceIDAndSpanIDHexToBase64ForAny l) in
      (JArray (fst r), snd r)
  | _ => (data, [])
  end.

Definition convertTraceIDAndSpanIDHexToBase64ForMap
    (m : list (string * json)) : logged (list (string * json)) :=
  collect (List.map (fun kv =>
    keyed (fst kv)
      (hexToBase64Entry convertTraceIDAndSpanIDHexToBase64ForAny
         (fst kv) (snd kv))) m).

(** protojson.MarshalOptions, the fields json.go sets. *)
Record MarshalOptions : Type := {
  UseEnumNumbers : bool;
  EmitUnpopulated : bool;
  Multiline : bool;
  Indent : string
}.

Definition defaultMarshalOptions : MarshalOptions :=
  {| UseEnumNumbers := true; EmitUnpopulated := false;
     Multiline := false; Indent := "" |}.

(** The calls that leave the package. [Wire] is the JSON text ([[]byte]),
    [Msg] a [proto.Message]; [None] is a returned error. *)
Section Wire.
Context {Wire Msg : Type}.
Variable protojson_Marshal : MarshalOptions -> Msg -> option Wire.
Variable protojson_Unmarshal : Wire -> option Msg.
Variable json_Unmarshal : Wire -> option json.
Variable json_Marshal : json -> option Wire.
Variable json_MarshalIndent : json -> string -> option Wire.

Definition convertTraceIDAndSpanIDBase64ToHex
    (data : Wire) (indent : string) : logged Wire :=
  match json_Unmarshal data with
  | None => (data, [WarnConvertFailed ""])
  | Some m =>
      let '(m, w) := convertTraceIDAndSpanIDBase64ToHexForAny m in
      if negb (String.eqb indent "") then
        match json_MarshalIndent m indent with
        | None => (data, (w ++ [WarnConvertFailed ""])%list)
        | Some converted => (converted, w)
        end
      else
        match json_Marshal m with
        | None => (data, (w ++ [WarnConvertFailed ""])%list)
        | Some converted => (converted, w)
        end
  end.

Definition MarshalJSON (msg : Msg) : option (logged Wire) :=
  match protojson_Marshal defaultMarshalOptions msg with
  | None => None
  | Some data => Some (convertTraceIDAndSpanIDBase64ToHex data "")
  end.

Definition MarshalIndentJSON (msg : Msg) (indent : string)
    : option (logged Wire) :=
  let marshaler :=
    {| UseEnumNumbers := UseEnumNumbers defaultMarshalOptions;
       EmitUnpopulated := EmitUnpopulated defaultMarshalOptions;
       Multiline := true; Indent := indent |} in
  match protojson_Marshal marshaler msg with
  | None => None
  | Some data => Some (convertTraceIDAndSpanIDBase64ToHex data indent)
  end.

(** JSONEncoder: the writer is the list of chunks written so far. *)
Record JSONEncoder : Type := {
  writer : list Wire;
  marshaler : MarshalOptions;
  indent : string
}.

Definition NewJSONEncoder (w : list Wire) : JSONEncoder :=
  {| writer := w; marshaler := defaultMarshalOptions; indent := "" |}.

Definition SetIndent (e : JSONEncoder) (i : string) : JSONEncoder :=
  {| writer := writer e;
     marshaler := {| UseEnumNumbers := UseEnumNumbers (marshaler e);
                     EmitUnpopulated := EmitUnpopulated (marshaler e);
                     Multiline := true; Indent := i |};
     indent := i |}.

Definition Encode (e : JSONEncoder) (msg : Msg)
    : option (logged JSONEncoder) :=
  match protojson_Marshal (marshaler e) msg with
  | None => None
  | Some data =>
      let '(data, w) := convertTraceIDAndSpanIDBase64ToHex data (indent e) in
      Some ({| writer := (writer e ++ [data])%list;
               marshaler := marshaler e; indent := indent e |}, w)
  end.

(** UnmarshalJSON: the decoded message, or [None] for an error. *)
Definition UnmarshalJSON (data : Wire) : option Msg :=
  match json_Unmarshal data with
  | None => None
  | Some m =>
      let m := fst (convertTraceIDAndSpanIDHexToBase64ForAny m) in
      match json_Marshal m with
      | None => None
      | Some data => protojson_Unmarshal data
      end
  end.
End Wire.

(** *** A structural induction principle for [json] *)

Section JsonInduction.
Variable P : json -> Prop.
Hypothesis HNull : P JNull.
Hypothesis HBool : forall b, P (JBool b).
Hypothesis HNumber : forall lit, P (JNumber lit).
Hypothesis HString : forall s, P (JString s).
Hypothesis HArray : forall l, Forall P l -> P (JArray l).
Hypothesis HObject :
  forall m, Forall (fun kv => P (snd kv)) m -> P (JObject m).

Fixpoint json_nested_ind (t : json) : P t :=
  match t with
  | JNull => HNull
  | JBool b => HBool b
  | JNumber lit => HNumber lit
  | JString s => HString s
  | JArray l =>
      HArray l
        ((fix elems (l : list json) : Forall P l :=
            match l with
            | [] => List.Forall_nil P
            | x :: r => @List.Forall_cons _ P x r (json_nested_ind x) (elems r)
            end) l)
  | JObject m =>
      HObject m
        ((fix entries (m : list (string * json))
            : Forall (fun kv => P (snd kv)) m :=
            match m with
            | [] => List.Forall_nil _
            | kv :: r =>
                @List.Forall_cons _ (fun kv => P (snd kv)) kv r (json_nested_ind (snd kv)) (entries r)
            end) m)
  end.
End JsonInduction.

(** *** Identifiers that respect the length rule

    [ids_canonical t]: every string stored under an identifier key of [t]
    is the padded base64 text of exactly as many bytes as the key asks
    for (16 for a trace id, 8 for a span id). *)

Definition idSize (k : string) : option nat :=
  match keyIsTraceIDOrSpanID k with
  | (n, _, true) => Some n
  | (_, _, false) => None
  end.

Definition canonical_id (n : nat) (s : string) : bool :=
  match base64_decode s with
  | Some bs => Nat.eqb (List.length bs) n && String.eqb (base64_encode bs) s
  | None => false
  end.

Fixpoint ids_canonical (t : json) : bool :=
  match t with
  | JObject m =>
      forallb (fun kv =>
        match idSize (fst kv) with
        | Some n =>
            match snd kv with
            | JString s => canonical_id n s
            | _ => ids_canonical (snd kv)
            end
        | None => ids_canonical (snd kv)
        end) m
  | JArray l => forallb ids_canonical l
  | _ => true
  end.

End Codec.

(** ** A small wire instance for the codec

    protojson restricted to the identifier fields of a span: a [bytes]
    field is written as padded base64 text under its lowerCamelCase name,
    and a field that is empty is left out ([EmitUnpopulated] is off). The
    JSON text is identified with its tree, so [encoding/json] is the
    identity on it. *)

Module SpanWire.
Import Encoding Codec.

Record Span : Type := {
  TraceId : bytes;
  SpanId : bytes;
  ParentSpanId : bytes;
  Name : string
}.

Definition bytes_field (k : string) (b : bytes) : list (string * json) :=
  match b with
  | [] => []
  | _ => [(k, JString (base64_encode b))]
  end.

Definition string_field (k : string) (s : string) : list (string * json) :=
  match s with
  | EmptyString => []
  | _ => [(k, JString s)]
  end.

Definition protojson_Marshal (_ : MarshalOptions) (m : Span) : option json :=
  Some (JObject (bytes_field "traceId" (TraceId m)
                 ++ bytes_field "spanId" (SpanId m)
                 ++ bytes_field "parentSpanId" (ParentSpanId m)
                 ++ string_field "name" (Name m))%list).

Fixpoint field (k : string) (m : list (string * json)) : option json :=
  match m with
  | [] => None
  | (k', v) :: r => if String.eqb k k' then Some v else field k r
  end.

Definition read_bytes (k : string) (m : list (string * json)) : option bytes :=
  match field k m with
  | None => Some []
  | Some (JString s) => base64_decode s
  | Some _ => None
  end.

Definition read_string (k : string) (m : list (string * json)) : option string :=
  match field k m with
  | None => Some EmptyString
  | Some (JString s) => Some s
  | Some _ => None
  end.

Definition protojson_Unmarshal (t : json) : option Span :=
  match t with
  | JObject m =>
      match read_bytes "traceId" m, read_bytes "spanId" m,
            read_bytes "parentSpanId" m, read_string "name" m with
      | Some t, Some s, Some p, Some n =>
          Some {| TraceId := t; SpanId := s; ParentSpanId := p; Name := n |}
      | _, _, _, _ => None
      end
  | _ => None
  end.

Definition json_Unmarshal (data : json) : option json := Some data.
Definition json_Marshal (m : json) : option json := Some m.
Definition json_MarshalIndent (m : json) (_ : string) : option json := Some m.

Definition MarshalJSON : Span -> option (logged json) :=
  Codec.MarshalJSON protojson_Marshal json_Unmarshal json_Marshal
    json_MarshalIndent.

Definition MarshalIndentJSON : Span -> string -> option (logged json) :=
  Codec.MarshalIndentJSON protojson_Marshal json_Unmarshal json_Marshal
    json_MarshalIndent.

Definition Encode : @JSONEncoder json -> Span -> option (logged (@JSONEncoder json)) :=
  Codec.Encode protojson_Marshal json_Unmarshal json_Marshal json_MarshalIndent.

Definition UnmarshalJSON : json -> option Span :=
  Codec.UnmarshalJSON protojson_Unmarshal json_Unmarshal json_Marshal.

Definition repeat_bytes (n : nat) (b : bytes) : bytes :=
  List.concat (List.repeat b n).

(** The identifiers of the fixture testdata/trace.json. *)
Definition fixture_span : Span :=
  {| TraceId := default [] (hex_decode "5B8EFFF798038103D269B633813FC60C");
     SpanId := default [] (hex_decode "EEE19B7EC3C1B174");
     ParentSpanId := default [] (hex_decode "EEE19B7EC3C1B173");
     Name := "I'm a server span" |}.

(** A span whose span id holds twelve bytes: its base64 text is sixteen
    characters that are all hexadecimal digits. *)
Definition long_id_span : Span :=
  {| TraceId := [];
     SpanId := repeat_bytes 4 [Byte.xd3; Byte.x4d; Byte.x34];
     ParentSpanId := [];
     Name := "" |}.

End SpanWire.

(** ** partition.go: split, filter and partition of the telemetry containers *)

Module Signal.

Section Containers.
(** The leaf messages and the envelope payloads are left abstract: the
    algebra only moves them around. *)
Context {Resource InstrumentationScope KeyValue : Type}.
Context {Span LogRecord : Type}.
Context {NumberDataPoint SummaryDataPoint HistogramDataPoint
         ExponentialHistogramDataPoint : Type}.

(** *** tracepb *)

Record ScopeSpans : Type := {
  ss_Scope : option InstrumentationScope;
  ss_Spans : list (option Span);
  ss_SchemaUrl : string
}.

Record ResourceSpans : Type := {
  rs_Resource : option Resource;
  rs_ScopeSpans : list (option ScopeSpans);
  rs_SchemaUrl : string
}.

(** *** logspb *)

Record ScopeLogs : Type := {
  sl_Scope : option InstrumentationScope;
  sl_LogRecords : list (option LogRecord);
  sl_SchemaUrl : string
}.

Record ResourceLogs : Type := {
  rl_Resource : option Resource;
  rl_ScopeLogs : list (option ScopeLogs);
  rl_SchemaUrl : string
}.

(** *** metricspb *)

Record Gauge : Type := {
  gauge_DataPoints : list (option NumberDataPoint)
}.

Record Sum : Type := {
  sum_DataPoints : list (option NumberDataPoint);
  sum_AggregationTemporality : Z;
  sum_IsMonotonic : bool
}.

Record Histogram : Type := {
  histogram_DataPoints : list (option HistogramDataPoint);
  histogram_AggregationTemporality : Z
}.

Record ExponentialHistogram : Type := {
  exponential_DataPoints : list (option ExponentialHistogramDataPoint);
  exponential_AggregationTemporality : Z
}.

Record Summary : Type := {
  summary_DataPoints : list (option SummaryDataPoint)
}.

(** The oneof [Metric.data]; the wrapped pointer may be nil. *)
Inductive Metric_Data : Type :=
| Metric_Gauge (g : option Gauge)
| Metric_Sum (s : option Sum)
| Metric_Histogram (h : option Histogram)
| Metric_ExponentialHistogram (e : option ExponentialHistogram)
| Metric_Summary (s : option Summary).

Record Metric : Type := {
  m_Name : string;
  m_Description : string;
  m_Unit : string;
  m_Metadata : list KeyValue;
  m_Data : option Metric_Data
}.

Record ScopeMetrics : Type := {
  sm_Scope : option InstrumentationScope;
  sm_Metrics : list (option Metric);
  sm_SchemaUrl : string
}.

Record ResourceMetrics : Type := {
  rm_Resource : option Resource;
  rm_ScopeMetrics : list (option ScopeMetrics);
  rm_SchemaUrl : string
}.

(** *** Generated getters: all of them accept a nil receiver *)

Definition get {A B : Type} (f : A -> B) (d : B) (x : option A) : B :=
  match x with Some a => f a | None => d end.

Definition rs_GetResource := get rs_Resource None.
Definition rs_GetScopeSpans := get rs_ScopeSpans [].
Definition rs_GetSchemaUrl := get rs_SchemaUrl "".
Definition ss_GetScope := get ss_Scope None.
Definition ss_GetSpans := get ss_Spans [].
Definition ss_GetSchemaUrl := get ss_SchemaUrl "".

Definition rl_GetResource := get rl_Resource None.
Definition rl_GetScopeLogs := get rl_ScopeLogs [].
Definition rl_GetSchemaUrl := get rl_SchemaUrl "".
Definition sl_GetScope := get sl_Scope None.
Definition sl_GetLogRecords := get sl_LogRecords [].
Definition sl_GetSchemaUrl := get sl_SchemaUrl "".

Definition rm_GetResource := get rm_Resource None.
Definition rm_GetScopeMetrics := get rm_ScopeMetrics [].
Definition rm_GetSchemaUrl := get rm_SchemaUrl "".
Definition sm_GetScope := get sm_Scope None.
Definition sm_GetMetrics := get sm_Metrics [].
Definition sm_GetSchemaUrl := get sm_SchemaUrl "".

Definition m_GetName := get m_Name "".
Definition m_GetDescription := get m_Description "".
Definition m_GetUnit := get m_Unit "".
Definition m_GetMetadata := get m_Metadata [].
Definition m_GetData (m : option Metric) : option Metric_Data :=
  match m with Some x => m_Data x | None => None end.

Definition gauge_GetDataPoints := get gauge_DataPoints [].
Definition sum_GetDataPoints := get sum_DataPoints [].
Definition sum_GetAggregationTemporality := get sum_AggregationTemporality 0%Z.
Definition sum_GetIsMonotonic := get sum_IsMonotonic false.
Definition histogram_GetDataPoints := get histogram_DataPoints [].
Definition histogram_GetAggregationTemporality :=
  get histogram_AggregationTemporality 0%Z.
Definition exponential_GetDataPoints := get exponential_DataPoints [].
Definition exponential_GetAggregationTemporality :=
  get exponential_AggregationTemporality 0%Z.
Definition summary_GetDataPoints := get summary_DataPoints [].

(** *** Spans *)

(** TotalSpans *)
Definition TotalSpans (src : list (option ResourceSpans)) : nat :=
  fold_left (fun total elem =>
    fold_left (fun total elemScopeSpan =>
      total + List.length (ss_GetSpans elemScopeSpan))
      (rs_GetScopeSpans elem) total) src 0.

(** splitScopeSpans *)
Definition splitScopeSpans (src : list (option ScopeSpans))
    : list (option ScopeSpans) :=
  flat_map (fun elem =>
    List.map (fun elemSpan =>
      Some {| ss_Scope := ss_GetScope elem;
              ss_Spans := [elemSpan];
              ss_SchemaUrl := ss_GetSchemaUrl elem |})
      (ss_GetSpans elem)) src.

(** SplitResourceSpans *)
Definition SplitResourceSpans (src : list (option ResourceSpans))
    : list (option ResourceSpans) :=
  flat_map (fun elem =>
    List.map (fun elemScopeSpan =>
      Some {| rs_Resource := rs_GetResource elem;
              rs_ScopeSpans := [elemScopeSpan];
              rs_SchemaUrl := rs_GetSchemaUrl elem |})
      (splitScopeSpans (rs_GetScopeSpans elem))) src.

(** andFilter *)
Fixpoint andFilter {T : Type}
    (filters : list (option Resource -> option InstrumentationScope -> T -> bool))
    (r : option Resource) (s : option InstrumentationScope) (t : T) : bool :=
  match filters with
  | [] => true
  | f :: rest => if negb (f r s t) then false else andFilter rest r s t
  end.

(** FilterResourceSpans *)
Definition FilterResourceSpans (src : list (option ResourceSpans))
    (filters : list (option Resource -> option InstrumentationScope ->
                     option Span -> bool))
    : list (option ResourceSpans) :=
  let filter := andFilter filters in
  let splited := SplitResourceSpans src in
  flat_map (fun elem =>
    let resource := rs_GetResource elem in
    flat_map (fun elemScopeSpan =>
      let scope := ss_GetScope elemScopeSpan in
      flat_map (fun elemSpan =>
        if filter resource scope elemSpan then [elem] else [])
        (ss_GetSpans elemScopeSpan))
      (rs_GetScopeSpans elem)) splited.

(** *** Logs *)

(** TotalLogRecords *)
Definition TotalLogRecords (src : list (option ResourceLogs)) : nat :=
  fold_left (fun total elem =>
    fold_left (fun total elemScopeLogs =>
      total + List.length (sl_GetLogRecords elemScopeLogs))
      (rl_GetScopeLogs elem) total) src 0.

(** splitScopeLogs *)
Definition splitScopeLogs (src : list (option ScopeLogs))
    : list (option ScopeLogs) :=
  flat_map (fun elem =>
    List.map (fun elemLogRecord =>
      Some {| sl_Scope := sl_GetScope elem;
              sl_LogRecords := [elemLogRecord];
              sl_SchemaUrl := sl_GetSchemaUrl elem |})
      (sl_GetLogRecords elem)) src.

(** SplitResourceLogs *)
Definition SplitResourceLogs (src : list (option ResourceLogs))
    : list (option ResourceLogs) :=
  flat_map (fun elem =>
    List.map (fun elemScopeLogs =>
      Some {| rl_Resource := rl_GetResource elem;
              rl_ScopeLogs := [elemScopeLogs];
              rl_SchemaUrl := rl_GetSchemaUrl elem |})
      (splitScopeLogs (rl_GetScopeLogs elem))) src.

(** FilterResourceLogs *)
Definition FilterResourceLogs (src : list (option ResourceLogs))
    (filters : list (option Resource -> option InstrumentationScope ->
                     option LogRecord -> bool))
    : list (option ResourceLogs) :=
  let filter := andFilter filters in
  let splited := SplitResourceLogs src in
  flat_map (fun elem =>
    let resource := rl_GetResource elem in
    flat_map (fun elemScopeLogs =>
      let scope := sl_GetScope elemScopeLogs in
      flat_map (fun elemLogRecord =>
        if filter resource scope elemLogRecord then [elem] else [])
        (sl_GetLogRecords elemScopeLogs))
      (rl_GetScopeLogs elem)) splited.

(** *** Metrics *)

(** TotalDataPoints *)
Definition TotalDataPoints (src : list (option ResourceMetrics)) : nat :=
  fold_left (fun total elem =>
    fold_left (fun total elemScopeMetric =>
      fold_left (fun total elemMetric =>
        match m_GetData elemMetric with
        | Some (Metric_Gauge g) =>
            total + List.length (gauge_GetDataPoints g)
        | Some (Metric_Summary s) =>
            total + List.length (summary_GetDataPoints s)
        | Some (Metric_Sum s) =>
            total + List.length (sum_GetDataPoints s)
        | Some (Metric_Histogram h) =>
            total + List.length (histogram_GetDataPoints h)
        | Some (Metric_ExponentialHistogram e) =>
            total + List.length (exponential_GetDataPoints e)
        | None => total
        end)
        (sm_GetMetrics elemScopeMetric) total)
      (rm_GetScopeMetrics elem) total) src 0.

(** The metric literal every case of splitMetrics builds around its
    one-point payload. *)
Definition withData (elem : option Metric) (d : Metric_Data) : option Metric :=
  Some {| m_Name := m_GetName elem;
          m_Description := m_GetDescription elem;
          m_Unit := m_GetUnit elem;
          m_Metadata := m_GetMetadata elem;
          m_Data := Some d |}.

(** splitMetrics *)
Definition splitMetrics (src : list (option Metric)) : list (option Metric) :=
  flat_map (fun elem =>
    match m_GetData elem with
    | Some (Metric_Gauge g) =>
        List.map (fun elemDataPoint =>
          withData elem (Metric_Gauge (Some
            {| gauge_DataPoints := [elemDataPoint] |})))
          (gauge_GetDataPoints g)
    | Some (Metric_Sum s) =>
        List.map (fun elemDataPoint =>
          withData elem (Metric_Sum (Some
            {| sum_AggregationTemporality := sum_GetAggregationTemporality s;
               sum_IsMonotonic := sum_GetIsMonotonic s;
               sum_DataPoints := [elemDataPoint] |})))
          (sum_GetDataPoints s)
    | Some (Metric_Summary s) =>
        List.map (fun elemDataPoint =>
          withData elem (Metric_Summary (Some
            {| summary_DataPoints := [elemDataPoint] |})))
          (summary_GetDataPoints s)
    | Some (Metric_Histogram h) =>
        List.map (fun elemDataPoint =>
          withData elem (Metric_Histogram (Some
            {| histogram_AggregationTemporality :=
                 histogram_GetAggregationTemporality h;
               histogram_DataPoints := [elemDataPoint] |})))
          (histogram_GetDataPoints h)
    | Some (Metric_ExponentialHistogram e) =>
        List.map (fun elemDataPoint =>
          withData elem (Metric_ExponentialHistogram (Some
            {| exponential_AggregationTemporality :=
                 exponential_GetAggregationTemporality e;
               exponential_DataPoints := [elemDataPoint] |})))
          (exponential_GetDataPoints e)
    | None => []
    end) src.

(** splitScopeMetrics *)
Definition splitScopeMetrics (src : list (option ScopeMetrics))
    : list (option ScopeMetrics) :=
  flat_map (fun elem =>
    List.map (fun elemMetric =>
      Some {| sm_Scope := sm_GetScope elem;
              sm_Metrics := [elemMetric];
              sm_SchemaUrl := sm_GetSchemaUrl elem |})
      (splitMetrics (sm_GetMetrics elem))) src.

(** SplitResourceMetrics *)
Definition SplitResourceMetrics (src : list (option ResourceMetrics))
    : list (option ResourceMetrics) :=
  flat_map (fun elem =>
    List.map (fun elemScopeMetric =>
      Some {| rm_Resource := rm_GetResource elem;
              rm_ScopeMetrics := [elemScopeMetric];
              rm_SchemaUrl := rm_GetSchemaUrl elem |})
      (splitScopeMetrics (rm_GetScopeMetrics elem))) src.

(** FilterResourceMetrics *)
Definition FilterResourceMetrics (src : list (option ResourceMetrics))
    (filters : list (option Resource -> option InstrumentationScope ->
                     option Metric -> bool))
    : list (option ResourceMetrics) :=
  let filter := andFilter filters in
  let splited := SplitResourceMetrics src in
  flat_map (fun elem =>
    let resource := rm_GetResource elem in
    flat_map (fun elemScopeMetric =>
      let scope := sm_GetScope elemScopeMetric in
      flat_map (fun elemMetric =>
        if filter resource scope elemMetric then [elem] else [])
        (sm_GetMetrics elemScopeMetric))
      (rm_GetScopeMetrics elem)) splited.

(** *** Append and Partition

    [proto.Equal] on resources and on instrumentation scopes. *)
Variable Resource_Equal : option Resource -> option Resource -> bool.
Variable Scope_Equal :
  option InstrumentationScope -> option InstrumentationScope -> bool.

(** Modelled from the spec: append.go (AppendResourceSpans,
    AppendResourceMetrics, AppendResourceLogs and their scope-level
    helpers) is not among the sources. The signal algebra table says of
    [Append*]: "merges by (resource, scope) equality; new leaf is
    appended". The element joins the first envelope of the list that
    carries an equal resource, each of its scopes joins the first scope
    there that carries an equal instrumentation scope, and its items go
    to the end of that scope's item list; where nothing is equal the
    element (or the scope) is appended as it is. *)
Fixpoint appendScopeSpans (dst : list (option ScopeSpans))
    (src : option ScopeSpans) : list (option ScopeSpans) :=
  match dst with
  | [] => [src]
  | d :: rest =>
      if Scope_Equal (ss_GetScope d) (ss_GetScope src) then
        Some {| ss_Scope := ss_GetScope d;
                ss_Spans := ss_GetSpans d ++ ss_GetSpans src;
                ss_SchemaUrl := ss_GetSchemaUrl d |} :: rest
      else d :: appendScopeSpans rest src
  end.

(** Modelled from the spec: AppendResourceSpans of append.go, which is
    not among the sources (see [appendScopeSpans]). *)
Fixpoint AppendResourceSpans (dst : list (option ResourceSpans))
    (src : option ResourceSpans) : list (option ResourceSpans) :=
  match dst with
  | [] => [src]
  | d :: rest =>
      if Resource_Equal (rs_GetResource d) (rs_GetResource src) then
        Some {| rs_Resource := rs_GetResource d;
                rs_ScopeSpans :=
                  fold_left appendScopeSpans (rs_GetScopeSpans src)
                    (rs_GetScopeSpans d);
                rs_SchemaUrl := rs_GetSchemaUrl d |} :: rest
      else d :: AppendResourceSpans rest src
  end.

(** Modelled from the spec: the scope-level helper of
    AppendResourceLogs (append.go is not among the sources). *)
Fixpoint appendScopeLogs (dst : list (option ScopeLogs))
    (src : option ScopeLogs) : list (option ScopeLogs) :=
  match dst with
  | [] => [src]
  | d :: rest =>
      if Scope_Equal (sl_GetScope d) (sl_GetScope src) then
        Some {| sl_Scope := sl_GetScope d;
                sl_LogRecords := sl_GetLogRecords d ++ sl_GetLogRecords src;
                sl_SchemaUrl := sl_GetSchemaUrl d |} :: rest
      else d :: appendScopeLogs rest src
  end.

(** Modelled from the spec: AppendResourceLogs of append.go, which is
    not among the sources. *)
Fixpoint AppendResourceLogs (dst : list (option ResourceLogs))
    (src : option ResourceLogs) : list (option ResourceLogs) :=
  match dst with
  | [] => [src]
  | d :: rest =>
      if Resource_Equal (rl_GetResource d) (rl_GetResource src) then
        Some {| rl_Resource := rl_GetResource d;
                rl_ScopeLogs :=
                  fold_left appendScopeLogs (rl_GetScopeLogs src)
                    (rl_GetScopeLogs d);
                rl_SchemaUrl := rl_GetSchemaUrl d |} :: rest
      else d :: AppendResourceLogs rest src
  end.

(** Modelled from the spec: the scope-level helper of
    AppendResourceMetrics (append.go is not among the sources). The
    appended items are metrics; they go to the end of the metric list
    of the matching scope. *)
Fixpoint appendScopeMetrics (dst : list (option ScopeMetrics))
    (src : option ScopeMetrics) : list (option ScopeMetrics) :=
  match dst with
  | [] => [src]
  | d :: rest =>
      if Scope_Equal (sm_GetScope d) (sm_GetScope src) then
        Some {| sm_Scope := sm_GetScope d;
                sm_Metrics := sm_GetMetrics d ++ sm_GetMetrics src;
                sm_SchemaUrl := sm_GetSchemaUrl d |} :: rest
      else d :: appendScopeMetrics rest src
  end.

(** Modelled from the spec: AppendResourceMetrics of append.go, which is
    not among the sources. *)
Fixpoint AppendResourceMetrics (dst : list (option ResourceMetrics))
    (src : option ResourceMetrics) : list (option ResourceMetrics) :=
  match dst with
  | [] => [src]
  | d :: rest =>
      if Resource_Equal (rm_GetResource d) (rm_GetResource src) then
        Some {| rm_Resource := rm_GetResource d;
                rm_ScopeMetrics :=
                  fold_left appendScopeMetrics (rm_GetScopeMetrics src)
                    (rm_GetScopeMetrics d);
                rm_SchemaUrl := rm_GetSchemaUrl d |} :: rest
      else d :: AppendResourceMetrics rest src
  end.

(** [m[key]] on a Go map: the zero value (a nil slice) when absent. *)
Definition at_key {A : Type} (m : gmap string (list A)) (key : string) : list A :=
  default [] (m !! key).

(** PartitionResourceSpans *)
Definition PartitionResourceSpans (src : list (option ResourceSpans))
    (getPartitionKey : option ResourceSpans -> string)
    : gmap string (list (option ResourceSpans)) :=
  fold_left (fun m elem =>
    let key := getPartitionKey elem in
    <[key := AppendResourceSpans (at_key m key) elem]> m)
    (SplitResourceSpans src) ∅.

(** PartitionResourceMetrics *)
Definition PartitionResourceMetrics (src : list (option ResourceMetrics))
    (getPartitionKey : option ResourceMetrics -> string)
    : gmap string (list (option ResourceMetrics)) :=
  fold_left (fun m elem =>
    let key := getPartitionKey elem in
    <[key := AppendResourceMetrics (at_key m key) elem]> m)
    (SplitResourceMetrics src) ∅.

(** PartitionResourceLogs *)
Definition PartitionResourceLogs (src : list (option ResourceLogs))
    (getPartitionKey : option ResourceLogs -> string)
    : gmap string (list (option ResourceLogs)) :=
  fold_left (fun m elem =>
    let key := getPartitionKey elem in
    <[key := AppendResourceLogs (at_key m key) elem]> m)
    (SplitResourceLogs src) ∅.

(** The number of leaves held by all the buckets of a partition. *)
Definition bucketLeaves {A : Type} (total : list A -> nat)
    (m : gmap string (list A)) : nat :=
  map_fold (fun _ bucket acc => total bucket + acc) 0 m.

(** The number of trees held by all the buckets of a partition. *)
Definition bucketTrees {A : Type} (m : gmap string (list A)) : nat :=
  map_fold (fun _ bucket acc => List.length bucket + acc) 0 m.

(** *** The leaves of a list, read off the nesting

    These definitions do not come from partition.go: they say what a
    leaf is, so that the functions above can be compared with it. A
    leaf is an item together with what its two envelopes carry; the
    leaves of a list are taken in pre-order. For metrics the item of
    a leaf is the metric cut down to one data point. *)
Record Leaf (Item : Type) : Type := {
  lf_Resource : option Resource;
  lf_ResourceSchemaUrl : string;
  lf_Scope : option InstrumentationScope;
  lf_ScopeSchemaUrl : string;
  lf_Item : option Item
}.
Arguments lf_Resource {Item}.
Arguments lf_ResourceSchemaUrl {Item}.
Arguments lf_Scope {Item}.
Arguments lf_ScopeSchemaUrl {Item}.
Arguments lf_Item {Item}.

Definition spanLeaves (src : list (option ResourceSpans)) : list (Leaf Span) :=
  flat_map (fun elem =>
    flat_map (fun ss =>
      List.map (fun sp =>
        {| lf_Resource := rs_GetResource elem;
           lf_ResourceSchemaUrl := rs_GetSchemaUrl elem;
           lf_Scope := ss_GetScope ss;
           lf_ScopeSchemaUrl := ss_GetSchemaUrl ss;
           lf_Item := sp |}) (ss_GetSpans ss))
      (rs_GetScopeSpans elem)) src.

Definition spanLeafTree (l : Leaf Span) : option ResourceSpans :=
  Some {| rs_Resource := lf_Resource l;
          rs_ScopeSpans :=
            [Some {| ss_Scope := lf_Scope l;
                     ss_Spans := [lf_Item l];
                     ss_SchemaUrl := lf_ScopeSchemaUrl l |}];
          rs_SchemaUrl := lf_ResourceSchemaUrl l |}.

Definition logLeaves (src : list (option ResourceLogs)) : list (Leaf LogRecord) :=
  flat_map (fun elem =>
    flat_map (fun sl =>
      List.map (fun lr =>
        {| lf_Resource := rl_GetResource elem;
           lf_ResourceSchemaUrl := rl_GetSchemaUrl elem;
           lf_Scope := sl_GetScope sl;
           lf_ScopeSchemaUrl := sl_GetSchemaUrl sl;
           lf_Item := lr |}) (sl_GetLogRecords sl))
      (rl_GetScopeLogs elem)) src.

Definition logLeafTree (l : Leaf LogRecord) : option ResourceLogs :=
  Some {| rl_Resource := lf_Resource l;
          rl_ScopeLogs :=
            [Some {| sl_Scope := lf_Scope l;
                     sl_LogRecords := [lf_Item l];
                     sl_SchemaUrl := lf_ScopeSchemaUrl l |}];
          rl_SchemaUrl := lf_ResourceSchemaUrl l |}.

(** The metric [parent] cut down to the data point at one position of
    its point list: same name, description, unit and metadata, same
    point-shape parameters, one data point. *)
Definition onePoint (parent : option Metric) (one : option Metric) : Prop :=
  match m_GetData parent with
  | Some (Metric_Gauge g) =>
      exists dp, In dp (gauge_GetDataPoints g) /\
        one = Some {| m_Name := m_GetName parent;
                      m_Description := m_GetDescription parent;
                      m_Unit := m_GetUnit parent;
                      m_Metadata := m_GetMetadata parent;
                      m_Data := Some (Metric_Gauge (Some
                        {| gauge_DataPoints := [dp] |})) |}
  | Some (Metric_Sum s) =>
      exists dp, In dp (sum_GetDataPoints s) /\
        one = Some {| m_Name := m_GetName parent;
                      m_Description := m_GetDescription parent;
                      m_Unit := m_GetUnit parent;
                      m_Metadata := m_GetMetadata parent;
                      m_Data := Some (Metric_Sum (Some
                        {| sum_DataPoints := [dp];
                           sum_AggregationTemporality :=
                             sum_GetAggregationTemporality s;
                           sum_IsMonotonic := sum_GetIsMonotonic s |})) |}
  | Some (Metric_Histogram h) =>
      exists dp, In dp (histogram_GetDataPoints h) /\
        one = Some {| m_Name := m_GetName parent;
                      m_Description := m_GetDescription parent;
                      m_Unit := m_GetUnit parent;
                      m_Metadata := m_GetMetadata parent;
                      m_Data := Some (Metric_Histogram (Some
                        {| histogram_DataPoints := [dp];
                           histogram_AggregationTemporality :=
                             histogram_GetAggregationTemporality h |})) |}
  | Some (Metric_ExponentialHistogram e) =>
      exists dp, In dp (exponential_GetDataPoints e) /\
        one = Some {| m_Name := m_GetName parent;
                      m_Description := m_GetDescription parent;
                      m_Unit := m_GetUnit parent;
                      m_Metadata := m_GetMetadata parent;
                      m_Data := Some (Metric_ExponentialHistogram (Some
                        {| exponential_DataPoints := [dp];
                           exponential_AggregationTemporality :=
                             exponential_GetAggregationTemporality e |})) |}
  | Some (Metric_Summary s) =>
      exists dp, In dp (summary_GetDataPoints s) /\
        one = Some {| m_Name := m_GetName parent;
                      m_Description := m_GetDescription parent;
                      m_Unit := m_GetUnit parent;
                      m_Metadata := m_GetMetadata parent;
                      m_Data := Some (Metric_Summary (Some
                        {| summary_DataPoints := [dp] |})) |}
  | None => False
  end.

(** The number of data points a metric holds. *)
Definition pointCount (m : option Metric) : nat :=
  match m_GetData m with
  | Some (Metric_Gauge g) => List.length (gauge_GetDataPoints g)
  | Some (Metric_Sum s) => List.length (sum_GetDataPoints s)
  | Some (Metric_Histogram h) => List.length (histogram_GetDataPoints h)
  | Some (Metric_ExponentialHistogram e) =>
      List.length (exponential_GetDataPoints e)
  | Some (Metric_Summary s) => List.length (summary_GetDataPoints s)
  | None => 0
  end.

Definition metricLeaves (src : list (option ResourceMetrics))
    : list (Leaf Metric) :=
  flat_map (fun elem =>
    flat_map (fun sm =>
      List.map (fun one =>
        {| lf_Resource := rm_GetResource elem;
           lf_ResourceSchemaUrl := rm_GetSchemaUrl elem;
           lf_Scope := sm_GetScope sm;
           lf_ScopeSchemaUrl := sm_GetSchemaUrl sm;
           lf_Item := one |}) (splitMetrics (sm_GetMetrics sm)))
      (rm_GetScopeMetrics elem)) src.

Definition metricLeafTree (l : Leaf Metric) : option ResourceMetrics :=
  Some {| rm_Resource := lf_Resource l;
          rm_ScopeMetrics :=
            [Some {| sm_Scope := lf_Scope l;
                     sm_Metrics := [lf_Item l];
                     sm_SchemaUrl := lf_ScopeSchemaUrl l |}];
          rm_SchemaUrl := lf_ResourceSchemaUrl l |}.

(** A leaf passes a list of predicates when every one of them holds
    of its resource, its scope and its item. *)
Definition passes {Item : Type}
    (filters : list (option Resource -> option InstrumentationScope ->
                     option Item -> bool)) (l : Leaf Item) : bool :=
  forallb (fun f => f (lf_Resource l) (lf_Scope l) (lf_Item l)) filters.

(** The number of leaves under one resource envelope. *)
Definition spansIn (elem : option ResourceSpans) : nat :=
  list_sum (List.map (fun ss => List.length (ss_GetSpans ss))
              (rs_GetScopeSpans elem)).

Definition logsIn (elem : option ResourceLogs) : nat :=
  list_sum (List.map (fun sl => List.length (sl_GetLogRecords sl))
              (rl_GetScopeLogs elem)).

Definition pointsIn (elem : option ResourceMetrics) : nat :=
  list_sum (List.map (fun sm => list_sum (List.map pointCount (sm_GetMetrics sm)))
              (rm_GetScopeMetrics elem)).

(** [t] is a one-leaf tree cut out of [src]: one resource envelope
    around one scope envelope around one item, and the envelopes
    carry the resource, the instrumentation scope and the two schema
    urls of the tree of [src] the item sits in. *)
Definition cutFromSpans (src : list (option ResourceSpans))
    (t : option ResourceSpans) : Prop :=
  exists elem ss sp,
    In elem src /\ In ss (rs_GetScopeSpans elem) /\ In sp (ss_GetSpans ss)
    /\ t = Some {| rs_Resource := rs_GetResource elem;
                   rs_ScopeSpans :=
                     [Some {| ss_Scope := ss_GetScope ss;
                              ss_Spans := [sp];
                              ss_SchemaUrl := ss_GetSchemaUrl ss |}];
                   rs_SchemaUrl := rs_GetSchemaUrl elem |}.

Definition cutFromLogs (src : list (option ResourceLogs))
    (t : option ResourceLogs) : Prop :=
  exists elem sl lr,
    In elem src /\ In sl (rl_GetScopeLogs elem)
    /\ In lr (sl_GetLogRecords sl)
    /\ t = Some {| rl_Resource := rl_GetResource elem;
                   rl_ScopeLogs :=
                     [Some {| sl_Scope := sl_GetScope sl;
                              sl_LogRecords := [lr];
                              sl_SchemaUrl := sl_GetSchemaUrl sl |}];
                   rl_SchemaUrl := rl_GetSchemaUrl elem |}.

(** For metrics the one item is a metric that holds one data point of
    a metric of [src] and keeps that metric's name, description, unit,
    metadata and point-shape parameters ([onePoint]). *)
Definition cutFromMetrics (src : list (option ResourceMetrics))
    (t : option ResourceMetrics) : Prop :=
  exists elem sm parent one,
    In elem src /\ In sm (rm_GetScopeMetrics elem)
    /\ In parent (sm_GetMetrics sm) /\ onePoint parent one
    /\ t = Some {| rm_Resource := rm_GetResource elem;
                   rm_ScopeMetrics :=
                     [Some {| sm_Scope := sm_GetScope sm;
                              sm_Metrics := [one];
                              sm_SchemaUrl := sm_GetSchemaUrl sm |}];
                   rm_SchemaUrl := rm_GetSchemaUrl elem |}.

End Containers.

Arguments lf_Resource {Resource InstrumentationScope Item}.
Arguments lf_ResourceSchemaUrl {Resource InstrumentationScope Item}.
Arguments lf_Scope {Resource InstrumentationScope Item}.
Arguments lf_ScopeSchemaUrl {Resource InstrumentationScope Item}.
Arguments lf_Item {Resource InstrumentationScope Item}.

End Signal.

(** ** The gRPC status vocabulary shared by the server and the client *)

Module Grpc.

(** google.golang.org/grpc/codes *)
Inductive Code : Type :=
| OK | Canceled | Unknown | InvalidArgument | DeadlineExceeded | NotFound
| AlreadyExists | PermissionDenied | ResourceExhausted | FailedPrecondition
| Aborted | OutOfRange | Unimplemented | Internal | Unavailable | DataLoss
| Unauthenticated
| OtherCode (n : N).

(** google.golang.org/grpc/status.Status *)
Record Status : Type := {
  st_Code : Code;
  st_Message : string;
  st_Details : list string
}.

Definition New (c : Code) (msg : string) : Status :=
  {| st_Code := c; st_Message := msg; st_Details := [] |}.

(** [st.WithDetails(&errdetails.ErrorInfo{Reason: reason})] *)
Definition WithErrorInfo (st : Status) (reason : string) : Status :=
  {| st_Code := st_Code st; st_Message := st_Message st;
     st_Details := (st_Details st ++ [reason])%list |}.

(** A non-nil Go [error]. *)
Inductive error : Type :=
| StatusError (st : Status)
| PlainError (msg : string)
| JoinedError (errs : list error).

(** [status.FromError] on a non-nil error. *)
Definition FromError (msg_of : error -> string) (err : error) : Status * bool :=
  match err with
  | StatusError st => (st, true)
  | _ => (New Unknown (msg_of err), false)
  end.

(** [status.Code]; [None] is the nil error. *)
Definition CodeOf (err : option error) : Code :=
  match err with
  | None => OK
  | Some (StatusError st) => st_Code st
  | Some _ => Unknown
  end.

(** What a handler call can end in: [(resp, nil)], [(nil, err)], or a
    panic that unwinds through the callers. *)
Inductive Result (A : Type) : Type :=
| Ok (a : A)
| Fail (e : error)
| Panic.
Arguments Ok {A} a.
Arguments Fail {A} e.
Arguments Panic {A}.

Definition mapResult {A B : Type} (f : A -> B) (r : Result A) : Result B :=
  match r with
  | Ok a => Ok (f a)
  | Fail e => Fail e
  | Panic => Panic
  end.

End Grpc.

(** ** proxy.go and mux.go: the HTTP bridge and the server multiplexer *)

Module Server.
Import Encoding Grpc.

(** grpcCodeToHTTPStatus *)
Definition grpcCodeToHTTPStatus (code : Code) : nat :=
  match code with
  | OK => 200
  | Canceled => 408
  | Unknown => 500
  | InvalidArgument => 400
  | DeadlineExceeded => 504
  | NotFound => 404
  | AlreadyExists => 409
  | PermissionDenied => 403
  | ResourceExhausted => 429
  | FailedPrecondition => 412
  | Aborted => 409
  | OutOfRange => 400
  | Unimplemented => 501
  | Internal => 500
  | Unavailable => 503
  | DataLoss => 500
  | Unauthenticated => 401
  | OtherCode _ => 500
  end.

(** [http.StatusText] on the codes the bridge can emit. *)
Definition StatusText (code : nat) : string :=
  match code with
  | 200 => "OK"
  | 400 => "Bad Request"
  | 401 => "Unauthorized"
  | 403 => "Forbidden"
  | 404 => "Not Found"
  | 405 => "Method Not Allowed"
  | 408 => "Request Timeout"
  | 409 => "Conflict"
  | 412 => "Precondition Failed"
  | 415 => "Unsupported Media Type"
  | 429 => "Too Many Requests"
  | 500 => "Internal Server Error"
  | 501 => "Not Implemented"
  | 503 => "Service Unavailable"
  | 504 => "Gateway Timeout"
  | _ => ""
  end.

(** What the [http.ResponseWriter] has received when a handler returns. *)
Record Response : Type := {
  StatusCode : nat;
  ContentType : string;
  Body : bytes
}.

(** A request either gets a response, or the handler goroutine panics
    and net/http drops the connection. *)
Inductive Outcome : Type :=
| Responded (resp : Response)
| Dropped.

(** [http.Error] *)
Definition http_Error (text : string) (code : nat) : Response :=
  {| StatusCode := code;
     ContentType := "text/plain; charset=utf-8";
     Body := list_byte_of_string (text +:+ String "010" EmptyString) |}.

(** [io.ReadAll(r.Body)] *)
Inductive ReadResult : Type :=
| ReadOK (body : bytes)
| ReadErr (reason : string).

Definition Header := list (string * list string).

(** [Header.Get] on a canonical key. *)
Fixpoint Header_Get (h : Header) (key : string) : string :=
  match h with
  | [] => ""
  | (k, vs) :: r =>
      if String.eqb k key then match vs with v :: _ => v | [] => "" end
      else Header_Get r key
  end.

Section Bridge.
(** [context.Context], and the status encoders of the two codecs
    ([proto.Marshal(st.Proto())] and [protojson.Marshal(st.Proto())]). *)
Context {Ctx : Type}.
Variable error_text : error -> string.
Variable status_proto : Status -> option bytes.
Variable status_json : Status -> option bytes.

Record Request : Type := {
  Method : string;
  Path : string;
  Headers : Header;
  Context : Ctx;
  ReadAll : ReadResult
}.

(** errorProto. When the status cannot be marshalled the plain-text
    error has already gone out, and the writes that follow it are
    ignored by the response writer. *)
Definition errorProto (st : Status) : Response :=
  let httpStatus := grpcCodeToHTTPStatus (st_Code st) in
  match status_proto st with
  | None => http_Error (StatusText httpStatus) httpStatus
  | Some bs =>
      {| StatusCode := httpStatus;
         ContentType := "application/x-protobuf"; Body := bs |}
  end.

(** errorJSON *)
Definition errorJSON (st : Status) : Response :=
  let httpStatus := grpcCodeToHTTPStatus (st_Code st) in
  match status_json st with
  | None => http_Error (StatusText httpStatus) httpStatus
  | Some bs =>
      {| StatusCode := httpStatus;
         ContentType := "application/json"; Body := bs |}
  end.

Section ProxyHandler.
Context {Req Resp : Type}.

(** The codec calls of one signal. [proto_decode] and [json_decode]
    are [proto.Unmarshal] and [protojson.Unmarshal] on a body that
    holds at least one byte. *)
Record SignalCodec : Type := {
  newRequestFunc : Ctx -> Req;
  proto_decode : bytes -> Req -> option Req;
  json_decode : bytes -> Req -> option Req;
  proto_Marshal : Resp -> option bytes;
  json_Marshal : Resp -> option bytes
}.

Variable codec : SignalCodec.

(** [proto.Unmarshal(body, req)]: the message is reset and the fields
    found in the input are merged into it. The empty input is the
    wire form of the message with no field set, so the fresh
    request comes back as it is. *)
Definition proto_Unmarshal (body : bytes) (req : Req) : option Req :=
  match body with
  | [] => Some req
  | _ => proto_decode codec body req
  end.

(** [protojson.Unmarshal(bs, req)]: the decoder first reads a token
    and wants the opening brace of an object; on the empty input it
    meets the end of the text and reports a syntax error. *)
Definition protojson_Unmarshal (bs : bytes) (req : Req) : option Req :=
  match bs with
  | [] => None
  | _ => json_decode codec bs req
  end.

Record proxyHandler : Type := {
  handler : Ctx -> Req -> Result Resp
}.

(** The second half of serveHTTPWithProto: what is written once
    the handler has returned. The reason text of a codec error is
    the text of that error; it is kept as a fixed word. *)
Definition respondProto (res : Result Resp) : Outcome :=
  match res with
  | Panic => Dropped
  | Fail err =>
      match FromError error_text err with
      | (st, true) => Responded (errorProto st)
      | (_, false) =>
          Responded (errorProto (New Internal (error_text err)))
      end
  | Ok resp =>
      match proto_Marshal codec resp with
      | None =>
          let st := New Internal "Unable to marshal response" in
          Responded (errorProto (WithErrorInfo st "marshal"))
      | Some data =>
          Responded {| StatusCode := 200;
                       ContentType := "application/x-protobuf";
                       Body := data |}
      end
  end.

(** serveHTTPWithProto *)
Definition serveHTTPWithProto (h : proxyHandler) (r : Request) : Outcome :=
  let ctx := Context r in
  match ReadAll r with
  | ReadErr reason =>
      let st := New InvalidArgument "Unable to read request body" in
      Responded (errorProto (WithErrorInfo st reason))
  | ReadOK body =>
      let req := newRequestFunc codec ctx in
      match proto_Unmarshal body req with
      | None =>
          Responded (errorProto
            (New InvalidArgument "Unable to unmarshal request body"))
      | Some req => respondProto (handler h ctx req)
      end
  end.

(** The second half of serveHTTPWithJSON. *)
Definition respondJSON (res : Result Resp) : Outcome :=
  match res with
  | Panic => Dropped
  | Fail err =>
      match FromError error_text err with
      | (st, true) => Responded (errorJSON st)
      | (_, false) =>
          Responded (errorJSON (New Internal (error_text err)))
      end
  | Ok resp =>
      match json_Marshal codec resp with
      | None =>
          let st := New Internal "Unable to marshal response" in
          Responded (errorJSON (WithErrorInfo st "marshal"))
      | Some data =>
          Responded {| StatusCode := 200;
                       ContentType := "application/json";
                       Body := data |}
      end
  end.

(** serveHTTPWithJSON *)
Definition serveHTTPWithJSON (h : proxyHandler) (r : Request) : Outcome :=
  let ctx := Context r in
  let req := newRequestFunc codec ctx in
  match ReadAll r with
  | ReadErr reason =>
      let st := New InvalidArgument "Unable to read request body" in
      Responded (errorJSON (WithErrorInfo st reason))
  | ReadOK bs =>
      match protojson_Unmarshal bs req with
      | None =>
          let st := New InvalidArgument "Unable to unmarshal request body" in
          Responded (errorJSON (WithErrorInfo st "unmarshal"))
      | Some req => respondJSON (handler h ctx req)
      end
  end.

(** proxyHandler.ServeHTTP *)
Definition proxy_ServeHTTP (h : proxyHandler) (r : Request) : Outcome :=
  if negb (String.eqb (Method r) "POST") then
    Responded (http_Error (StatusText 405) 405)
  else if String.eqb (Header_Get (Headers r) "Content-Type")
            "application/x-protobuf" then
    serveHTTPWithProto h r
  else if String.eqb (Header_Get (Headers r) "Content-Type")
            "application/json" then
    serveHTTPWithJSON h r
  else Responded (http_Error (StatusText 415) 415).
End ProxyHandler.
End Bridge.

End Server.

Module Mux.
Import Encoding Grpc Server.

(** [nest ms k] wraps [k] in the middlewares [ms], the first of them
    outermost. This is the order the composition is compared with; it
    is not taken from mux.go. *)
Definition nest {H : Type} (ms : list (H -> H)) (k : H) : H :=
  fold_right (fun (mw : H -> H) (inner : H) => mw inner) k ms.

Section ServerMux.
Context {Ctx : Type}.
Context {TraceRequest TraceResponse : Type}.
Context {MetricsRequest MetricsResponse : Type}.
Context {LogsRequest LogsResponse : Type}.
Context {OtherMessage : Type}.

(** [proto.Message]: the erased message the cross-signal layer sees. *)
Inductive Message : Type :=
| MsgTraceRequest (m : TraceRequest)
| MsgTraceResponse (m : TraceResponse)
| MsgMetricsRequest (m : MetricsRequest)
| MsgMetricsResponse (m : MetricsResponse)
| MsgLogsRequest (m : LogsRequest)
| MsgLogsResponse (m : LogsResponse)
| MsgOther (m : OtherMessage).

Definition ProtoHandlerFunc : Type := Ctx -> Message -> Result Message.
Definition MiddlewareFunc : Type := ProtoHandlerFunc -> ProtoHandlerFunc.

(** chainedMiddleware, on the middleware slice of the mux: start from
    the last element and walk the indices down to zero. *)
Definition chainedMiddleware (middlewares : list MiddlewareFunc)
    : MiddlewareFunc :=
  match rev middlewares with
  | [] => fun next => next
  | last :: before =>
      fold_left (fun (chained : MiddlewareFunc) (mw : MiddlewareFunc) =>
                   fun h => mw (chained h)) before last
  end.

(** traceEntry, metricsEntry and logsEntry are the same text at three
    pairs of types; [entry] is that text once. *)
Section Entry.
Context {Req Resp : Type}.

(** The two type assertions of Export, and the conversions to the
    erased message that Go performs implicitly. *)
Record Erasure : Type := {
  ofRequest : Req -> Message;
  asRequest : Message -> option Req;
  ofResponse : Resp -> Message;
  asResponse : Message -> option Resp
}.

Definition Handler : Type := Ctx -> Req -> Result Resp.
Definition EntryMiddlewareFunc : Type := Handler -> Handler.

Record entry : Type := {
  middlewares : list EntryMiddlewareFunc;
  h : option Handler
}.

Definition emptyEntry : entry := {| middlewares := []; h := None |}.

(** Use *)
Definition entry_Use (e : entry) (m : list EntryMiddlewareFunc) : entry :=
  {| middlewares := (middlewares e ++ m)%list; h := h e |}.

(** Handle; a nil handler clears the registration. *)
Definition entry_Handle (e : entry) (handler : option Handler) : entry :=
  {| middlewares := middlewares e; h := handler |}.

(** getHandler *)
Definition getHandler (e : entry) : option Handler :=
  match h e with
  | None => None
  | Some base =>
      Some (fold_left (fun wrapped mw => mw wrapped)
              (rev (middlewares e)) base)
  end.

(** The method of the embedded Unimplemented...ServiceServer. *)
Definition Unimplemented_Export : Result Resp :=
  Fail (StatusError (New Unimplemented "method Export not implemented")).

Variable er : Erasure.

(** The closure Export hands to the cross-signal chain: assert the
    request type (a failed assertion panics) and call the wrapped
    handler of the entry. *)
Definition erased (base : Handler) : ProtoHandlerFunc :=
  fun ctx req =>
    match asRequest er req with
    | Some r => mapResult (ofResponse er) (base ctx r)
    | None => Panic
    end.

(** What Export makes of the result of the chain. *)
Definition narrowed (r : Result Message) : Result Resp :=
  match r with
  | Fail err => Fail err
  | Panic => Panic
  | Ok resp =>
      match asResponse er resp with
      | Some r => Ok r
      | None =>
          Fail (StatusError (New Internal "unexpected response type"))
      end
  end.

(** Export *)
Definition Export (mux_middlewares : list MiddlewareFunc) (e : entry)
    (ctx : Ctx) (req : Req) : Result Resp :=
  match getHandler e with
  | None => Unimplemented_Export
  | Some base =>
      let h := chainedMiddleware mux_middlewares (erased base) in
      narrowed (h ctx (ofRequest er req))
  end.

(** A per-signal middleware that rewrites the context and calls the
    next handler, as the probes of the tests do. *)
Definition entryProbe (g : Ctx -> Ctx) : EntryMiddlewareFunc :=
  fun next ctx req => next (g ctx) req.

(** Whether a signal has a handler: its entry exists and holds one. *)
Definition hasHandler (e : option entry) : bool :=
  match e with
  | Some e => match h e with Some _ => true | None => false end
  | None => false
  end.
End Entry.

(** A cross-signal middleware that rewrites the context and calls the
    next handler. *)
Definition probe (g : Ctx -> Ctx) : MiddlewareFunc :=
  fun next ctx req => next (g ctx) req.

(** The status code a call ended with, when it ended with an error
    that carries a status. *)
Definition failureCode {A : Type} (r : Result A) : option Code :=
  match r with
  | Fail (StatusError st) => Some (st_Code st)
  | _ => None
  end.

Definition traceErasure : @Erasure TraceRequest TraceResponse :=
  {| ofRequest := MsgTraceRequest;
     asRequest := fun m => match m with MsgTraceRequest r => Some r | _ => None end;
     ofResponse := MsgTraceResponse;
     asResponse := fun m => match m with MsgTraceResponse r => Some r | _ => None end |}.

Definition metricsErasure : @Erasure MetricsRequest MetricsResponse :=
  {| ofRequest := MsgMetricsRequest;
     asRequest := fun m => match m with MsgMetricsRequest r => Some r | _ => None end;
     ofResponse := MsgMetricsResponse;
     asResponse := fun m => match m with MsgMetricsResponse r => Some r | _ => None end |}.

Definition logsErasure : @Erasure LogsRequest LogsResponse :=
  {| ofRequest := MsgLogsRequest;
     asRequest := fun m => match m with MsgLogsRequest r => Some r | _ => None end;
     ofResponse := MsgLogsResponse;
     asResponse := fun m => match m with MsgLogsResponse r => Some r | _ => None end |}.

(** ServerMux. The pattern of a signal is handed to [httpMux] by the
    same function that creates the entry, and neither is ever removed:
    the route of a signal exists exactly when its entry does. *)
Record ServerMux : Type := {
  mux_middlewares : list MiddlewareFunc;
  trace : option (@entry TraceRequest TraceResponse);
  metrics : option (@entry MetricsRequest MetricsResponse);
  logs : option (@entry LogsRequest LogsResponse)
}.

(** NewServerMux *)
Definition NewServerMux : ServerMux :=
  {| mux_middlewares := []; trace := None; metrics := None; logs := None |}.

(** ServerMux.Use *)
Definition Use (mux : ServerMux) (m : list MiddlewareFunc) : ServerMux :=
  {| mux_middlewares := (mux_middlewares mux ++ m)%list;
     trace := trace mux; metrics := metrics mux; logs := logs mux |}.

Definition setTrace (mux : ServerMux) (e : entry) : ServerMux :=
  {| mux_middlewares := mux_middlewares mux;
     trace := Some e; metrics := metrics mux; logs := logs mux |}.

Definition setMetrics (mux : ServerMux) (e : entry) : ServerMux :=
  {| mux_middlewares := mux_middlewares mux;
     trace := trace mux; metrics := Some e; logs := logs mux |}.

Definition setLogs (mux : ServerMux) (e : entry) : ServerMux :=
  {| mux_middlewares := mux_middlewares mux;
     trace := trace mux; metrics := metrics mux; logs := Some e |}.

(** Trace(): getTraceEntry, else newTraceEntry. The entry it returns
    is the one now stored in the mux. *)
Definition Trace (mux : ServerMux) : ServerMux * entry :=
  match trace mux with
  | Some e => (mux, e)
  | None => (setTrace mux emptyEntry, emptyEntry)
  end.

(** Metrics() *)
Definition Metrics (mux : ServerMux) : ServerMux * entry :=
  match metrics mux with
  | Some e => (mux, e)
  | None => (setMetrics mux emptyEntry, emptyEntry)
  end.

(** Logs() *)
Definition Logs (mux : ServerMux) : ServerMux * entry :=
  match logs mux with
  | Some e => (mux, e)
  | None => (setLogs mux emptyEntry, emptyEntry)
  end.

(** [mux.Trace().Handle(handler)] and [mux.Trace().Use(m...)]: the
    entry is shared with the mux, so the update shows there. *)
Definition Trace_Handle (mux : ServerMux) (handler : option Handler) : ServerMux :=
  let '(mux, e) := Trace mux in setTrace mux (entry_Handle e handler).
Definition Trace_Use (mux : ServerMux) (m : list EntryMiddlewareFunc) : ServerMux :=
  let '(mux, e) := Trace mux in setTrace mux (entry_Use e m).
Definition Metrics_Handle (mux : ServerMux) (handler : option Handler) : ServerMux :=
  let '(mux, e) := Metrics mux in setMetrics mux (entry_Handle e handler).
Definition Metrics_Use (mux : ServerMux) (m : list EntryMiddlewareFunc) : ServerMux :=
  let '(mux, e) := Metrics mux in setMetrics mux (entry_Use e m).
Definition Logs_Handle (mux : ServerMux) (handler : option Handler) : ServerMux :=
  let '(mux, e) := Logs mux in setLogs mux (entry_Handle e handler).
Definition Logs_Use (mux : ServerMux) (m : list EntryMiddlewareFunc) : ServerMux :=
  let '(mux, e) := Logs mux in setLogs mux (entry_Use e m).

(** *** The binary-RPC side

    Register hands an entry to the grpc server only when it exists; a
    call for a service that was never registered is answered by the
    grpc server itself, with Unimplemented. *)
Definition unknownService {Resp : Type} : Result Resp :=
  Fail (StatusError (New Unimplemented "unknown service")).

Definition grpc_TraceExport (mux : ServerMux) (ctx : Ctx) (req : TraceRequest)
    : Result TraceResponse :=
  match trace mux with
  | Some e => Export traceErasure (mux_middlewares mux) e ctx req
  | None => unknownService
  end.

Definition grpc_MetricsExport (mux : ServerMux) (ctx : Ctx)
    (req : MetricsRequest) : Result MetricsResponse :=
  match metrics mux with
  | Some e => Export metricsErasure (mux_middlewares mux) e ctx req
  | None => unknownService
  end.

Definition grpc_LogsExport (mux : ServerMux) (ctx : Ctx) (req : LogsRequest)
    : Result LogsResponse :=
  match logs mux with
  | Some e => Export logsErasure (mux_middlewares mux) e ctx req
  | None => unknownService
  end.

(** *** The HTTP side *)

Variable error_text : error -> string.
Variable status_proto : Status -> option bytes.
Variable status_json : Status -> option bytes.
(** [metadata.NewIncomingContext(r.Context(), md)] *)
Variable NewIncomingContext : Ctx -> Header -> Ctx.
Variable traceCodec : @SignalCodec Ctx TraceRequest TraceResponse.
Variable metricsCodec : @SignalCodec Ctx MetricsRequest MetricsResponse.
Variable logsCodec : @SignalCodec Ctx LogsRequest LogsResponse.

Definition withIncoming (r : @Request Ctx) : @Request Ctx :=
  {| Method := Method r; Path := Path r; Headers := Headers r;
     Context := NewIncomingContext (Context r) (Headers r);
     ReadAll := ReadAll r |}.

(** The reply of ServeHTTP when no pattern matches. *)
Definition notFound (r : @Request Ctx) : Response :=
  let st := New NotFound "no handler registered for path" in
  if String.eqb (Header_Get (Headers r) "Content-Type")
       "application/x-protobuf" then
    errorProto status_proto st
  else if String.eqb (Header_Get (Headers r) "Content-Type")
            "application/json" then
    errorJSON status_json st
  else http_Error (StatusText 404) 404.

(** ServerMux.ServeHTTP. The handler of a route is the entry, whose
    ServeHTTP is its proxy handler around its own Export. *)
Definition ServeHTTP (mux : ServerMux) (r : @Request Ctx) : Outcome :=
  let r := withIncoming r in
  let serve {Req Resp : Type} (codec : @SignalCodec Ctx Req Resp)
            (er : @Erasure Req Resp) (e : @entry Req Resp) : Outcome :=
    proxy_ServeHTTP error_text status_proto status_json codec
      {| handler := Export er (mux_middlewares mux) e |} r in
  if String.eqb (Path r) "/v1/traces" then
    match trace mux with
    | Some e => serve traceCodec traceErasure e
    | None => Responded (notFound r)
    end
  else if String.eqb (Path r) "/v1/metrics" then
    match metrics mux with
    | Some e => serve metricsCodec metricsErasure e
    | None => Responded (notFound r)
    end
  else if String.eqb (Path r) "/v1/logs" then
    match logs mux with
    | Some e => serve logsCodec logsErasure e
    | None => Responded (notFound r)
    end
  else Responded (notFound r).

End ServerMux.

End Mux.

(** ** client.go: channel lifecycle and uploads *)

Module Client.
Import Encoding Grpc.

Inductive Signal : Type := Traces | Metrics | Logs.

(** clientSignalsOptions after [build]: every default is filled in. The
    endpoint URL is kept as the three views the client reads. *)
Record clientSignalsOptions : Type := {
  protocol : string;
  endpoint_Host : string;
  endpoint_Scheme : string;
  endpoint_String : string;
  userAgent : string;
  gzip : bool;
  exportTimeout : Z;
  headers : list (string * string)
}.

Record clientOptions : Type := {
  traces : clientSignalsOptions;
  metrics : clientSignalsOptions;
  logs : clientSignalsOptions
}.

Definition signalOptions (o : clientOptions) (sig : Signal)
    : clientSignalsOptions :=
  match sig with
  | Traces => traces o
  | Metrics => metrics o
  | Logs => logs o
  end.

(** isGRPCProtocol *)
Definition isGRPCProtocol (so : clientSignalsOptions) : bool :=
  String.eqb (protocol so) "grpc".

(** isHTTPProtocol *)
Definition isHTTPProtocol (so : clientSignalsOptions) : bool :=
  String.prefix "http/" (protocol so).

(** httpContentType *)
Definition httpContentType (so : clientSignalsOptions) : string :=
  if negb (isHTTPProtocol so) then ""
  else if String.eqb (protocol so) "http/json" then "application/json"
  else if String.eqb (protocol so) "http/protobuf" then "application/x-protobuf"
  else "".

(** ExportTracePartialSuccess and its two siblings: a rejected count and
    an error message. *)
Record ExportPartialSuccess : Type := {
  Rejected : Z;
  ErrorMessage : string
}.

(** Export{Trace,Metrics,Logs}ServiceResponse *)
Record ExportServiceResponse : Type := {
  PartialSuccess : option ExportPartialSuccess
}.

(** The errors the client returns. *)
Inductive ClientError : Type :=
| ErrAlreadyClosed
| ErrNotStarted
| UploadTracesPartialSuccessError (resp : ExportServiceResponse)
| UploadMetricsPartialSuccessError (resp : ExportServiceResponse)
| UploadLogsPartialSuccessError (resp : ExportServiceResponse)
| Returned (err : error)
| Errorf (msg : string).

Definition PartialSuccessError (sig : Signal) (resp : ExportServiceResponse)
    : ClientError :=
  match sig with
  | Traces => UploadTracesPartialSuccessError resp
  | Metrics => UploadMetricsPartialSuccessError resp
  | Logs => UploadLogsPartialSuccessError resp
  end.

(** The Response method of the three partial-success error types. *)
Definition Response (e : ClientError) : option ExportServiceResponse :=
  match e with
  | UploadTracesPartialSuccessError resp
  | UploadMetricsPartialSuccessError resp
  | UploadLogsPartialSuccessError resp => Some resp
  | _ => None
  end.

Record HTTPRequest : Type := {
  req_URL : string;
  req_ContentType : string;
  req_UserAgent : string;
  req_Headers : list (string * string);
  req_Body : bytes
}.

Record HTTPResponse : Type := {
  resp_StatusCode : nat;
  resp_ContentType : string;
  resp_Body : Server.ReadResult
}.

Section Transport.
(** [*grpc.ClientConn], the caller's [context.Context], and the list
    of resource envelopes of one upload. *)
Context {Conn Ctx Payload : Type}.

(** The digest, printed in hexadecimal, of the bytes written to the
    SHA-512 hasher. *)
Variable sha512_hex : string -> string.
(** [grpc.NewClient(target, dialOptions...)] *)
Variable grpc_NewClient : clientSignalsOptions -> Conn + error.
(** [conn.Close()] *)
Variable conn_Close : Conn -> option error.
(** The Export call of the generated service client: [(resp, err)]. *)
Variable grpc_Export :
  Conn -> Signal -> Ctx -> Payload -> option ExportServiceResponse * option error.
(** Request marshalling, [client.Do], and response decoding. *)
Variable proto_Marshal : Signal -> Payload -> option bytes.
Variable protojson_Marshal : Signal -> Payload -> option bytes.
Variable http_Do : Ctx -> HTTPRequest -> HTTPResponse + error.
Variable proto_Unmarshal : bytes -> option ExportServiceResponse.
Variable protojson_Unmarshal : bytes -> option ExportServiceResponse.

(** buildGRPCConnectionInfo: the target and the connection hash.
    grpcConnectionInfo caches this pair; the options do not change
    after [build], so the cached pair is this one. *)
Definition grpcConnectionInfo (so : clientSignalsOptions) : string * string :=
  let written :=
    endpoint_Host so +:+ userAgent so
    +:+ (if negb (String.eqb (endpoint_Scheme so) "https")
         then "insecure" else "tls")
    +:+ (if gzip so then "gzip" else "") in
  (endpoint_Host so, sha512_hex written).

(** Client. A stop context is recorded by whether it has been
    cancelled; its cancel function is the update to [true]. *)
Record Client : Type := {
  o : clientOptions;
  conns : gmap string (option Conn);
  stopContexts : gmap string bool
}.

(** NewClient, once the options are built. *)
Definition NewClient (opts : clientOptions) : Client :=
  {| o := opts; conns := ∅; stopContexts := ∅ |}.

(** startGRPC *)
Definition startGRPC (c : Client) (so : clientSignalsOptions)
    : Client * option error :=
  let '(target, connHash) := grpcConnectionInfo so in
  match conns c !! connHash with
  | Some _ => (c, None)
  | None =>
      match grpc_NewClient so with
      | inr err => (c, Some err)
      | inl conn =>
          ({| o := o c;
              conns := <[connHash := Some conn]> (conns c);
              stopContexts := <[connHash := false]> (stopContexts c) |},
           None)
      end
  end.

(** Start *)
Definition Start (c : Client) : Client * option ClientError :=
  let step (sig : Signal) (msg : string)
           (k : Client -> Client * option ClientError) (c : Client) :=
    if isGRPCProtocol (signalOptions (o c) sig) then
      match startGRPC c (signalOptions (o c) sig) with
      | (c, Some _) => (c, Some (Errorf msg))
      | (c, None) => k c
      end
    else k c in
  step Traces "start traces gRPC client"
    (step Metrics "start metrics gRPC client"
       (step Logs "start logs gRPC client" (fun c => (c, None)))) c.

(** uploadTracesWithGRPC and its two siblings *)
Definition uploadWithGRPC (sig : Signal) (c : Client) (ctx : Ctx)
    (payload : Payload) : option ClientError :=
  let '(_, connHash) := grpcConnectionInfo (signalOptions (o c) sig) in
  match conns c !! connHash with
  | Some (Some conn) =>
      let '(resp, err) := grpc_Export conn sig ctx payload in
      let inspect :=
        match resp with
        | Some r =>
            match PartialSuccess r with
            | Some _ => Some (PartialSuccessError sig r)
            | None => None
            end
        | None => None
        end in
      match err with
      | Some e =>
          match CodeOf err with
          | OK => inspect
          | _ => Some (Returned e)
          end
      | None => inspect
      end
  | _ => Some ErrNotStarted
  end.

(** The body of an HTTP upload: protobuf for the protobuf content
    type, protojson for anything else. *)
Definition marshalBody (sig : Signal) (so : clientSignalsOptions)
    (payload : Payload) : option bytes :=
  if String.eqb (httpContentType so) "application/x-protobuf"
  then proto_Marshal sig payload
  else protojson_Marshal sig payload.

(** The request of an HTTP upload: a POST to the signal endpoint with
    the content type, the user agent and the signal headers set. *)
Definition httpRequest (so : clientSignalsOptions) (body : bytes)
    : HTTPRequest :=
  {| req_URL := endpoint_String so;
     req_ContentType := httpContentType so;
     req_UserAgent := userAgent so;
     req_Headers := headers so;
     req_Body := body |}.

(** uploadTracesWithHTTP and its two siblings *)
Definition uploadWithHTTP (sig : Signal) (c : Client) (ctx : Ctx)
    (payload : Payload) : option ClientError :=
  let so := signalOptions (o c) sig in
  match marshalBody sig so payload with
  | None => Some (Errorf "failed to marshal body")
  | Some body =>
      match http_Do ctx (httpRequest so body) with
      | inr _ => Some (Errorf "failed to send request")
      | inl resp =>
          if negb (Nat.eqb (resp_StatusCode resp) 200) then
            Some (Errorf "unexpected status code")
          else
            match resp_Body resp with
            | Server.ReadErr _ => Some (Errorf "failed to read response body")
            | Server.ReadOK respBody =>
                let decoded :=
                  if String.eqb (resp_ContentType resp) "application/x-protobuf"
                  then inl (proto_Unmarshal respBody)
                  else if String.eqb (resp_ContentType resp) "application/json"
                  then inl (protojson_Unmarshal respBody)
                  else inr tt in
                match decoded with
                | inr _ => Some (Errorf "unexpected content type")
                | inl None => Some (Errorf "failed to unmarshal response")
                | inl (Some respData) =>
                    match PartialSuccess respData with
                    | Some _ => Some (PartialSuccessError sig respData)
                    | None => None
                    end
                end
            end
      end
  end.

Definition upload (sig : Signal) (c : Client) (ctx : Ctx)
    (payload : Payload) : option ClientError :=
  if isGRPCProtocol (signalOptions (o c) sig)
  then uploadWithGRPC sig c ctx payload
  else uploadWithHTTP sig c ctx payload.

(** UploadTraces *)
Definition UploadTraces := upload Traces.
(** UploadMetrics *)
Definition UploadMetrics := upload Metrics.
(** UploadLogs *)
Definition UploadLogs := upload Logs.

(** Stop, once the write lock is held. [ctx_err] is [ctx.Err()]: when
    the context is done every stop function is called before the lock
    is taken. *)
Definition Stop (c : Client) (ctx_err : option error)
    : Client * option ClientError :=
  let c :=
    match ctx_err with
    | Some _ =>
        {| o := o c; conns := conns c;
           stopContexts := (fun _ => true) <$> stopContexts c |}
    | None => c
    end in
  if Nat.eqb (size (conns c)) 0 then (c, Some ErrAlreadyClosed)
  else
    let closeErrs :=
      omap (fun kv => match snd kv with
                      | Some conn => conn_Close conn
                      | None => None
                      end) (map_to_list (conns c)) in
    let err :=
      match ctx_err with
      | Some e => Some (Returned e)
      | None =>
          match closeErrs with
          | [] => None
          | [e] => Some (Returned e)
          | _ => Some (Returned (JoinedError closeErrs))
          end
      end in
    ({| o := o c; conns := ∅; stopContexts := ∅ |}, err).

End Transport.

End Client.

(** ** A small instance of the server parameters

    Contexts are the list of marks the middlewares have left, a request is
    the number of bytes of its body, a response is the number of items it
    acknowledges, and the codecs always succeed on a body that is not
    empty. *)

Module ServerFixture.
Import Encoding Grpc Server Mux.

Definition Ctx : Type := list string.
Definition Req : Type := nat.
Definition Resp : Type := nat.

Definition error_text (e : error) : string :=
  match e with
  | StatusError st => st_Message st
  | PlainError msg => msg
  | JoinedError _ => "joined"
  end.

Definition status_proto (st : Status) : option bytes :=
  Some (list_byte_of_string (st_Message st)).
Definition status_json (st : Status) : option bytes :=
  Some (list_byte_of_string (st_Message st)).

Definition NewIncomingContext (ctx : Ctx) (_ : Header) : Ctx := ctx.

Definition codec : @SignalCodec Ctx Req Resp :=
  {| newRequestFunc := fun _ => 0;
     proto_decode := fun body _ => Some (List.length body);
     json_decode := fun body _ => Some (List.length body);
     proto_Marshal := fun resp => Some (List.repeat Byte.x01 resp);
     json_Marshal := fun resp => Some (List.repeat Byte.x01 resp) |}.

Definition ServerMux : Type :=
  @Mux.ServerMux Ctx Req Resp Req Resp Req Resp unit.

Definition ServeHTTP : ServerMux -> @Request Ctx -> Outcome :=
  Mux.ServeHTTP error_text status_proto status_json NewIncomingContext
    codec codec codec.

Definition post (path contentType : string) (body : bytes) : @Request Ctx :=
  {| Method := "POST"; Path := path;
     Headers := [("Content-Type", [contentType])];
     Context := []; ReadAll := ReadOK body |}.

(** A handler that answers with the size of the request it was given. *)
Definition echo : @Handler Ctx Req Resp := fun _ req => Ok req.

(** [mux.Trace()] and nothing else: the route exists, no handler does. *)
Definition routeOnly : ServerMux := fst (Trace NewServerMux).

End ServerFixture.

(** ** A small instance of the client parameters

    A connection is a number, the collector accepts everything and still
    sends an empty partial-success message back, as some collectors do. *)

Module ClientFixture.
Import Encoding Grpc Client.

Definition emptyPartialSuccess : ExportServiceResponse :=
  {| PartialSuccess := Some {| Rejected := 0; ErrorMessage := "" |} |}.

Definition sha512_hex (written : string) : string := written.
Definition grpc_NewClient (_ : clientSignalsOptions) : nat + error := inl 1.
Definition conn_Close (_ : nat) : option error := None.
Definition grpc_Export (_ : nat) (_ : Signal) (_ : unit) (_ : nat)
    : option ExportServiceResponse * option error :=
  (Some emptyPartialSuccess, None).
Definition proto_Marshal (_ : Signal) (n : nat) : option bytes :=
  Some (List.repeat Byte.x01 n).
Definition protojson_Marshal (_ : Signal) (n : nat) : option bytes :=
  Some (List.repeat Byte.x01 n).
Definition http_Do (_ : unit) (req : HTTPRequest) : HTTPResponse + error :=
  inl {| resp_StatusCode := 200;
         resp_ContentType := req_ContentType req;
         resp_Body := Server.ReadOK [Byte.x7b; Byte.x7d] |}.
Definition proto_Unmarshal (_ : bytes) : option ExportServiceResponse :=
  Some emptyPartialSuccess.
Definition protojson_Unmarshal (_ : bytes) : option ExportServiceResponse :=
  Some emptyPartialSuccess.

Definition signal (proto : string) : clientSignalsOptions :=
  {| protocol := proto;
     endpoint_Host := "localhost:4317";
     endpoint_Scheme := "http";
     endpoint_String := "http://localhost:4317";
     userAgent := "test";
     gzip := false;
     exportTimeout := 0;
     headers := [("Api-Key", "dummy")] |}.

Definition grpcOptions : clientOptions :=
  {| traces := signal "grpc"; metrics := signal "grpc"; logs := signal "grpc" |}.

Definition httpOptions : clientOptions :=
  {| traces := signal "http/json"; metrics := signal "http/protobuf";
     logs := signal "http/json" |}.

Definition Client : Type := @Client.Client nat.
Definition NewClient : clientOptions -> Client := Client.NewClient.
Definition Start : Client -> Client * option ClientError :=
  Client.Start sha512_hex grpc_NewClient.
Definition Stop : Client -> option error -> Client * option ClientError :=
  Client.Stop conn_Close.
Definition upload : Signal -> Client -> unit -> nat -> option ClientError :=
  Client.upload sha512_hex grpc_Export proto_Marshal protojson_Marshal
    http_Do proto_Unmarshal protojson_Unmarshal.

End ClientFixture.

(** ** A small instance of the signal containers

    Resources and scopes are their names, a span is its number. *)

Module SignalFixture.
Import Signal.

Definition ResourceSpans : Type := @Signal.ResourceSpans string string nat.

(** One resource, one scope, two spans. *)
Definition twoSpans : list (option ResourceSpans) :=
  [Some {| rs_Resource := Some "my.service";
           rs_ScopeSpans :=
             [Some {| ss_Scope := Some "my.library";
                      ss_Spans := [Some 1; Some 2];
                      ss_SchemaUrl := "" |}];
           rs_SchemaUrl := "" |}].

Definition sameName (a b : option string) : bool :=
  match a, b with
  | Some x, Some y => String.eqb x y
  | None, None => true
  | _, _ => false
  end.

(** A key function that sends every tree to the same hour. *)
Definition sameHour (_ : option ResourceSpans) : string := "2018/12/13/23".

Definition evenSpan (_ _ : option string) (sp : option nat) : bool :=
  match sp with Some n => Nat.even n | None => false end.

End SignalFixture.

(** ** partition.go: the predefined key functions and time-range filters *)

Module Selectors.
Import Signal.

(** [int64(x)] on a [uint64]: the same sixty-four bits read as a signed
    number. *)
Definition int64 (x : Z) : Z :=
  ((x + 2 ^ 63) mod 2 ^ 64 - 2 ^ 63)%Z.

(** A [time.Time] without a monotonic reading is the instant it names,
    counted in nanoseconds from the Unix epoch. *)
Definition Time : Type := Z.

(** [time.Unix(sec, nsec)] *)
Definition time_Unix (sec nsec : Z) : Time := (sec * 1000000000 + nsec)%Z.

(** [t.After(u)] and [t.Before(u)] *)
Definition After (t u : Time) : bool := (u <? t)%Z.
Definition Before (t u : Time) : bool := (t <? u)%Z.

Section KeyFunctions.
Context {Resource InstrumentationScope KeyValue : Type}.
Context {Span LogRecord : Type}.
Context {NumberDataPoint SummaryDataPoint HistogramDataPoint
         ExponentialHistogramDataPoint : Type}.

(** The generated getters of the leaf messages; each accepts a nil
    receiver. A [fixed64] field is the number it holds. *)
Variable span_GetStartTimeUnixNano : option Span -> Z.
Variable span_GetEndTimeUnixNano : option Span -> Z.
Variable log_GetTimeUnixNano : option LogRecord -> Z.
Variable log_GetSeverityText : option LogRecord -> string.
Variable number_GetTimeUnixNano : option NumberDataPoint -> Z.
Variable summary_GetTimeUnixNano : option SummaryDataPoint -> Z.
Variable histogram_GetTimeUnixNano : option HistogramDataPoint -> Z.
Variable exponential_GetTimeUnixNano :
  option ExponentialHistogramDataPoint -> Z.

(** SpanInTimeRangeFilter *)
Definition SpanInTimeRangeFilter (start end_ : Time)
    : option Resource -> option InstrumentationScope -> option Span -> bool :=
  fun _ _ span =>
    let spanStart := time_Unix 0 (int64 (span_GetStartTimeUnixNano span)) in
    let spanEnd := time_Unix 0 (int64 (span_GetEndTimeUnixNano span)) in
    After spanStart start && Before spanEnd end_.

(** LogRecordInTimeRangeFilter *)
Definition LogRecordInTimeRangeFilter (start end_ : Time)
    : option Resource -> option InstrumentationScope -> option LogRecord -> bool :=
  fun _ _ logRecord =>
    let t := time_Unix 0 (int64 (log_GetTimeUnixNano logRecord)) in
    After t start && Before t end_.

(** The loop every case of MetricDataPointInTimeRangeFilter runs over the
    data points of its shape: the first point inside the range ends it
    with [true]. *)
Definition anyPointInRange {P : Type} (GetTimeUnixNano : option P -> Z)
    (start end_ : Time) (dataPoints : list (option P)) : bool :=
  existsb (fun elemDataPoint =>
    let t := time_Unix 0 (int64 (GetTimeUnixNano elemDataPoint)) in
    After t start && Before t end_) dataPoints.

(** MetricDataPointInTimeRangeFilter *)
Definition MetricDataPointInTimeRangeFilter (start end_ : Time)
    : option Resource -> option InstrumentationScope ->
      option (@Metric KeyValue NumberDataPoint SummaryDataPoint
                HistogramDataPoint ExponentialHistogramDataPoint) -> bool :=
  fun _ _ metric =>
    match m_GetData metric with
    | Some (Metric_Gauge g) =>
        anyPointInRange number_GetTimeUnixNano start end_
          (gauge_GetDataPoints g)
    | Some (Metric_Sum s) =>
        anyPointInRange number_GetTimeUnixNano start end_
          (sum_GetDataPoints s)
    | Some (Metric_Summary s) =>
        anyPointInRange summary_GetTimeUnixNano start end_
          (summary_GetDataPoints s)
    | Some (Metric_Histogram h) =>
        anyPointInRange histogram_GetTimeUnixNano start end_
          (histogram_GetDataPoints h)
    | Some (Metric_ExponentialHistogram e) =>
        anyPointInRange exponential_GetTimeUnixNano start end_
          (exponential_GetDataPoints e)
    | None => false
    end.

(** PartitionByMetricType *)
Definition PartitionByMetricType
    (rmetrics : option (@ResourceMetrics Resource InstrumentationScope
                          KeyValue NumberDataPoint SummaryDataPoint
                          HistogramDataPoint ExponentialHistogramDataPoint))
    : string :=
  match rm_GetScopeMetrics rmetrics with
  | [] => ""
  | scopeMetrics0 :: _ =>
      match sm_GetMetrics scopeMetrics0 with
      | [] => ""
      | metrics0 :: _ =>
          match m_GetData metrics0 with
          | Some (Metric_Gauge _) => "Gauge"
          | Some (Metric_Sum _) => "Sum"
          | Some (Metric_Summary _) => "Summary"
          | Some (Metric_Histogram _) => "Histogram"
          | Some (Metric_ExponentialHistogram _) => "ExponentialHistogram"
          | None => ""
          end
      end
  end.

(** PartitionByLogSeverityNumber *)
Definition PartitionByLogSeverityNumber
    (rlogs : option (@ResourceLogs Resource InstrumentationScope LogRecord))
    : string :=
  match rl_GetScopeLogs rlogs with
  | [] => ""
  | scopeLogs0 :: _ =>
      match sl_GetLogRecords scopeLogs0 with
      | [] => ""
      | logRecords0 :: _ => log_GetSeverityText logRecords0
      end
  end.

(** PartitionByLogSeverityText *)
Definition PartitionByLogSeverityText
    (rlogs : option (@ResourceLogs Resource InstrumentationScope LogRecord))
    : string :=
  match rl_GetScopeLogs rlogs with
  | [] => ""
  | scopeLogs0 :: _ =>
      match sl_GetLogRecords scopeLogs0 with
      | [] => ""
      | logRecords0 :: _ => log_GetSeverityText logRecords0
      end
  end.

End KeyFunctions.

(** The five names PartitionByMetricType can return for a metric that
    carries data. *)
Definition metricTypeNames : list string :=
  ["Gauge"; "Sum"; "Summary"; "Histogram"; "ExponentialHistogram"].

End Selectors.

(** ** What it takes for a request to reach the handler of the bridge

    This definition does not come from proxy.go; it names the requests
    the bridge hands to its handler, so that the replies to all the
    others can be stated. *)

Module BridgeSpec.
Import Encoding Grpc Server.

Section Bridge.
Context {Ctx Req Resp : Type}.
Variable codec : @SignalCodec Ctx Req Resp.

(** The request reaches the handler with [req]: it is a POST of one of
    the two content types whose body was read and decoded to [req]. *)
Definition reaches (r : @Request Ctx) (req : Req) : Prop :=
  Method r = "POST"
  /\ exists body, ReadAll r = ReadOK body
     /\ (Header_Get (Headers r) "Content-Type" = "application/x-protobuf"
         /\ proto_Unmarshal codec body (newRequestFunc codec (Context r))
            = Some req
         \/ Header_Get (Headers r) "Content-Type" = "application/json"
            /\ protojson_Unmarshal codec body (newRequestFunc codec (Context r))
               = Some req).

End Bridge.
End BridgeSpec.

(** ** client_options.go: defaults, validation and header parsing *)

Module Options.

(** The errors of option handling, each with what its message shows. *)
Inductive OptionError : Type :=
| ProtocolNotAllowed (protocol : string)
| EndpointRequired (signalType : string)
| HeaderInvalid (part : string).

(** What a call can end in: its result, a returned error, or the panic
    of a method that reads through a nil pointer. *)
Inductive Outcome (A : Type) : Type :=
| Done (a : A)
| Refused (err : OptionError)
| NilDereference.
Arguments Done {A} a.
Arguments Refused {A} err.
Arguments NilDereference {A}.

(** allowedProtocols *)
Definition allowedProtocols : list string :=
  ["grpc"; "http/json"; "http/protobuf"].

(** [slices.Contains] on strings. *)
Definition slices_Contains (l : list string) (s : string) : bool :=
  existsb (String.eqb s) l.

(** [strings.Split(s, sep)] for a separator of one character: the
    pieces between the separators, the empty ones included; a string
    without the separator is its own single piece. *)
Fixpoint strings_Split (sep : ascii) (s : string) : list string :=
  match s with
  | EmptyString => [EmptyString]
  | String c r =>
      if Ascii.eqb c sep then EmptyString :: strings_Split sep r
      else
        match strings_Split sep r with
        | first :: rest => String c first :: rest
        | [] => [String c EmptyString]
        end
  end.

(** The text before and after the first separator, when there is one. *)
Fixpoint cutFirst (sep : ascii) (s : string) : option (string * string) :=
  match s with
  | EmptyString => None
  | String c r =>
      if Ascii.eqb c sep then Some (EmptyString, r)
      else
        match cutFirst sep r with
        | Some (before, after) => Some (String c before, after)
        | None => None
        end
  end.

(** [strings.SplitN(s, sep, 2)] for a separator of one character. *)
Definition strings_SplitN2 (sep : ascii) (s : string) : list string :=
  match cutFirst sep s with
  | Some (before, after) => [before; after]
  | None => [s]
  end.

(** parseHeadersString *)
Definition parseHeadersString (headers : string)
    : gmap string string + OptionError :=
  let parts := strings_Split "," headers in
  fold_left (fun (acc : gmap string string + OptionError) part =>
    match acc with
    | inr err => inr err
    | inl h =>
        match strings_SplitN2 "=" part with
        | [k; v] => inl (<[k := v]> h)
        | _ => inr (HeaderInvalid part)
        end
    end) parts (inl ∅).

(** The header list a string of the form [key1=value1,key2=value2]
    stands for; this is what parseHeadersString is compared with, it is
    not taken from client_options.go. *)
Fixpoint headersString (kvs : list (string * string)) : string :=
  match kvs with
  | [] => ""
  | [(k, v)] => k +:+ "=" +:+ v
  | (k, v) :: rest => k +:+ "=" +:+ v +:+ "," +:+ headersString rest
  end.

(** Whether a character occurs in a string. *)
Fixpoint occurs (c : ascii) (s : string) : bool :=
  match s with
  | EmptyString => false
  | String d r => Ascii.eqb d c || occurs c r
  end.

Section Build.
(** [*url.URL] and [*http.Client] behind their pointers. *)
Context {URL HTTPClient : Type}.
(** [u.JoinPath(elem)] on a receiver that is not nil. *)
Variable JoinPath : URL -> string -> URL.
(** The text [fmt.Sprintf] makes of the library version and
    [runtime.Version()]. *)
Variable defaultUserAgent : string.
(** [http.DefaultClient] *)
Variable DefaultClient : HTTPClient.

(** clientSignalsOptions, as the option functions and [build] see it:
    every field may still be unset. The cache of the connection
    fingerprint and the mutex that guards it are left out; [build] does
    not touch them. *)
Record clientSignalsOptions : Type := {
  so_gzip : option bool;
  so_userAgent : string;
  so_signalType : string;
  so_endpoint : option URL;
  so_protocol : string;
  so_exportTimeout : Z;
  so_headers : option (gmap string string);
  so_httpClient : option HTTPClient
}.

(** clientOptions; the logger is left out. *)
Record clientOptions : Type := {
  endpoint : option URL;
  protocol : string;
  userAgent : string;
  headers : option (gmap string string);
  gzip : option bool;
  exportTimeout : Z;
  httpClient : option HTTPClient;
  traces : clientSignalsOptions;
  metrics : clientSignalsOptions;
  logs : clientSignalsOptions
}.

(** Reading a Go map that may be nil. *)
Definition entries (h : option (gmap string string)) : gmap string string :=
  default ∅ h.

(** The last loop of fillDefaults: every base header whose key the
    signal does not have yet is copied to the signal. *)
Definition copyMissing (own base : gmap string string)
    : gmap string string :=
  map_fold (fun key value (own : gmap string string) =>
              match own !! key with
              | Some _ => own
              | None => <[key := value]> own
              end) own base.

(** fillDefaults. With an HTTP-family protocol and no endpoint of its
    own the signal joins its path to the base endpoint; JoinPath reads
    the escaped path of its receiver first, so a base endpoint that is
    nil is a nil dereference there. *)
Definition fillDefaults (so : clientSignalsOptions) (o : clientOptions)
    : Outcome clientSignalsOptions :=
  let userAgent' :=
    if String.eqb (so_userAgent so) "" then userAgent o
    else so_userAgent so in
  let protocol' :=
    if String.eqb (so_protocol so) "" then protocol o else so_protocol so in
  if negb (slices_Contains allowedProtocols protocol') then
    Refused (ProtocolNotAllowed protocol')
  else
    let gzip' := match so_gzip so with None => gzip o | Some g => Some g end in
    let exportTimeout' :=
      if Z.eqb (so_exportTimeout so) 0 then exportTimeout o
      else so_exportTimeout so in
    let httpClient' :=
      match so_httpClient so with
      | None => httpClient o
      | Some client => Some client
      end in
    let rest (endpoint' : option URL) : Outcome clientSignalsOptions :=
      match endpoint' with
      | None => Refused (EndpointRequired (so_signalType so))
      | Some u =>
          Done {| so_gzip := gzip';
                  so_userAgent := userAgent';
                  so_signalType := so_signalType so;
                  so_endpoint := Some u;
                  so_protocol := protocol';
                  so_exportTimeout := exportTimeout';
                  so_headers :=
                    Some (copyMissing (entries (so_headers so))
                            (entries (headers o)));
                  so_httpClient := httpClient' |}
      end in
    match so_endpoint so with
    | Some u => rest (Some u)
    | None =>
        if String.prefix "http/" protocol' then
          match endpoint o with
          | None => NilDereference
          | Some base => rest (Some (JoinPath base ("v1/" +:+ so_signalType so)))
          end
        else rest (endpoint o)
    end.

Definition withSignalType (so : clientSignalsOptions) (signalType : string)
    : clientSignalsOptions :=
  {| so_gzip := so_gzip so; so_userAgent := so_userAgent so;
     so_signalType := signalType; so_endpoint := so_endpoint so;
     so_protocol := so_protocol so; so_exportTimeout := so_exportTimeout so;
     so_headers := so_headers so; so_httpClient := so_httpClient so |}.

Definition withSignals (o : clientOptions)
    (t m l : clientSignalsOptions) : clientOptions :=
  {| endpoint := endpoint o; protocol := protocol o;
     userAgent := userAgent o; headers := headers o; gzip := gzip o;
     exportTimeout := exportTimeout o; httpClient := httpClient o;
     traces := t; metrics := m; logs := l |}.

(** The first half of build: the defaults of the shared options. *)
Definition sharedDefaults (o : clientOptions) : clientOptions :=
  {| endpoint := endpoint o;
     protocol := if String.eqb (protocol o) "" then "grpc" else protocol o;
     userAgent :=
       if String.eqb (userAgent o) "" then defaultUserAgent else userAgent o;
     headers := headers o;
     gzip := match gzip o with None => Some false | Some g => Some g end;
     exportTimeout := exportTimeout o;
     httpClient :=
       match httpClient o with
       | None => Some DefaultClient
       | Some client => Some client
       end;
     traces := traces o; metrics := metrics o; logs := logs o |}.

(** build *)
Definition build (o : clientOptions) : Outcome clientOptions :=
  let o := sharedDefaults o in
  let o := withSignals o (withSignalType (traces o) "traces")
             (metrics o) (logs o) in
  match fillDefaults (traces o) o with
  | Refused err => Refused err
  | NilDereference => NilDereference
  | Done t =>
      let o := withSignals o t (withSignalType (metrics o) "metrics")
                 (logs o) in
      match fillDefaults (metrics o) o with
      | Refused err => Refused err
      | NilDereference => NilDereference
      | Done m =>
          let o := withSignals o (traces o) m
                     (withSignalType (logs o) "logs") in
          match fillDefaults (logs o) o with
          | Refused err => Refused err
          | NilDereference => NilDereference
          | Done l => Done (withSignals o (traces o) (metrics o) l)
          end
      end
  end.

(** ClientOption *)
Definition ClientOption : Type := clientOptions -> Outcome clientOptions.

(** clientOptions.apply *)
Fixpoint apply_options (o : clientOptions) (opts : list ClientOption)
    : Outcome clientOptions :=
  match opts with
  | [] => build o
  | opt :: rest =>
      match opt o with
      | Done o => apply_options o rest
      | Refused err => Refused err
      | NilDereference => NilDereference
      end
  end.

Definition setHeaders (so : clientSignalsOptions)
    (h : option (gmap string string)) : clientSignalsOptions :=
  {| so_gzip := so_gzip so; so_userAgent := so_userAgent so;
     so_signalType := so_signalType so; so_endpoint := so_endpoint so;
     so_protocol := so_protocol so; so_exportTimeout := so_exportTimeout so;
     so_headers := h; so_httpClient := so_httpClient so |}.

(** WithHeaders *)
Definition WithHeaders (h : option (gmap string string)) : ClientOption :=
  fun o =>
    Done {| endpoint := endpoint o; protocol := protocol o;
            userAgent := userAgent o; headers := h; gzip := gzip o;
            exportTimeout := exportTimeout o; httpClient := httpClient o;
            traces := traces o; metrics := metrics o; logs := logs o |}.

(** WithTracesHeaders *)
Definition WithTracesHeaders (h : option (gmap string string))
    : ClientOption :=
  fun o => Done (withSignals o (setHeaders (traces o) h) (metrics o) (logs o)).

(** WithMetricsHeaders *)
Definition WithMetricsHeaders (h : option (gmap string string))
    : ClientOption :=
  fun o => Done (withSignals o (traces o) (setHeaders (metrics o) h) (logs o)).

(** WithLogsHeaders *)
Definition WithLogsHeaders (h : option (gmap string string))
    : ClientOption :=
  fun o => Done (withSignals o (traces o) (metrics o) (setHeaders (logs o) h)).

(** WithHeadersString and its three siblings. *)
Definition fromHeadersString
    (setter : option (gmap string string) -> ClientOption)
    (headers : string) : ClientOption :=
  fun o =>
    match parseHeadersString headers with
    | inr err => Refused err
    | inl h => setter (Some h) o
    end.

Definition WithHeadersString := fromHeadersString WithHeaders.
Definition WithTracesHeadersString := fromHeadersString WithTracesHeaders.
Definition WithMetricsHeadersString := fromHeadersString WithMetricsHeaders.
Definition WithLogsHeadersString := fromHeadersString WithLogsHeaders.

(** The signals of a [clientOptions], by name. *)
Definition signals (o : clientOptions)
    : list (string * clientSignalsOptions) :=
  [("traces", traces o); ("metrics", metrics o); ("logs", logs o)].

End Build.

End Options.

(** ** A small instance of the option parameters

    A URL is its text, joining a path puts a slash between the two, and
    the HTTP client carries nothing. *)

Module OptionsFixture.
Import Options.

Definition URL : Type := string.
Definition HTTPClient : Type := unit.

Definition JoinPath (u : URL) (elem : string) : URL := u +:+ "/" +:+ elem.
Definition defaultUserAgent : string := "go-otlp-helper/test".

Definition clientSignalsOptions : Type :=
  @Options.clientSignalsOptions URL HTTPClient.
Definition clientOptions : Type := @Options.clientOptions URL HTTPClient.

Definition build : clientOptions -> Outcome clientOptions :=
  Options.build JoinPath defaultUserAgent tt.

(** The zero value of clientSignalsOptions. *)
Definition unset : clientSignalsOptions :=
  {| so_gzip := None; so_userAgent := ""; so_signalType := "";
     so_endpoint := None; so_protocol := ""; so_exportTimeout := 0;
     so_headers := None; so_httpClient := None |}.

(** The options NewClient starts from: the endpoint and nothing else. *)
Definition initial (endpoint : option URL) : clientOptions :=
  {| endpoint := endpoint; protocol := ""; userAgent := "";
     headers := None; gzip := None; exportTimeout := 0; httpClient := None;
     traces := unset; metrics := unset; logs := unset |}.

Definition setProtocol (o : clientOptions) (p : string) : clientOptions :=
  {| endpoint := endpoint o; protocol := p; userAgent := userAgent o;
     headers := headers o; gzip := gzip o; exportTimeout := exportTimeout o;
     httpClient := httpClient o;
     traces := traces o; metrics := metrics o; logs := logs o |}.

(** The options of a JSON-over-HTTP client once the two header strings
    [Hoge=fuga] (shared) and [Api-Key=dummyTraces,Hoge=tora] (logs) have
    been applied. *)
Definition withHeaderStrings : clientOptions :=
  let o := setProtocol (initial (Some "http://localhost:4318")) "http/json" in
  match WithHeadersString "Hoge=fuga" o with
  | Done o =>
      match WithLogsHeadersString "Api-Key=dummyTraces,Hoge=tora" o with
      | Done o => o
      | _ => o
      end
  | _ => o
  end.

(** What NewClient holds for that client: the two options applied in
    order, then [build]. *)
Definition built : clientOptions :=
  match apply_options JoinPath defaultUserAgent tt
          (setProtocol (initial (Some "http://localhost:4318")) "http/json")
          [WithHeadersString "Hoge=fuga";
           WithLogsHeadersString "Api-Key=dummyTraces,Hoge=tora"] with
  | Done o => o
  | _ => withHeaderStrings
  end.

End OptionsFixture.

(** ** A collector that accepts everything

    The client parameters of [ClientFixture], with a collector that
    answers every export with an empty response, and options whose logs
    signal asks for gzip. *)

Module QuietCollector.
Import Encoding Grpc Client.

Definition accepted : ExportServiceResponse := {| PartialSuccess := None |}.

Definition proto_Unmarshal (_ : bytes) : option ExportServiceResponse :=
  Some accepted.
Definition protojson_Unmarshal (_ : bytes) : option ExportServiceResponse :=
  Some accepted.

Definition upload : Signal -> ClientFixture.Client -> unit -> nat
                    -> option ClientError :=
  Client.upload ClientFixture.sha512_hex ClientFixture.grpc_Export
    ClientFixture.proto_Marshal ClientFixture.protojson_Marshal
    ClientFixture.http_Do proto_Unmarshal protojson_Unmarshal.

(** Traces and metrics share every part of the fingerprint; logs are
    compressed. *)
Definition logsCompressed : clientOptions :=
  {| traces := ClientFixture.signal "grpc";
     metrics := ClientFixture.signal "grpc";
     logs := {| protocol := "grpc";
                endpoint_Host := "localhost:4317";
                endpoint_Scheme := "http";
                endpoint_String := "http://localhost:4317";
                userAgent := "test";
                gzip := true;
                exportTimeout := 0;
                headers := [] |} |}.

(** A client with the HTTP options whose connection table is not empty. *)
Definition httpClientWithChannel : ClientFixture.Client :=
  {| o := ClientFixture.httpOptions;
     conns := {[ "left-over" := Some 7 ]};
     stopContexts := {[ "left-over" := false ]} |}.

End QuietCollector.

(** ** Facts about the codec *)

Module CodecFacts.
Import Encoding Codec.

Lemma keyIsTraceIDOrSpanID_cases (k : string) :
  keyIsTraceIDOrSpanID k = (16, 24, true)
  \/ keyIsTraceIDOrSpanID k = (8, 12, true)
  \/ keyIsTraceIDOrSpanID k = (0, 0, false).
Proof.
  unfold keyIsTraceIDOrSpanID.
  destruct (Contains _ "traceid"); [now left |].
  destruct (Contains _ "spanid"); [right; now left | right; now right].
Qed.

Lemma length_ToUpper (s : string) : String.length (ToUpper s) = String.length s.
Proof. induction s as [| c r IH]; simpl; [reflexivity | now rewrite IH]. Qed.

Lemma length_hex_encode (bs : bytes) :
  String.length (hex_encode bs) = 2 * List.length bs.
Proof. induction bs as [| b r IH]; simpl; [reflexivity | rewrite IH; lia]. Qed.

(** The loop body of the encoder hands back the value it was given
    whenever the recursive call does: a decoded identifier of
    [base64Bytes] bytes has [2 * base64Bytes] hexadecimal digits, never
    [hexBytes]. *)
Lemma base64ToHexEntry_keeps (rec : json -> logged json) (k : string) (v : json) :
  fst (rec v) = v -> fst (base64ToHexEntry rec k v) = v.
Proof.
  intros Hrec. unfold base64ToHexEntry.
  destruct (keyIsTraceIDOrSpanID_cases k) as [E | [E | E]]; rewrite E.
  - destruct v as [| b | lit | s | l | m];
      try (destruct (rec _) as [v' w]; exact Hrec).
    destruct (base64_decode s) as [bs |]; [| reflexivity].
    destruct (Nat.eqb (List.length bs) 24) eqn:L; [| reflexivity].
    apply Nat.eqb_eq in L. simpl negb. cbv iota.
    rewrite length_ToUpper, length_hex_encode, L. reflexivity.
  - destruct v as [| b | lit | s | l | m];
      try (destruct (rec _) as [v' w]; exact Hrec).
    destruct (base64_decode s) as [bs |]; [| reflexivity].
    destruct (Nat.eqb (List.length bs) 12) eqn:L; [| reflexivity].
    apply Nat.eqb_eq in L. simpl negb. cbv iota.
    rewrite length_ToUpper, length_hex_encode, L. reflexivity.
  - exact Hrec.
Qed.

Lemma map_fst_keeps {A : Type} (f : A -> logged A) (l : list A) :
  Forall (fun x => fst (f x) = x) l -> List.map fst (List.map f l) = l.
Proof.
  induction 1 as [| x r Hx _ IH]; simpl; [reflexivity | now rewrite Hx, IH].
Qed.

(** The encoder never rewrites a tree. *)
Lemma base64ToHex_never_converts (t : json) :
  fst (convertTraceIDAndSpanIDBase64ToHexForAny t) = t.
Proof.
  induction t as [| b | lit | s | l IH | m IH] using json_nested_ind;
    try reflexivity.
  - simpl. f_equal. apply map_fst_keeps. exact IH.
  - simpl. f_equal.
    rewrite (map_fst_keeps (fun kv => keyed (fst kv)
               (base64ToHexEntry convertTraceIDAndSpanIDBase64ToHexForAny
                  (fst kv) (snd kv)))); [reflexivity |].
    eapply Forall_impl; [exact IH |].
    intros [k v] Hv. simpl in *. f_equal. now apply base64ToHexEntry_keeps.
Qed.

(** *** Padded base64 text is not hexadecimal *)

Lemma fromHexChar_pad : fromHexChar pad = None.
Proof. reflexivity. Qed.

Lemma hex_decode_pad_aux (n : nat) :
  forall s, String.length s <= n -> In pad (chars s) -> hex_decode s = None.
Proof.
  induction n as [| n IH]; intros s Hlen Hin.
  - destruct s; [destruct Hin | simpl in Hlen; lia].
  - destruct s as [| p [| q r]]; simpl in *.
    + destruct Hin.
    + reflexivity.
    + destruct Hin as [-> | [-> | Hin]].
      * now rewrite fromHexChar_pad.
      * rewrite fromHexChar_pad. now destruct (fromHexChar p).
      * rewrite (IH r); [| lia | exact Hin].
        now destruct (fromHexChar p), (fromHexChar q).
Qed.

Lemma hex_decode_pad (s : string) : In pad (chars s) -> hex_decode s = None.
Proof. apply (hex_decode_pad_aux (String.length s)). lia. Qed.

Lemma base64_encode_pad_aux (n : nat) :
  forall bs : bytes, List.length bs <= n -> List.length bs mod 3 <> 0 ->
    In pad (chars (base64_encode bs)).
Proof.
  induction n as [| n IH]; intros bs Hlen Hmod.
  - destruct bs; [now elim Hmod | simpl in Hlen; lia].
  - destruct bs as [| a [| b [| c r]]].
    + now elim Hmod.
    + simpl. right. right. now left.
    + simpl. right. right. right. now left.
    + change (base64_encode (a :: b :: c :: r)) with
        (String (b64_digit (N.land (N.shiftr (N.lor (N.lor (N.shiftl (Byte.to_N a) 16)
                            (N.shiftl (Byte.to_N b) 8)) (Byte.to_N c)) 18) 63))
        (String (b64_digit (N.land (N.shiftr (N.lor (N.lor (N.shiftl (Byte.to_N a) 16)
                            (N.shiftl (Byte.to_N b) 8)) (Byte.to_N c)) 12) 63))
           (String (b64_digit (N.land (N.shiftr (N.lor (N.lor (N.shiftl (Byte.to_N a) 16)
                            (N.shiftl (Byte.to_N b) 8)) (Byte.to_N c)) 6) 63))
              (String (b64_digit (N.land (N.lor (N.lor (N.shiftl (Byte.to_N a) 16)
                            (N.shiftl (Byte.to_N b) 8)) (Byte.to_N c)) 63)) (base64_encode r))))).
      cbn [chars list_ascii_of_string In]. do 4 right.
      apply IH; [simpl in Hlen; lia |].
      change (List.length (a :: b :: c :: r)) with (3 + List.length r) in Hmod.
      intros E. apply Hmod.
      rewrite <- Nat.Div0.add_mod_idemp_r, E. reflexivity.
Qed.

Lemma base64_encode_pad (bs : bytes) :
  List.length bs mod 3 <> 0 -> In pad (chars (base64_encode bs)).
Proof. apply (base64_encode_pad_aux (List.length bs)). lia. Qed.

Lemma canonical_id_not_hex (n : nat) (s : string) :
  n mod 3 <> 0 -> canonical_id n s = true -> hex_decode s = None.
Proof.
  unfold canonical_id. intros Hn H.
  destruct (base64_decode s) as [bs |]; [| discriminate].
  apply andb_true_iff in H as [L E].
  apply Nat.eqb_eq in L. apply String.eqb_eq in E. subst.
  apply hex_decode_pad. now apply base64_encode_pad.
Qed.

Lemma hexToBase64Entry_keeps (rec : json -> logged json) (k : string) (v : json) :
  fst (rec v) = v ->
  match idSize k, v with
  | Some n, JString s => canonical_id n s = true
  | _, _ => True
  end ->
  fst (hexToBase64Entry rec k v) = v.
Proof.
  intros Hrec Hid. unfold hexToBase64Entry, idSize in *.
  destruct (keyIsTraceIDOrSpanID_cases k) as [E | [E | E]]; rewrite E in *.
  - destruct v as [| b | lit | s | l | m];
      try (destruct (rec _) as [v' w]; exact Hrec).
    rewrite (canonical_id_not_hex 16 s); [reflexivity | discriminate | exact Hid].
  - destruct v as [| b | lit | s | l | m];
      try (destruct (rec _) as [v' w]; exact Hrec).
    rewrite (canonical_id_not_hex 8 s); [reflexivity | discriminate | exact Hid].
  - exact Hrec.
Qed.

(** The decoder leaves a tree alone when its identifiers respect the
    length rule. *)
Lemma hexToBase64_keeps_canonical (t : json) :
  ids_canonical t = true ->
  fst (convertTraceIDAndSpanIDHexToBase64ForAny t) = t.
Proof.
  induction t as [| b | lit | s | l IH | m IH] using json_nested_ind;
    try reflexivity; intros Hc.
  - simpl in *. f_equal. apply map_fst_keeps.
    rewrite forallb_forall in Hc. rewrite Forall_forall in *.
    intros x Hx. apply IH; [exact Hx |]. apply Hc. now apply list_elem_of_In.
  - simpl in *. f_equal.
    rewrite (map_fst_keeps (fun kv => keyed (fst kv)
               (hexToBase64Entry convertTraceIDAndSpanIDHexToBase64ForAny
                  (fst kv) (snd kv)))); [reflexivity |].
    rewrite forallb_forall in Hc. rewrite Forall_forall in *.
    intros [k v] Hkv. specialize (IH _ Hkv). simpl in *.
    specialize (Hc (k, v) (proj1 (list_elem_of_In _ _) Hkv)). simpl in Hc.
    f_equal. apply hexToBase64Entry_keeps.
    + destruct (idSize k); [destruct v |]; try (apply IH; exact Hc); reflexivity.
    + destruct (idSize k); [destruct v |]; try exact I. exact Hc.
Qed.

(** C1, as amended: for a message whose protojson tree keeps the length
    rule for identifiers (every string under a trace-id or span-id key
    is the base64 text of exactly 16, respectively 8, bytes),
    UnmarshalJSON applied to the output of MarshalJSON gives the message
    back. The wire functions are arbitrary: encoding/json has to read
    back what it writes, and protojson has to read the message back
    from any text of the tree it produced. *)
Theorem marshal_unmarshal_roundtrip {Wire Msg : Type}
    (protojson_Marshal : MarshalOptions -> Msg -> option Wire)
    (protojson_Unmarshal : Wire -> option Msg)
    (json_Unmarshal : Wire -> option json)
    (json_Marshal : json -> option Wire)
    (json_MarshalIndent : json -> string -> option Wire)
    (msg : Msg) (data : Wire) (t : json) :
  protojson_Marshal defaultMarshalOptions msg = Some data ->
  json_Unmarshal data = Some t ->
  ids_canonical t = true ->
  (forall t', exists d, json_Marshal t' = Some d /\ json_Unmarshal d = Some t') ->
  (forall d, json_Unmarshal d = Some t -> protojson_Unmarshal d = Some msg) ->
  exists out w,
    MarshalJSON protojson_Marshal json_Unmarshal json_Marshal
      json_MarshalIndent msg = Some (out, w)
    /\ UnmarshalJSON protojson_Unmarshal json_Unmarshal json_Marshal out
       = Some msg.
Proof.
  intros Hpj Hju Hid Hjson Hread.
  destruct (Hjson t) as (d & Hm & Hu).
  pose proof (base64ToHex_never_converts t) as Henc.
  destruct (convertTraceIDAndSpanIDBase64ToHexForAny t) as [t' w] eqn:Et.
  simpl in Henc. subst t'.
  exists d, w. split.
  - unfold MarshalJSON, convertTraceIDAndSpanIDBase64ToHex.
    rewrite Hpj, Hju, Et. simpl. now rewrite Hm.
  - unfold UnmarshalJSON.
    rewrite Hu, (hexToBase64_keeps_canonical t Hid), Hm.
    now apply Hread.
Qed.

(** The round trip on the identifiers of testdata/trace.json. *)
Lemma marshal_unmarshal_roundtrip_witness :
  exists out w,
    SpanWire.MarshalJSON SpanWire.fixture_span = Some (out, w)
    /\ SpanWire.UnmarshalJSON out = Some SpanWire.fixture_span.
Proof.
  refine (marshal_unmarshal_roundtrip
            SpanWire.protojson_Marshal SpanWire.protojson_Unmarshal
            SpanWire.json_Unmarshal SpanWire.json_Marshal
            SpanWire.json_MarshalIndent SpanWire.fixture_span
            (JObject [("traceId", JString "W47/95gDgQPSabYzgT/GDA==");
                      ("spanId", JString "7uGbfsPBsXQ=");
                      ("parentSpanId", JString "7uGbfsPBsXM=");
                      ("name", JString "I'm a server span")])
            _ _ _ _ _ _).
  - vm_compute. reflexivity.
  - reflexivity.
  - vm_compute. reflexivity.
  - intros t'. exists t'. split; reflexivity.
  - intros d Hd. injection Hd as ->. vm_compute. reflexivity.
Defined.

(** C1, as stated, fails: a span id of twelve bytes whose base64 text
    happens to consist of sixteen hexadecimal digits is written as that
    text and read back as the eight bytes the text spells in
    hexadecimal. *)
Lemma roundtrip_fails_on_twelve_byte_span_id :
  exists out w,
    SpanWire.MarshalJSON SpanWire.long_id_span = Some (out, w)
    /\ out = JObject [("spanId", JString "0000000000000000")]
    /\ SpanWire.UnmarshalJSON out
       = Some {| SpanWire.TraceId := [];
                 SpanWire.SpanId := List.repeat Byte.x00 8;
                 SpanWire.ParentSpanId := [];
                 SpanWire.Name := "" |}
    /\ SpanWire.UnmarshalJSON out <> Some SpanWire.long_id_span.
Proof.
  eexists. eexists. split; [vm_compute; reflexivity |].
  split; [reflexivity |]. split; [vm_compute; reflexivity |].
  vm_compute. discriminate.
Qed.

(** C2: on the identifiers of testdata/trace.json, whose base64 text
    decodes to 16 and 8 bytes, the encoder compares the decoded length
    with the length of the base64 text (24 and 12), logs a length
    warning and leaves both values as base64; the upper-case hexadecimal
    text the spec asks for is never stored. MarshalJSON,
    MarshalIndentJSON and JSONEncoder.Encode all emit the base64 text. *)
Theorem base64ToHex_skips_wellformed_ids :
  let m := [("traceId", JString "W47/95gDgQPSabYzgT/GDA==");
            ("spanId", JString "7uGbfsPBsXQ=")] in
  let emitted :=
    JObject [("traceId", JString "W47/95gDgQPSabYzgT/GDA==");
             ("spanId", JString "7uGbfsPBsXQ=");
             ("parentSpanId", JString "7uGbfsPBsXM=");
             ("name", JString "I'm a server span")] in
  option_map (fun bs => (List.length bs, ToUpper (hex_encode bs)))
    (base64_decode "W47/95gDgQPSabYzgT/GDA==")
    = Some (16, "5B8EFFF798038103D269B633813FC60C")
  /\ option_map (fun bs => (List.length bs, ToUpper (hex_encode bs)))
       (base64_decode "7uGbfsPBsXQ=")
     = Some (8, "EEE19B7EC3C1B174")
  /\ convertTraceIDAndSpanIDBase64ToHexForMap m
     = (m, [WarnUnexpectedLength "traceId" 16 24;
            WarnUnexpectedLength "spanId" 8 12])
  /\ option_map fst (SpanWire.MarshalJSON SpanWire.fixture_span) = Some emitted
  /\ option_map fst (SpanWire.MarshalIndentJSON SpanWire.fixture_span "  ")
     = Some emitted
  /\ option_map (fun e => writer (fst e))
       (SpanWire.Encode (NewJSONEncoder []) SpanWire.fixture_span)
     = Some [emitted].
Proof. vm_compute. repeat split; reflexivity. Qed.

End CodecFacts.

(** ** Facts about the signal algebra *)

Module SignalFacts.
Import Signal.

(** *** Loops that count *)

Lemma fold_left_sum {A : Type} (g : nat -> A -> nat) (f : A -> nat) :
  (forall t y, g t y = t + f y) ->
  forall l a, fold_left g l a = a + list_sum (List.map f l).
Proof.
  intros Hg l. induction l as [| y r IH]; intros a; simpl.
  - lia.
  - rewrite IH, Hg. lia.
Qed.

Lemma list_sum_map_ext {A : Type} (f g : A -> nat) (l : list A) :
  (forall x, f x = g x) -> list_sum (List.map f l) = list_sum (List.map g l).
Proof. intros H. f_equal. apply map_ext. exact H. Qed.

Lemma flat_map_filter {A B : Type} (p : A -> bool) (f : A -> B) (l : list A) :
  flat_map (fun x => if p x then [f x] else []) l
  = List.map f (List.filter p l).
Proof.
  induction l as [| x r IH]; simpl; [reflexivity |].
  destruct (p x); simpl; now rewrite IH.
Qed.

Lemma map_flat_map {A B C : Type} (g : B -> C) (f : A -> list B) (l : list A) :
  List.map g (flat_map f l) = flat_map (fun x => List.map g (f x)) l.
Proof.
  induction l as [| x r IH]; simpl; [reflexivity |].
  now rewrite map_app, IH.
Qed.

Lemma flat_map_map {A B C : Type} (g : B -> list C) (f : A -> B) (l : list A) :
  flat_map g (List.map f l) = flat_map (fun x => g (f x)) l.
Proof. induction l as [| x r IH]; simpl; [reflexivity | now rewrite IH]. Qed.

Section Containers.
Context {Resource InstrumentationScope KeyValue : Type}.
Context {Span LogRecord : Type}.
Context {NumberDataPoint SummaryDataPoint HistogramDataPoint
         ExponentialHistogramDataPoint : Type}.

Local Abbreviation ResourceSpans :=
  (@ResourceSpans Resource InstrumentationScope Span).
Local Abbreviation ScopeSpans := (@ScopeSpans InstrumentationScope Span).
Local Abbreviation ResourceLogs :=
  (@ResourceLogs Resource InstrumentationScope LogRecord).
Local Abbreviation ScopeLogs := (@ScopeLogs InstrumentationScope LogRecord).
Local Abbreviation Metric :=
  (@Metric KeyValue NumberDataPoint SummaryDataPoint HistogramDataPoint
     ExponentialHistogramDataPoint).
Local Abbreviation ScopeMetrics :=
  (@ScopeMetrics InstrumentationScope KeyValue NumberDataPoint
     SummaryDataPoint HistogramDataPoint ExponentialHistogramDataPoint).
Local Abbreviation ResourceMetrics :=
  (@ResourceMetrics Resource InstrumentationScope KeyValue NumberDataPoint
     SummaryDataPoint HistogramDataPoint ExponentialHistogramDataPoint).

Local Abbreviation Leaf := (@Leaf Resource InstrumentationScope).

(** *** Spans *)

Lemma TotalSpans_sum (src : list (option ResourceSpans)) :
  TotalSpans src = list_sum (List.map spansIn src).
Proof.
  unfold TotalSpans.
  rewrite (fold_left_sum _ spansIn); [reflexivity |].
  intros t elem. unfold spansIn.
  now rewrite (fold_left_sum _ (fun ss => List.length (ss_GetSpans ss))).
Qed.

Lemma TotalSpans_leaves (src : list (option ResourceSpans)) :
  TotalSpans src = List.length (spanLeaves src).
Proof.
  rewrite TotalSpans_sum. unfold spanLeaves. rewrite length_flat_map.
  apply list_sum_map_ext. intros elem. unfold spansIn.
  rewrite length_flat_map. apply list_sum_map_ext. intros ss.
  now rewrite length_map.
Qed.

Lemma SplitResourceSpans_leaves (src : list (option ResourceSpans)) :
  SplitResourceSpans src = List.map spanLeafTree (spanLeaves src).
Proof.
  unfold SplitResourceSpans, spanLeaves, splitScopeSpans.
  rewrite map_flat_map. apply flat_map_ext. intros elem.
  rewrite !map_flat_map. apply flat_map_ext. intros ss.
  rewrite !map_map. reflexivity.
Qed.

Lemma spanLeaves_trees (ls : list (Leaf Span)) :
  spanLeaves (List.map spanLeafTree ls) = ls.
Proof.
  induction ls as [| [r ru s su i] ls IH]; [reflexivity |].
  simpl. f_equal. exact IH.
Qed.

Lemma TotalSpans_Split (src : list (option ResourceSpans)) :
  TotalSpans (SplitResourceSpans src) = TotalSpans src.
Proof.
  rewrite !TotalSpans_leaves, SplitResourceSpans_leaves, spanLeaves_trees.
  reflexivity.
Qed.

Lemma andFilter_forallb {T : Type}
    (filters : list (option Resource -> option InstrumentationScope -> T -> bool))
    r s t :
  andFilter filters r s t = forallb (fun f => f r s t) filters.
Proof.
  induction filters as [| f fs IH]; simpl; [reflexivity |].
  destruct (f r s t); simpl; [exact IH | reflexivity].
Qed.

Lemma FilterResourceSpans_leaves (src : list (option ResourceSpans)) filters :
  FilterResourceSpans src filters
  = List.map spanLeafTree (List.filter (passes filters) (spanLeaves src)).
Proof.
  unfold FilterResourceSpans.
  rewrite SplitResourceSpans_leaves, flat_map_map, <- flat_map_filter.
  apply flat_map_ext. intros l. simpl. rewrite app_nil_r.
  rewrite andFilter_forallb. unfold passes.
  destruct (forallb _ filters); reflexivity.
Qed.

Lemma In_spanLeaves (src : list (option ResourceSpans)) (l : Leaf Span) :
  In l (spanLeaves src) -> cutFromSpans src (spanLeafTree l).
Proof.
  unfold spanLeaves. intros H.
  apply in_flat_map in H as (elem & He & H).
  apply in_flat_map in H as (ss & Hs & H).
  apply in_map_iff in H as (sp & <- & Hp).
  exists elem, ss, sp. repeat split; assumption.
Qed.

(** *** Logs *)

Lemma TotalLogRecords_sum (src : list (option ResourceLogs)) :
  TotalLogRecords src = list_sum (List.map logsIn src).
Proof.
  unfold TotalLogRecords.
  rewrite (fold_left_sum _ logsIn); [reflexivity |].
  intros t elem. unfold logsIn.
  now rewrite (fold_left_sum _ (fun sl => List.length (sl_GetLogRecords sl))).
Qed.

Lemma TotalLogRecords_leaves (src : list (option ResourceLogs)) :
  TotalLogRecords src = List.length (logLeaves src).
Proof.
  rewrite TotalLogRecords_sum. unfold logLeaves. rewrite length_flat_map.
  apply list_sum_map_ext. intros elem. unfold logsIn.
  rewrite length_flat_map. apply list_sum_map_ext. intros sl.
  now rewrite length_map.
Qed.

Lemma SplitResourceLogs_leaves (src : list (option ResourceLogs)) :
  SplitResourceLogs src = List.map logLeafTree (logLeaves src).
Proof.
  unfold SplitResourceLogs, logLeaves, splitScopeLogs.
  rewrite map_flat_map. apply flat_map_ext. intros elem.
  rewrite !map_flat_map. apply flat_map_ext. intros sl.
  rewrite !map_map. reflexivity.
Qed.

Lemma logLeaves_trees (ls : list (Leaf LogRecord)) :
  logLeaves (List.map logLeafTree ls) = ls.
Proof.
  induction ls as [| [r ru s su i] ls IH]; [reflexivity |].
  simpl. f_equal. exact IH.
Qed.

Lemma TotalLogRecords_Split (src : list (option ResourceLogs)) :
  TotalLogRecords (SplitResourceLogs src) = TotalLogRecords src.
Proof.
  rewrite !TotalLogRecords_leaves, SplitResourceLogs_leaves, logLeaves_trees.
  reflexivity.
Qed.

Lemma FilterResourceLogs_leaves (src : list (option ResourceLogs)) filters :
  FilterResourceLogs src filters
  = List.map logLeafTree (List.filter (passes filters) (logLeaves src)).
Proof.
  unfold FilterResourceLogs.
  rewrite SplitResourceLogs_leaves, flat_map_map, <- flat_map_filter.
  apply flat_map_ext. intros l. simpl. rewrite app_nil_r.
  rewrite andFilter_forallb. unfold passes.
  destruct (forallb _ filters); reflexivity.
Qed.

Lemma In_logLeaves (src : list (option ResourceLogs)) (l : Leaf LogRecord) :
  In l (logLeaves src) -> cutFromLogs src (logLeafTree l).
Proof.
  unfold logLeaves. intros H.
  apply in_flat_map in H as (elem & He & H).
  apply in_flat_map in H as (sl & Hs & H).
  apply in_map_iff in H as (lr & <- & Hp).
  exists elem, sl, lr. repeat split; assumption.
Qed.

(** *** Metrics *)

Lemma splitMetrics_length (ms : list (option Metric)) :
  List.length (splitMetrics ms) = list_sum (List.map pointCount ms).
Proof.
  unfold splitMetrics. rewrite length_flat_map.
  apply list_sum_map_ext. intros m. unfold pointCount.
  destruct (m_GetData m) as [[g | s | h | e | s] |];
    try (now rewrite length_map); reflexivity.
Qed.

Lemma TotalDataPoints_sum (src : list (option ResourceMetrics)) :
  TotalDataPoints src = list_sum (List.map pointsIn src).
Proof.
  unfold TotalDataPoints.
  rewrite (fold_left_sum _ pointsIn); [reflexivity |].
  intros t elem. unfold pointsIn.
  rewrite (fold_left_sum _
             (fun sm => list_sum (List.map pointCount (sm_GetMetrics sm))));
    [reflexivity |].
  intros t' sm.
  rewrite (fold_left_sum _ pointCount); [reflexivity |].
  intros t'' m. unfold pointCount.
  destruct (m_GetData m) as [[g | s | h | e | s] |]; lia.
Qed.

Lemma TotalDataPoints_leaves (src : list (option ResourceMetrics)) :
  TotalDataPoints src = List.length (metricLeaves src).
Proof.
  rewrite TotalDataPoints_sum. unfold metricLeaves. rewrite length_flat_map.
  apply list_sum_map_ext. intros elem. unfold pointsIn.
  rewrite length_flat_map. apply list_sum_map_ext. intros sm.
  now rewrite length_map, splitMetrics_length.
Qed.

Lemma SplitResourceMetrics_leaves (src : list (option ResourceMetrics)) :
  SplitResourceMetrics src = List.map metricLeafTree (metricLeaves src).
Proof.
  unfold SplitResourceMetrics, metricLeaves, splitScopeMetrics.
  rewrite map_flat_map. apply flat_map_ext. intros elem.
  rewrite !map_flat_map. apply flat_map_ext. intros sm.
  rewrite !map_map. reflexivity.
Qed.

Lemma In_splitMetrics (ms : list (option Metric)) (one : option Metric) :
  In one (splitMetrics ms) ->
  exists parent, In parent ms /\ onePoint parent one.
Proof.
  unfold splitMetrics. intros H.
  apply in_flat_map in H as (parent & Hp & H).
  exists parent. split; [exact Hp |]. unfold onePoint.
  destruct (m_GetData parent) as [[g | s | h | e | s] |];
    try (apply in_map_iff in H as (dp & <- & Hd); exists dp;
         split; [exact Hd | reflexivity]).
  destruct H.
Qed.

(** A metric that holds one data point splits into itself. *)
Lemma onePoint_fixed (parent one : option Metric) :
  onePoint parent one -> splitMetrics [one] = [one].
Proof.
  unfold onePoint.
  destruct (m_GetData parent) as [[g | s | h | e | s] |];
    try (intros (dp & _ & ->); reflexivity).
  intros [].
Qed.

Lemma splitMetrics_fixed (ms : list (option Metric)) (one : option Metric) :
  In one (splitMetrics ms) -> splitMetrics [one] = [one].
Proof.
  intros H. apply In_splitMetrics in H as (parent & _ & H).
  exact (onePoint_fixed parent one H).
Qed.

Lemma metricLeaves_fixed (src : list (option ResourceMetrics)) :
  Forall (fun l : Leaf Metric => splitMetrics [lf_Item l] = [lf_Item l])
    (metricLeaves src).
Proof.
  apply List.Forall_forall. intros l H. unfold metricLeaves in H.
  apply in_flat_map in H as (elem & _ & H).
  apply in_flat_map in H as (sm & _ & H).
  apply in_map_iff in H as (one & <- & H). simpl.
  exact (splitMetrics_fixed _ _ H).
Qed.

Lemma metricLeaves_trees (ls : list (Leaf Metric)) :
  Forall (fun l : Leaf Metric => splitMetrics [lf_Item l] = [lf_Item l]) ls ->
  metricLeaves (List.map metricLeafTree ls) = ls.
Proof.
  induction 1 as [| [r ru s su i] ls Hl _ IH]; [reflexivity |].
  simpl in *. rewrite Hl. simpl. f_equal. exact IH.
Qed.

Lemma TotalDataPoints_Split (src : list (option ResourceMetrics)) :
  TotalDataPoints (SplitResourceMetrics src) = TotalDataPoints src.
Proof.
  rewrite !TotalDataPoints_leaves, SplitResourceMetrics_leaves,
    (metricLeaves_trees _ (metricLeaves_fixed src)).
  reflexivity.
Qed.

Lemma FilterResourceMetrics_leaves (src : list (option ResourceMetrics))
    filters :
  FilterResourceMetrics src filters
  = List.map metricLeafTree (List.filter (passes filters) (metricLeaves src)).
Proof.
  unfold FilterResourceMetrics.
  rewrite SplitResourceMetrics_leaves, flat_map_map, <- flat_map_filter.
  apply flat_map_ext. intros l. simpl. rewrite app_nil_r.
  rewrite andFilter_forallb. unfold passes.
  destruct (forallb _ filters); reflexivity.
Qed.

Lemma In_metricLeaves (src : list (option ResourceMetrics)) (l : Leaf Metric) :
  In l (metricLeaves src) -> cutFromMetrics src (metricLeafTree l).
Proof.
  unfold metricLeaves. intros H.
  apply in_flat_map in H as (elem & He & H).
  apply in_flat_map in H as (sm & Hs & H).
  apply in_map_iff in H as (one & <- & Hp).
  apply In_splitMetrics in Hp as (parent & Hp & Ho).
  exists elem, sm, parent, one. repeat split; assumption.
Qed.

(** *** Append and Partition *)

Variable Resource_Equal : option Resource -> option Resource -> bool.
Variable Scope_Equal :
  option InstrumentationScope -> option InstrumentationScope -> bool.

Lemma appendScopeSpans_sum (dst : list (option ScopeSpans)) src :
  list_sum (List.map (fun ss => List.length (ss_GetSpans ss))
              (appendScopeSpans Scope_Equal dst src))
  = list_sum (List.map (fun ss => List.length (ss_GetSpans ss)) dst)
    + List.length (ss_GetSpans src).
Proof.
  induction dst as [| d rest IH]; simpl; [lia |].
  destruct (Scope_Equal _ _); simpl.
  - rewrite length_app. lia.
  - rewrite IH. lia.
Qed.

Lemma AppendResourceSpans_sum (dst : list (option ResourceSpans)) src :
  list_sum (List.map spansIn (AppendResourceSpans Resource_Equal Scope_Equal dst src))
  = list_sum (List.map spansIn dst) + spansIn src.
Proof.
  induction dst as [| d rest IH]; simpl; [lia |].
  destruct (Resource_Equal _ _); simpl; [| rewrite IH; lia].
  enough (forall srcs acc : list (option ScopeSpans),
             list_sum (List.map (fun ss => List.length (ss_GetSpans ss))
                         (fold_left (appendScopeSpans Scope_Equal) srcs acc))
             = list_sum (List.map (fun ss => List.length (ss_GetSpans ss)) acc)
               + list_sum (List.map (fun ss => List.length (ss_GetSpans ss)) srcs))
    as H.
  { unfold spansIn at 1. simpl. rewrite H. unfold spansIn. lia. }
  induction srcs as [| s srcs IHs]; intros acc; simpl; [lia |].
  rewrite IHs, appendScopeSpans_sum. lia.
Qed.

Lemma TotalSpans_Append (dst : list (option ResourceSpans)) src :
  TotalSpans (AppendResourceSpans Resource_Equal Scope_Equal dst src)
  = TotalSpans dst + spansIn src.
Proof. rewrite !TotalSpans_sum. apply AppendResourceSpans_sum. Qed.

Lemma appendScopeLogs_sum (dst : list (option ScopeLogs)) src :
  list_sum (List.map (fun sl => List.length (sl_GetLogRecords sl))
              (appendScopeLogs Scope_Equal dst src))
  = list_sum (List.map (fun sl => List.length (sl_GetLogRecords sl)) dst)
    + List.length (sl_GetLogRecords src).
Proof.
  induction dst as [| d rest IH]; simpl; [lia |].
  destruct (Scope_Equal _ _); simpl.
  - rewrite length_app. lia.
  - rewrite IH. lia.
Qed.

Lemma AppendResourceLogs_sum (dst : list (option ResourceLogs)) src :
  list_sum (List.map logsIn (AppendResourceLogs Resource_Equal Scope_Equal dst src))
  = list_sum (List.map logsIn dst) + logsIn src.
Proof.
  induction dst as [| d rest IH]; simpl; [lia |].
  destruct (Resource_Equal _ _); simpl; [| rewrite IH; lia].
  enough (forall srcs acc : list (option ScopeLogs),
             list_sum (List.map (fun sl => List.length (sl_GetLogRecords sl))
                         (fold_left (appendScopeLogs Scope_Equal) srcs acc))
             = list_sum (List.map (fun sl => List.length (sl_GetLogRecords sl)) acc)
               + list_sum (List.map (fun sl => List.length (sl_GetLogRecords sl)) srcs))
    as H.
  { unfold logsIn at 1. simpl. rewrite H. unfold logsIn. lia. }
  induction srcs as [| s srcs IHs]; intros acc; simpl; [lia |].
  rewrite IHs, appendScopeLogs_sum. lia.
Qed.

Lemma TotalLogRecords_Append (dst : list (option ResourceLogs)) src :
  TotalLogRecords (AppendResourceLogs Resource_Equal Scope_Equal dst src)
  = TotalLogRecords dst + logsIn src.
Proof. rewrite !TotalLogRecords_sum. apply AppendResourceLogs_sum. Qed.

Lemma appendScopeMetrics_sum (dst : list (option ScopeMetrics)) src :
  list_sum (List.map (fun sm => list_sum (List.map pointCount (sm_GetMetrics sm)))
              (appendScopeMetrics Scope_Equal dst src))
  = list_sum (List.map (fun sm => list_sum (List.map pointCount (sm_GetMetrics sm))) dst)
    + list_sum (List.map pointCount (sm_GetMetrics src)).
Proof.
  induction dst as [| d rest IH]; simpl; [lia |].
  destruct (Scope_Equal _ _); simpl.
  - rewrite map_app, list_sum_app. lia.
  - rewrite IH. lia.
Qed.

Lemma AppendResourceMetrics_sum (dst : list (option ResourceMetrics)) src :
  list_sum (List.map pointsIn
              (AppendResourceMetrics Resource_Equal Scope_Equal dst src))
  = list_sum (List.map pointsIn dst) + pointsIn src.
Proof.
  induction dst as [| d rest IH]; simpl; [lia |].
  destruct (Resource_Equal _ _); simpl; [| rewrite IH; lia].
  enough (forall srcs acc : list (option ScopeMetrics),
             list_sum (List.map (fun sm => list_sum (List.map pointCount (sm_GetMetrics sm)))
                         (fold_left (appendScopeMetrics Scope_Equal) srcs acc))
             = list_sum (List.map (fun sm => list_sum (List.map pointCount (sm_GetMetrics sm))) acc)
               + list_sum (List.map (fun sm => list_sum (List.map pointCount (sm_GetMetrics sm))) srcs))
    as H.
  { unfold pointsIn at 1. simpl. rewrite H. unfold pointsIn. lia. }
  induction srcs as [| s srcs IHs]; intros acc; simpl; [lia |].
  rewrite IHs, appendScopeMetrics_sum. lia.
Qed.

Lemma TotalDataPoints_Append (dst : list (option ResourceMetrics)) src :
  TotalDataPoints (AppendResourceMetrics Resource_Equal Scope_Equal dst src)
  = TotalDataPoints dst + pointsIn src.
Proof. rewrite !TotalDataPoints_sum. apply AppendResourceMetrics_sum. Qed.

(** The leaf count of a partition after one more bucket update. *)
Lemma bucketLeaves_insert {A : Type} (total : list A -> nat)
    (m : gmap string (list A)) (k : string) (v : list A) :
  total [] = 0 ->
  bucketLeaves total (<[k := v]> m) + total (at_key m k)
  = bucketLeaves total m + total v.
Proof.
  intros Hnil. unfold bucketLeaves, at_key.
  destruct (m !! k) as [old |] eqn:E; simpl.
  - rewrite <- (insert_delete_eq m k v).
    rewrite map_fold_insert_L;
      [| intros; lia | apply lookup_delete_eq].
    rewrite (map_fold_delete_L _ _ k old m); [lia | intros; lia | exact E].
  - rewrite map_fold_insert_L; [lia | intros; lia | exact E].
Qed.

(** The loop of the three Partition functions, for any append that
    adds the leaves of the element to the leaves of the bucket. *)
Lemma partition_loop_leaves {A : Type} (total : list A -> nat)
    (append : list A -> A -> list A) (w : A -> nat) (key : A -> string) :
  total [] = 0 ->
  (forall dst e, total (append dst e) = total dst + w e) ->
  forall l m,
    bucketLeaves total
      (fold_left (fun m elem =>
         <[key elem := append (at_key m (key elem)) elem]> m) l m)
    = bucketLeaves total m + list_sum (List.map w l).
Proof.
  intros Hnil Happ l. induction l as [| e l IH]; intros m; simpl; [lia |].
  rewrite IH.
  pose proof (bucketLeaves_insert total m (key e)
                (append (at_key m (key e)) e) Hnil) as H.
  rewrite Happ in H. lia.
Qed.


(** C4: every tree Split returns is one resource envelope around one
    scope envelope around one item with one leaf, and it carries the
    resource, instrumentation scope and schema urls of the tree the
    leaf was taken from; a split metric keeps the name, description,
    unit, metadata and point-shape parameters of its parent. *)
Theorem split_trees_are_one_leaf_cuts :
  (forall src : list (option ResourceSpans),
      Forall (cutFromSpans src) (SplitResourceSpans src))
  /\ (forall src : list (option ResourceMetrics),
      Forall (cutFromMetrics src) (SplitResourceMetrics src))
  /\ (forall src : list (option ResourceLogs),
      Forall (cutFromLogs src) (SplitResourceLogs src)).
Proof.
  repeat split; intros src; apply List.Forall_forall; intros t Ht.
  - rewrite SplitResourceSpans_leaves in Ht.
    apply in_map_iff in Ht as (l & <- & Hl). now apply In_spanLeaves.
  - rewrite SplitResourceMetrics_leaves in Ht.
    apply in_map_iff in Ht as (l & <- & Hl). now apply In_metricLeaves.
  - rewrite SplitResourceLogs_leaves in Ht.
    apply in_map_iff in Ht as (l & <- & Hl). now apply In_logLeaves.
Qed.

Lemma filter_passes {Item : Type} filters (ls : list (Leaf Item)) :
  Forall (fun l => Forall (fun f => f (lf_Resource l) (lf_Scope l) (lf_Item l) = true)
                     filters)
    (List.filter (passes filters) ls).
Proof.
  apply List.Forall_forall. intros l Hl.
  apply filter_In in Hl as [_ Hp]. unfold passes in Hp.
  apply List.Forall_forall. intros f Hf.
  rewrite forallb_forall in Hp. exact (Hp f Hf).
Qed.

(** C5: Filter returns one-leaf trees; read in pre-order, their leaves
    are the leaves of the input that pass every predicate, each of
    them once and in the order of the input; and every leaf of the
    result passes every predicate. For metrics a leaf is the metric
    cut down to one data point, which is what the predicates see. *)
Theorem filter_keeps_passing_leaves :
  (forall (src : list (option ResourceSpans)) filters,
      let result := FilterResourceSpans src filters in
      result = List.map spanLeafTree (spanLeaves result)
      /\ spanLeaves result = List.filter (passes filters) (spanLeaves src)
      /\ Forall (fun l => Forall (fun f =>
                   f (lf_Resource l) (lf_Scope l) (lf_Item l) = true) filters)
           (spanLeaves result))
  /\ (forall (src : list (option ResourceMetrics)) filters,
      let result := FilterResourceMetrics src filters in
      result = List.map metricLeafTree (metricLeaves result)
      /\ metricLeaves result = List.filter (passes filters) (metricLeaves src)
      /\ Forall (fun l => Forall (fun f =>
                   f (lf_Resource l) (lf_Scope l) (lf_Item l) = true) filters)
           (metricLeaves result))
  /\ (forall (src : list (option ResourceLogs)) filters,
      let result := FilterResourceLogs src filters in
      result = List.map logLeafTree (logLeaves result)
      /\ logLeaves result = List.filter (passes filters) (logLeaves src)
      /\ Forall (fun l => Forall (fun f =>
                   f (lf_Resource l) (lf_Scope l) (lf_Item l) = true) filters)
           (logLeaves result)).
Proof.
  split; [| split]; intros src filters result; subst result.
  - rewrite FilterResourceSpans_leaves, spanLeaves_trees.
    repeat split. apply filter_passes.
  - assert (metricLeaves (List.map metricLeafTree
              (List.filter (passes filters) (metricLeaves src)))
            = List.filter (passes filters) (metricLeaves src)) as E.
    { apply metricLeaves_trees. apply List.Forall_forall. intros l Hl.
      apply filter_In in Hl as [Hl _].
      pose proof (metricLeaves_fixed src) as F.
      rewrite List.Forall_forall in F. exact (F l Hl). }
    rewrite FilterResourceMetrics_leaves, E.
    repeat split. apply filter_passes.
  - rewrite FilterResourceLogs_leaves, logLeaves_trees.
    repeat split. apply filter_passes.
Qed.

End Containers.
End SignalFacts.

(** A walk through the fixture containers. *)

Module SignalExamples.
Import Signal SignalFixture.

Example split_two_spans :
  SplitResourceSpans twoSpans
  = [Some {| rs_Resource := Some "my.service";
             rs_ScopeSpans :=
               [Some {| ss_Scope := Some "my.library";
                        ss_Spans := [Some 1]; ss_SchemaUrl := "" |}];
             rs_SchemaUrl := "" |};
     Some {| rs_Resource := Some "my.service";
             rs_ScopeSpans :=
               [Some {| ss_Scope := Some "my.library";
                        ss_Spans := [Some 2]; ss_SchemaUrl := "" |}];
             rs_SchemaUrl := "" |}].
Proof. reflexivity. Qed.

Example filter_even_span :
  FilterResourceSpans twoSpans [evenSpan]
  = [Some {| rs_Resource := Some "my.service";
             rs_ScopeSpans :=
               [Some {| ss_Scope := Some "my.library";
                        ss_Spans := [Some 2]; ss_SchemaUrl := "" |}];
             rs_SchemaUrl := "" |}].
Proof. reflexivity. Qed.

(** With the append modelled from the spec, the two one-span trees of a
    bucket that share their resource and scope are merged again: the
    bucket holds one tree with two leaves. Buckets are counted by their
    leaves, not by their trees. *)
Example one_bucket_merges :
  let buckets := PartitionResourceSpans sameName sameName twoSpans sameHour in
  buckets !! "2018/12/13/23" = Some twoSpans
  /\ bucketTrees buckets = 1
  /\ bucketLeaves TotalSpans buckets = 2
  /\ TotalSpans twoSpans = 2.
Proof. vm_compute. repeat split; reflexivity. Qed.

End SignalExamples.

(** ** Facts about the bridge and the multiplexer *)

Module ServerFacts.
Import Encoding Grpc Server Mux.

Section Chains.
Context {Ctx : Type}.
Context {TraceRequest TraceResponse : Type}.
Context {MetricsRequest MetricsResponse : Type}.
Context {LogsRequest LogsResponse : Type}.
Context {OtherMessage : Type}.

Local Abbreviation Message :=
  (@Message TraceRequest TraceResponse MetricsRequest MetricsResponse
     LogsRequest LogsResponse OtherMessage).
Local Abbreviation ProtoHandlerFunc :=
  (@ProtoHandlerFunc Ctx TraceRequest TraceResponse MetricsRequest
     MetricsResponse LogsRequest LogsResponse OtherMessage).
Local Abbreviation MiddlewareFunc :=
  (@MiddlewareFunc Ctx TraceRequest TraceResponse MetricsRequest
     MetricsResponse LogsRequest LogsResponse OtherMessage).
Local Abbreviation ServerMux :=
  (@ServerMux Ctx TraceRequest TraceResponse MetricsRequest MetricsResponse
     LogsRequest LogsResponse OtherMessage).

Local Abbreviation traceErasure :=
  (@traceErasure TraceRequest TraceResponse MetricsRequest MetricsResponse
     LogsRequest LogsResponse OtherMessage).
Local Abbreviation metricsErasure :=
  (@metricsErasure TraceRequest TraceResponse MetricsRequest
     MetricsResponse LogsRequest LogsResponse OtherMessage).
Local Abbreviation logsErasure :=
  (@logsErasure TraceRequest TraceResponse MetricsRequest MetricsResponse
     LogsRequest LogsResponse OtherMessage).

Local Abbreviation NewServerMux :=
  (@NewServerMux Ctx TraceRequest TraceResponse MetricsRequest
     MetricsResponse LogsRequest LogsResponse OtherMessage).

Lemma chain_loop (before : list MiddlewareFunc) :
  forall (chained : MiddlewareFunc) (next : ProtoHandlerFunc),
    fold_left (fun (chained : MiddlewareFunc) (mw : MiddlewareFunc) =>
                 fun h => mw (chained h)) before chained next
    = nest (rev before) (chained next).
Proof.
  induction before as [| mw before IH]; intros chained next; simpl.
  - reflexivity.
  - rewrite IH. unfold nest. rewrite fold_right_app. reflexivity.
Qed.

Lemma chainedMiddleware_nest (ms : list MiddlewareFunc)
    (next : ProtoHandlerFunc) :
  chainedMiddleware ms next = nest ms next.
Proof.
  unfold chainedMiddleware.
  destruct (rev ms) as [| last before] eqn:E.
  - apply (f_equal (@rev _)) in E. rewrite rev_involutive in E.
    now subst ms.
  - rewrite chain_loop.
    apply (f_equal (@rev _)) in E. rewrite rev_involutive in E.
    subst ms. simpl. unfold nest. now rewrite fold_right_app.
Qed.

Lemma getHandler_nest {Req Resp : Type}
    (ms : list (@EntryMiddlewareFunc Ctx Req Resp)) (base : option Handler) :
  getHandler {| middlewares := ms; h := base |}
  = option_map (nest ms) base.
Proof.
  unfold getHandler. simpl. destruct base as [base |]; [| reflexivity].
  simpl. f_equal. unfold nest. symmetry.
  rewrite <- (rev_involutive ms) at 1. apply fold_left_rev_right.
Qed.

Lemma Export_nest {Req Resp : Type} (er : @Erasure _ _ _ _ _ _ _ Req Resp)
    (ms : list MiddlewareFunc) (ems : list EntryMiddlewareFunc)
    (handler : Handler) (ctx : Ctx) (req : Req) :
  Export er ms {| middlewares := ems; h := Some handler |} ctx req
  = narrowed er (nest ms (erased er (nest ems handler)) ctx (ofRequest er req)).
Proof.
  unfold Export. rewrite getHandler_nest. simpl.
  now rewrite chainedMiddleware_nest.
Qed.

Lemma nest_probes (gs : list (Ctx -> Ctx)) (k : ProtoHandlerFunc) ctx req :
  nest (List.map probe gs) k ctx req
  = k (fold_left (fun c g => g c) gs ctx) req.
Proof.
  revert ctx. induction gs as [| g gs IH]; intros ctx; simpl.
  - reflexivity.
  - unfold probe at 1. apply IH.
Qed.

Lemma nest_entryProbes {Req Resp : Type} (gs : list (Ctx -> Ctx))
    (k : @Handler Ctx Req Resp) ctx req :
  nest (List.map entryProbe gs) k ctx req
  = k (fold_left (fun c g => g c) gs ctx) req.
Proof.
  revert ctx. induction gs as [| g gs IH]; intros ctx; simpl.
  - reflexivity.
  - unfold entryProbe at 1. apply IH.
Qed.

Lemma narrowed_mapResult_trace (r : Result TraceResponse) :
  narrowed traceErasure (mapResult MsgTraceResponse r) = r.
Proof. now destruct r. Qed.

Lemma narrowed_mapResult_metrics (r : Result MetricsResponse) :
  narrowed metricsErasure (mapResult MsgMetricsResponse r) = r.
Proof. now destruct r. Qed.

Lemma narrowed_mapResult_logs (r : Result LogsResponse) :
  narrowed logsErasure (mapResult MsgLogsResponse r) = r.
Proof. now destruct r. Qed.

Variable error_text : error -> string.
Variable status_proto : Status -> option bytes.
Variable status_json : Status -> option bytes.
Variable NewIncomingContext : Ctx -> Header -> Ctx.
Variable traceCodec : @SignalCodec Ctx TraceRequest TraceResponse.
Variable metricsCodec : @SignalCodec Ctx MetricsRequest MetricsResponse.
Variable logsCodec : @SignalCodec Ctx LogsRequest LogsResponse.

Local Abbreviation ServeHTTP :=
  (ServeHTTP error_text status_proto status_json NewIncomingContext
     traceCodec metricsCodec logsCodec).

(** The bridge only ever applies its handler: two handlers that agree on
    every call give the same reply. *)
Lemma proxy_ServeHTTP_ext {Req Resp : Type}
    (codec : @SignalCodec Ctx Req Resp) (h1 h2 : proxyHandler)
    (r : @Request Ctx) :
  (forall c q, handler h1 c q = handler h2 c q) ->
  proxy_ServeHTTP error_text status_proto status_json codec h1 r
  = proxy_ServeHTTP error_text status_proto status_json codec h2 r.
Proof.
  intros H. unfold proxy_ServeHTTP, serveHTTPWithProto, serveHTTPWithJSON.
  destruct (negb _); [reflexivity |].
  destruct (String.eqb _ "application/x-protobuf").
  - destruct (ReadAll r) as [body | reason]; [| reflexivity].
    destruct (proto_Unmarshal codec body _); [now rewrite H | reflexivity].
  - destruct (String.eqb _ "application/json"); [| reflexivity].
    destruct (ReadAll r) as [body | reason]; [| reflexivity].
    destruct (protojson_Unmarshal codec body _); [now rewrite H | reflexivity].
Qed.

Lemma probed_TraceExport (cross inner : list (Ctx -> Ctx)) handler ctx req :
  grpc_TraceExport
    (Trace_Handle
       (Trace_Use (Use NewServerMux (List.map probe cross))
          (List.map entryProbe inner)) (Some handler)) ctx req
  = handler (fold_left (fun c g => g c) (cross ++ inner) ctx) req.
Proof.
  rewrite fold_left_app. unfold grpc_TraceExport. simpl.
  unfold entry_Handle, entry_Use, emptyEntry. simpl.
  rewrite Export_nest, nest_probes.
  unfold erased. simpl. rewrite nest_entryProbes.
  apply narrowed_mapResult_trace.
Qed.

Lemma probed_MetricsExport (cross inner : list (Ctx -> Ctx)) handler ctx req :
  grpc_MetricsExport
    (Metrics_Handle
       (Metrics_Use (Use NewServerMux (List.map probe cross))
          (List.map entryProbe inner)) (Some handler)) ctx req
  = handler (fold_left (fun c g => g c) (cross ++ inner) ctx) req.
Proof.
  rewrite fold_left_app. unfold grpc_MetricsExport. simpl.
  unfold entry_Handle, entry_Use, emptyEntry. simpl.
  rewrite Export_nest, nest_probes.
  unfold erased. simpl. rewrite nest_entryProbes.
  apply narrowed_mapResult_metrics.
Qed.

Lemma probed_LogsExport (cross inner : list (Ctx -> Ctx)) handler ctx req :
  grpc_LogsExport
    (Logs_Handle
       (Logs_Use (Use NewServerMux (List.map probe cross))
          (List.map entryProbe inner)) (Some handler)) ctx req
  = handler (fold_left (fun c g => g c) (cross ++ inner) ctx) req.
Proof.
  rewrite fold_left_app. unfold grpc_LogsExport. simpl.
  unfold entry_Handle, entry_Use, emptyEntry. simpl.
  rewrite Export_nest, nest_probes.
  unfold erased. simpl. rewrite nest_entryProbes.
  apply narrowed_mapResult_logs.
Qed.

(** C6: Export runs the cross-signal chain around the per-signal chain
    around the user handler, in each chain the first registered
    middleware outermost, and both transports reach the handler through
    that Export. When the middlewares are probes that rewrite the
    context, the handler of a mux built by [Use], [Trace().Use] and
    [Trace().Handle] is called, over the binary-RPC transport and over
    HTTP alike, with the context rewritten by the cross-signal probes
    first and the per-signal probes second, each in registration
    order. *)
Theorem middleware_composition_order :
  (forall (Req Resp : Type) (er : @Erasure _ _ _ _ _ _ _ Req Resp)
          (ms : list MiddlewareFunc) (ems : list EntryMiddlewareFunc)
          (handler : Handler) (ctx : Ctx) (req : Req),
      Export er ms {| middlewares := ems; h := Some handler |} ctx req
      = narrowed er
          (nest ms (erased er (nest ems handler)) ctx (ofRequest er req)))
  /\ (forall (ms : list MiddlewareFunc) te me le
             method headers ctx body,
      let mux : ServerMux :=
        {| mux_middlewares := ms; trace := Some te;
           metrics := Some me; logs := Some le |} in
      let r path := {| Method := method; Path := path; Headers := headers;
                       Context := ctx; ReadAll := body |} in
      (forall c q, grpc_TraceExport mux c q = Export traceErasure ms te c q)
      /\ (forall c q, grpc_MetricsExport mux c q = Export metricsErasure ms me c q)
      /\ (forall c q, grpc_LogsExport mux c q = Export logsErasure ms le c q)
      /\ ServeHTTP mux (r "/v1/traces")
         = proxy_ServeHTTP error_text status_proto status_json traceCodec
             {| handler := Export traceErasure ms te |}
             (withIncoming NewIncomingContext (r "/v1/traces"))
      /\ ServeHTTP mux (r "/v1/metrics")
         = proxy_ServeHTTP error_text status_proto status_json metricsCodec
             {| handler := Export metricsErasure ms me |}
             (withIncoming NewIncomingContext (r "/v1/metrics"))
      /\ ServeHTTP mux (r "/v1/logs")
         = proxy_ServeHTTP error_text status_proto status_json logsCodec
             {| handler := Export logsErasure ms le |}
             (withIncoming NewIncomingContext (r "/v1/logs")))
  /\ (forall (cross inner : list (Ctx -> Ctx)) method headers ctx body,
      let seen := fold_left (fun c g => g c) (cross ++ inner) in
      let r path := {| Method := method; Path := path; Headers := headers;
                       Context := ctx; ReadAll := body |} in
      let traceMux handler :=
        Trace_Handle
          (Trace_Use (Use NewServerMux (List.map probe cross))
             (List.map entryProbe inner)) (Some handler) in
      let metricsMux handler :=
        Metrics_Handle
          (Metrics_Use (Use NewServerMux (List.map probe cross))
             (List.map entryProbe inner)) (Some handler) in
      let logsMux handler :=
        Logs_Handle
          (Logs_Use (Use NewServerMux (List.map probe cross))
             (List.map entryProbe inner)) (Some handler) in
      (forall handler req,
          grpc_TraceExport (traceMux handler) ctx req = handler (seen ctx) req)
      /\ (forall handler req,
          grpc_MetricsExport (metricsMux handler) ctx req = handler (seen ctx) req)
      /\ (forall handler req,
          grpc_LogsExport (logsMux handler) ctx req = handler (seen ctx) req)
      /\ (forall handler,
          ServeHTTP (traceMux handler) (r "/v1/traces")
          = proxy_ServeHTTP error_text status_proto status_json traceCodec
              {| handler := fun c q => handler (seen c) q |}
              (withIncoming NewIncomingContext (r "/v1/traces")))
      /\ (forall handler,
          ServeHTTP (metricsMux handler) (r "/v1/metrics")
          = proxy_ServeHTTP error_text status_proto status_json metricsCodec
              {| handler := fun c q => handler (seen c) q |}
              (withIncoming NewIncomingContext (r "/v1/metrics")))
      /\ (forall handler,
          ServeHTTP (logsMux handler) (r "/v1/logs")
          = proxy_ServeHTTP error_text status_proto status_json logsCodec
              {| handler := fun c q => handler (seen c) q |}
              (withIncoming NewIncomingContext (r "/v1/logs")))).
Proof.
  split; [| split].
  - intros. apply Export_nest.
  - intros ms te me le method headers ctx body mux r.
    repeat split; reflexivity.
  - intros cross inner method headers ctx body seen r traceMux metricsMux logsMux.
    subst seen. repeat split; intros handler.
    + intros req. apply probed_TraceExport.
    + intros req. apply probed_MetricsExport.
    + intros req. apply probed_LogsExport.
    + transitivity
        (proxy_ServeHTTP error_text status_proto status_json traceCodec
           {| handler := grpc_TraceExport (traceMux handler) |}
           (withIncoming NewIncomingContext (r "/v1/traces")));
        [reflexivity |].
      apply proxy_ServeHTTP_ext. intros c q. apply probed_TraceExport.
    + transitivity
        (proxy_ServeHTTP error_text status_proto status_json metricsCodec
           {| handler := grpc_MetricsExport (metricsMux handler) |}
           (withIncoming NewIncomingContext (r "/v1/metrics")));
        [reflexivity |].
      apply proxy_ServeHTTP_ext. intros c q. apply probed_MetricsExport.
    + transitivity
        (proxy_ServeHTTP error_text status_proto status_json logsCodec
           {| handler := grpc_LogsExport (logsMux handler) |}
           (withIncoming NewIncomingContext (r "/v1/logs")));
        [reflexivity |].
      apply proxy_ServeHTTP_ext. intros c q. apply probed_LogsExport.
Qed.

Lemma notFound_status (r : @Request Ctx) :
  StatusCode (notFound status_proto status_json r) = 404.
Proof.
  unfold notFound, errorProto, errorJSON.
  destruct (String.eqb _ "application/x-protobuf").
  - simpl. now destruct (status_proto _).
  - destruct (String.eqb _ "application/json").
    + simpl. now destruct (status_json _).
    + reflexivity.
Qed.

Lemma Export_without_handler {Req Resp : Type}
    (er : @Erasure _ _ _ _ _ _ _ Req Resp) (ms : list MiddlewareFunc)
    (e : entry) (ctx : Ctx) req :
  h e = None ->
  failureCode (Export er ms e ctx req) = Some Unimplemented.
Proof. intros H. unfold Export, getHandler. now rewrite H. Qed.

(** C7, as amended: a signal without a handler answers an export call
    over the binary-RPC transport with Unimplemented; a signal whose
    entry was never created answers an HTTP request for its path with
    404, in the codec of the request's content type when that is
    protobuf or JSON and as plain text otherwise. *)
Theorem absent_handler_responses (mux : ServerMux) (ctx : Ctx)
    (r : @Request Ctx) :
  let st := New NotFound "no handler registered for path" in
  let r' := withIncoming NewIncomingContext r in
  (forall req, hasHandler (trace mux) = false ->
      failureCode (grpc_TraceExport mux ctx req) = Some Unimplemented)
  /\ (forall req, hasHandler (metrics mux) = false ->
      failureCode (grpc_MetricsExport mux ctx req) = Some Unimplemented)
  /\ (forall req, hasHandler (logs mux) = false ->
      failureCode (grpc_LogsExport mux ctx req) = Some Unimplemented)
  /\ (trace mux = None -> Path r = "/v1/traces" ->
      ServeHTTP mux r = Responded (notFound status_proto status_json r'))
  /\ (metrics mux = None -> Path r = "/v1/metrics" ->
      ServeHTTP mux r = Responded (notFound status_proto status_json r'))
  /\ (logs mux = None -> Path r = "/v1/logs" ->
      ServeHTTP mux r = Responded (notFound status_proto status_json r'))
  /\ StatusCode (notFound status_proto status_json r') = 404
  /\ (Header_Get (Headers r) "Content-Type" = "application/x-protobuf" ->
      notFound status_proto status_json r' = errorProto status_proto st)
  /\ (Header_Get (Headers r) "Content-Type" = "application/json" ->
      notFound status_proto status_json r' = errorJSON status_json st)
  /\ (Header_Get (Headers r) "Content-Type" <> "application/x-protobuf" ->
      Header_Get (Headers r) "Content-Type" <> "application/json" ->
      notFound status_proto status_json r' = http_Error "Not Found" 404).
Proof.
  intros st r'. repeat split.
  - intros req H. unfold grpc_TraceExport.
    destruct (trace mux) as [e |]; [| reflexivity].
    apply Export_without_handler. simpl in H. now destruct (h e).
  - intros req H. unfold grpc_MetricsExport.
    destruct (metrics mux) as [e |]; [| reflexivity].
    apply Export_without_handler. simpl in H. now destruct (h e).
  - intros req H. unfold grpc_LogsExport.
    destruct (logs mux) as [e |]; [| reflexivity].
    apply Export_without_handler. simpl in H. now destruct (h e).
  - intros He Hp. unfold Mux.ServeHTTP. simpl. rewrite Hp, He. reflexivity.
  - intros He Hp. unfold Mux.ServeHTTP. simpl. rewrite Hp, He. reflexivity.
  - intros He Hp. unfold Mux.ServeHTTP. simpl. rewrite Hp, He. reflexivity.
  - apply notFound_status.
  - intros Hc. unfold notFound. subst r'. simpl. now rewrite Hc.
  - intros Hc. unfold notFound. subst r'. simpl. now rewrite Hc.
  - intros H1 H2. unfold notFound. subst r'. simpl.
    apply String.eqb_neq in H1, H2. now rewrite H1, H2.
Qed.

End Chains.
End ServerFacts.

Module BridgeFacts.
Import Encoding Grpc Server.

Section Bridge.
Context {Ctx Req Resp : Type}.
Variable error_text : error -> string.
Variable status_proto : Status -> option bytes.
Variable status_json : Status -> option bytes.
Variable codec : @SignalCodec Ctx Req Resp.

(** C8, as amended: a POST with no body and the protobuf content type
    decodes to the fresh request, which goes to the handler, and the
    reply is made from what the handler returns (200 when it returns
    a response that can be marshalled); a POST with no body and the
    JSON content type is not decoded: it is answered with the
    InvalidArgument status, HTTP 400, whatever the handler is. *)
Theorem empty_body_decoding (h : proxyHandler) (r : @Request Ctx) :
  Method r = "POST" ->
  ReadAll r = ReadOK [] ->
  let ctx := Context r in
  let zero := newRequestFunc codec ctx in
  (Header_Get (Headers r) "Content-Type" = "application/x-protobuf" ->
     proto_Unmarshal codec [] zero = Some zero
     /\ proxy_ServeHTTP error_text status_proto status_json codec h r
        = respondProto error_text status_proto codec (handler h ctx zero)
     /\ (forall resp data,
           handler h ctx zero = Ok resp ->
           proto_Marshal codec resp = Some data ->
           proxy_ServeHTTP error_text status_proto status_json codec h r
           = Responded {| StatusCode := 200;
                          ContentType := "application/x-protobuf";
                          Body := data |}))
  /\ (Header_Get (Headers r) "Content-Type" = "application/json" ->
     protojson_Unmarshal codec [] zero = None
     /\ exists resp,
          proxy_ServeHTTP error_text status_proto status_json codec h r
          = Responded resp
          /\ resp = errorJSON status_json
                      (WithErrorInfo
                         (New InvalidArgument "Unable to unmarshal request body")
                         "unmarshal")
          /\ StatusCode resp = 400).
Proof.
  intros Hm Hb ctx zero. split; intros Hc.
  - assert (proxy_ServeHTTP error_text status_proto status_json codec h r
            = respondProto error_text status_proto codec (handler h ctx zero))
      as E.
    { unfold proxy_ServeHTTP, serveHTTPWithProto.
      rewrite Hm, Hc, Hb. reflexivity. }
    repeat split; [exact E |].
    intros resp data Hh Hd. rewrite E, Hh. simpl. now rewrite Hd.
  - split; [reflexivity |].
    eexists. split; [| split; [reflexivity |]].
    + unfold proxy_ServeHTTP, serveHTTPWithJSON.
      rewrite Hm, Hc, Hb. reflexivity.
    + unfold errorJSON. simpl. now destruct (status_json _).
Qed.

End Bridge.
End BridgeFacts.

(** A walk through the fixture server. *)

Module ServerExamples.
Import Encoding Grpc Server Mux ServerFixture.

(** C7, as stated, fails once [mux.Trace()] has been called without a
    handler being installed: the route exists, the bridge decodes the
    request and calls Export, and the Unimplemented status it gets is
    mapped to 501. *)
Lemma route_without_handler_answers_501 :
  hasHandler (trace routeOnly) = false
  /\ exists resp,
       ServeHTTP routeOnly (post "/v1/traces" "application/json" [Byte.x7b; Byte.x7d])
       = Responded resp
       /\ StatusCode resp = 501
       /\ StatusCode resp <> 404.
Proof.
  split; [reflexivity |]. eexists. split; [vm_compute; reflexivity |].
  split; [reflexivity | discriminate].
Qed.

(** The replies of a mux without handlers, on the fixture server. *)
Lemma absent_handler_responses_witness :
  failureCode (grpc_TraceExport routeOnly [] 0) = Some Unimplemented
  /\ failureCode (grpc_MetricsExport routeOnly [] 0) = Some Unimplemented
  /\ ServeHTTP NewServerMux (post "/v1/traces" "application/json" [Byte.x7b; Byte.x7d])
     = Responded (errorJSON status_json
                    (New NotFound "no handler registered for path"))
  /\ ServeHTTP routeOnly (post "/v1/logs" "text/plain" [])
     = Responded (http_Error "Not Found" 404).
Proof.
  pose proof (ServerFacts.absent_handler_responses error_text status_proto
                status_json NewIncomingContext codec codec codec
                routeOnly [] (post "/v1/traces" "application/json" [Byte.x7b; Byte.x7d]))
    as (Ht & Hm & _ & _ & _ & _ & _ & _ & _ & _).
  pose proof (ServerFacts.absent_handler_responses error_text status_proto
                status_json NewIncomingContext codec codec codec
                (NewServerMux : ServerFixture.ServerMux) []
                (post "/v1/traces" "application/json" [Byte.x7b; Byte.x7d]))
    as (_ & _ & _ & Hn & _ & _ & _ & _ & Hj & _).
  pose proof (ServerFacts.absent_handler_responses error_text status_proto
                status_json NewIncomingContext codec codec codec
                routeOnly [] (post "/v1/logs" "text/plain" []))
    as (_ & _ & _ & _ & _ & Hl & _ & _ & _ & Hp).
  split; [apply Ht; reflexivity |].
  split; [apply Hm; reflexivity |].
  split.
  - etransitivity; [exact (Hn eq_refl eq_refl) |].
    f_equal; exact (Hj eq_refl).
  - etransitivity; [exact (Hl eq_refl eq_refl) |].
    f_equal; apply Hp; discriminate.
Defined.

(** C8, as stated, fails for the JSON content type: the empty body is
    answered with 400 and the handler is not called. *)
Lemma empty_json_body_is_rejected :
  exists resp,
    ServeHTTP (Trace_Handle NewServerMux (Some echo))
      (post "/v1/traces" "application/json" [])
    = Responded resp
    /\ StatusCode resp = 400
    /\ (forall handler,
          ServeHTTP (Trace_Handle NewServerMux (Some handler))
            (post "/v1/traces" "application/json" [])
          = Responded resp).
Proof.
  eexists. split; [vm_compute; reflexivity |]. split; [reflexivity |].
  intros handler. reflexivity.
Qed.

(** The two empty-body replies of the bridge, on the fixture codec. *)
Lemma empty_body_decoding_witness :
  proxy_ServeHTTP error_text status_proto status_json codec
    {| handler := echo |} (post "/v1/traces" "application/x-protobuf" [])
  = Responded {| StatusCode := 200;
                 ContentType := "application/x-protobuf"; Body := [] |}
  /\ exists resp,
       proxy_ServeHTTP error_text status_proto status_json codec
         {| handler := echo |} (post "/v1/traces" "application/json" [])
       = Responded resp /\ StatusCode resp = 400.
Proof.
  pose proof (BridgeFacts.empty_body_decoding error_text status_proto
                status_json codec {| handler := echo |}
                (post "/v1/traces" "application/x-protobuf" [])
                eq_refl eq_refl) as [Hp _].
  pose proof (BridgeFacts.empty_body_decoding error_text status_proto
                status_json codec {| handler := echo |}
                (post "/v1/traces" "application/json" [])
                eq_refl eq_refl) as [_ Hj].
  split.
  - destruct (Hp eq_refl) as (_ & _ & H). apply (H 0 []); reflexivity.
  - destruct (Hj eq_refl) as (_ & resp & H1 & _ & H3). now exists resp.
Defined.

End ServerExamples.

(** ** Facts about the client *)

Module ClientFacts.
Import Encoding Grpc Client.

Section Transport.
Context {Conn Ctx Payload : Type}.
Variable sha512_hex : string -> string.
Variable grpc_NewClient : clientSignalsOptions -> Conn + error.
Variable conn_Close : Conn -> option error.
Variable grpc_Export :
  Conn -> Signal -> Ctx -> Payload -> option ExportServiceResponse * option error.
Variable proto_Marshal : Signal -> Payload -> option bytes.
Variable protojson_Marshal : Signal -> Payload -> option bytes.
Variable http_Do : Ctx -> HTTPRequest -> HTTPResponse + error.
Variable proto_Unmarshal : bytes -> option ExportServiceResponse.
Variable protojson_Unmarshal : bytes -> option ExportServiceResponse.

Local Abbreviation Client := (@Client.Client Conn).
Local Abbreviation upload :=
  (Client.upload sha512_hex grpc_Export proto_Marshal protojson_Marshal
     http_Do proto_Unmarshal protojson_Unmarshal).
Local Abbreviation UploadTraces :=
  (Client.UploadTraces sha512_hex grpc_Export proto_Marshal
     protojson_Marshal http_Do proto_Unmarshal protojson_Unmarshal).
Local Abbreviation UploadMetrics :=
  (Client.UploadMetrics sha512_hex grpc_Export proto_Marshal
     protojson_Marshal http_Do proto_Unmarshal protojson_Unmarshal).
Local Abbreviation UploadLogs :=
  (Client.UploadLogs sha512_hex grpc_Export proto_Marshal
     protojson_Marshal http_Do proto_Unmarshal protojson_Unmarshal).
Local Abbreviation Stop := (Client.Stop conn_Close).
Local Abbreviation connHash :=
  (fun so => snd (grpcConnectionInfo sha512_hex so)).

Lemma upload_not_started (sig : Signal) (c : Client) ctx payload :
  isGRPCProtocol (signalOptions (o c) sig) = true ->
  conns c !! connHash (signalOptions (o c) sig) = None ->
  upload sig c ctx payload = Some ErrNotStarted.
Proof.
  intros Hg Hc. unfold Client.upload, uploadWithGRPC. rewrite Hg.
  unfold grpcConnectionInfo in *. simpl in *. now rewrite Hc.
Qed.

Lemma Stop_already_closed (c : Client) ctx_err :
  conns c = ∅ -> snd (Stop c ctx_err) = Some ErrAlreadyClosed.
Proof.
  intros Hc. unfold Client.Stop.
  destruct ctx_err; simpl; rewrite Hc, map_size_empty; reflexivity.
Qed.

(** C9: with the binary-RPC protocol, an upload for a signal whose
    channel is not in the connection table returns the not-started
    error; that is the case of every upload on a client that was
    never started. Stop on a client whose connection table is empty
    returns the already-closed error; that is the case of a client
    that was never started. *)
Theorem lifecycle_errors (c : Client) (opts : clientOptions)
    (ctx : Ctx) (payload : Payload) (ctx_err : option error) :
  (forall sig,
      isGRPCProtocol (signalOptions (o c) sig) = true ->
      conns c !! connHash (signalOptions (o c) sig) = None ->
      upload sig c ctx payload = Some ErrNotStarted)
  /\ (isGRPCProtocol (traces opts) = true ->
      UploadTraces (NewClient opts) ctx payload = Some ErrNotStarted)
  /\ (isGRPCProtocol (metrics opts) = true ->
      UploadMetrics (NewClient opts) ctx payload = Some ErrNotStarted)
  /\ (isGRPCProtocol (logs opts) = true ->
      UploadLogs (NewClient opts) ctx payload = Some ErrNotStarted)
  /\ (conns c = ∅ -> snd (Stop c ctx_err) = Some ErrAlreadyClosed)
  /\ snd (Stop (NewClient opts) ctx_err) = Some ErrAlreadyClosed.
Proof.
  repeat split.
  - intros sig. apply upload_not_started.
  - intros H. apply (upload_not_started Traces (NewClient opts));
      [exact H | apply lookup_empty].
  - intros H. apply (upload_not_started Metrics (NewClient opts));
      [exact H | apply lookup_empty].
  - intros H. apply (upload_not_started Logs (NewClient opts));
      [exact H | apply lookup_empty].
  - apply Stop_already_closed.
  - now apply Stop_already_closed.
Qed.

(** C10: once an export response has been received, over either
    transport, a partial-success message that is present makes the
    upload return the partial-success error of the signal, whatever
    the message holds (a rejected count of zero and an empty text
    included), and the error gives the response back. *)
Theorem partial_success_is_an_error (sig : Signal) (c : Client)
    (ctx : Ctx) (payload : Payload)
    (resp : ExportServiceResponse) (ps : ExportPartialSuccess) :
  PartialSuccess resp = Some ps ->
  let so := signalOptions (o c) sig in
  (forall conn err,
      isGRPCProtocol so = true ->
      conns c !! connHash so = Some (Some conn) ->
      grpc_Export conn sig ctx payload = (Some resp, err) ->
      CodeOf err = OK ->
      upload sig c ctx payload = Some (PartialSuccessError sig resp))
  /\ (forall body hresp respBody,
      isGRPCProtocol so = false ->
      marshalBody proto_Marshal protojson_Marshal sig so payload = Some body ->
      http_Do ctx (httpRequest so body) = inl hresp ->
      resp_StatusCode hresp = 200 ->
      resp_Body hresp = Server.ReadOK respBody ->
      (resp_ContentType hresp = "application/x-protobuf"
       /\ proto_Unmarshal respBody = Some resp
       \/ resp_ContentType hresp = "application/json"
          /\ protojson_Unmarshal respBody = Some resp) ->
      upload sig c ctx payload = Some (PartialSuccessError sig resp))
  /\ Response (PartialSuccessError sig resp) = Some resp.
Proof.
  intros Hps so. repeat split.
  - intros conn err Hg Hc He Hcode.
    unfold Client.upload, uploadWithGRPC. fold so. rewrite Hg.
    unfold grpcConnectionInfo in *. simpl in *. rewrite Hc, He, Hps.
    destruct err as [e |]; [| reflexivity].
    now rewrite Hcode.
  - intros body hresp respBody Hg Hm Hd Hs Hb Hct.
    unfold Client.upload, uploadWithHTTP. fold so.
    rewrite Hg, Hm, Hd, Hs, Hb. simpl.
    destruct Hct as [[-> Hu] | [-> Hu]]; simpl; now rewrite Hu, Hps.
  - now destruct sig.
Qed.

End Transport.

(** A client fresh from NewClient with the grpc protocol. *)
Lemma lifecycle_errors_witness :
  ClientFixture.upload Traces (ClientFixture.NewClient ClientFixture.grpcOptions) tt 3
  = Some ErrNotStarted
  /\ ClientFixture.upload Logs (ClientFixture.NewClient ClientFixture.grpcOptions) tt 3
     = Some ErrNotStarted
  /\ snd (ClientFixture.Stop
            (ClientFixture.NewClient ClientFixture.grpcOptions) None)
     = Some ErrAlreadyClosed.
Proof.
  pose proof (lifecycle_errors ClientFixture.sha512_hex
                ClientFixture.conn_Close ClientFixture.grpc_Export
                ClientFixture.proto_Marshal ClientFixture.protojson_Marshal
                ClientFixture.http_Do ClientFixture.proto_Unmarshal
                ClientFixture.protojson_Unmarshal
                (ClientFixture.NewClient ClientFixture.grpcOptions)
                ClientFixture.grpcOptions tt 3 None)
    as (Hu & Ht & _ & Hl & Hs & _).
  split; [exact (Ht eq_refl) |].
  split; [exact (Hl eq_refl) |].
  exact (Hs eq_refl).
Defined.

(** A collector that accepts everything and still sends an empty
    partial-success message, over gRPC and over HTTP. *)
Lemma partial_success_is_an_error_witness :
  ClientFixture.upload Traces
    (fst (ClientFixture.Start (ClientFixture.NewClient ClientFixture.grpcOptions)))
    tt 3
  = Some (UploadTracesPartialSuccessError ClientFixture.emptyPartialSuccess)
  /\ ClientFixture.upload Metrics
       (ClientFixture.NewClient ClientFixture.httpOptions) tt 3
     = Some (UploadMetricsPartialSuccessError ClientFixture.emptyPartialSuccess)
  /\ Response (UploadLogsPartialSuccessError ClientFixture.emptyPartialSuccess)
     = Some ClientFixture.emptyPartialSuccess.
Proof.
  pose proof (partial_success_is_an_error ClientFixture.sha512_hex
                ClientFixture.grpc_Export
                ClientFixture.proto_Marshal ClientFixture.protojson_Marshal
                ClientFixture.http_Do ClientFixture.proto_Unmarshal
                ClientFixture.protojson_Unmarshal Traces
                (fst (ClientFixture.Start
                        (ClientFixture.NewClient ClientFixture.grpcOptions)))
                tt 3 ClientFixture.emptyPartialSuccess
                {| Rejected := 0; ErrorMessage := "" |} eq_refl)
    as (Hg & _ & _).
  pose proof (partial_success_is_an_error ClientFixture.sha512_hex
                ClientFixture.grpc_Export
                ClientFixture.proto_Marshal ClientFixture.protojson_Marshal
                ClientFixture.http_Do ClientFixture.proto_Unmarshal
                ClientFixture.protojson_Unmarshal Metrics
                (ClientFixture.NewClient ClientFixture.httpOptions)
                tt 3 ClientFixture.emptyPartialSuccess
                {| Rejected := 0; ErrorMessage := "" |} eq_refl)
    as (_ & Hh & _).
  pose proof (partial_success_is_an_error ClientFixture.sha512_hex
                ClientFixture.grpc_Export
                ClientFixture.proto_Marshal ClientFixture.protojson_Marshal
                ClientFixture.http_Do ClientFixture.proto_Unmarshal
                ClientFixture.protojson_Unmarshal Logs
                (ClientFixture.NewClient ClientFixture.httpOptions)
                tt 3 ClientFixture.emptyPartialSuccess
                {| Rejected := 0; ErrorMessage := "" |} eq_refl)
    as (_ & _ & Hr).
  split; [| split; [| exact Hr]].
  - apply (Hg 1 None); reflexivity.
  - apply (Hh (List.repeat Byte.x01 3)
              {| resp_StatusCode := 200;
                 resp_ContentType := "application/x-protobuf";
                 resp_Body := Server.ReadOK [Byte.x7b; Byte.x7d] |}
              [Byte.x7b; Byte.x7d]); try reflexivity.
    left. split; reflexivity.
Defined.

End ClientFacts.

(** ** Further laws of the signal algebra *)

Module SignalLaws.
Import Signal Selectors SignalFacts.

Section Containers.
Context {Resource InstrumentationScope KeyValue : Type}.
Context {Span LogRecord : Type}.
Context {NumberDataPoint SummaryDataPoint HistogramDataPoint
         ExponentialHistogramDataPoint : Type}.

Local Abbreviation ResourceSpans :=
  (@ResourceSpans Resource InstrumentationScope Span).
Local Abbreviation ResourceLogs :=
  (@ResourceLogs Resource InstrumentationScope LogRecord).
Local Abbreviation Metric :=
  (@Metric KeyValue NumberDataPoint SummaryDataPoint HistogramDataPoint
     ExponentialHistogramDataPoint).
Local Abbreviation ResourceMetrics :=
  (@ResourceMetrics Resource InstrumentationScope KeyValue NumberDataPoint
     SummaryDataPoint HistogramDataPoint ExponentialHistogramDataPoint).
Local Abbreviation Leaf := (@Leaf Resource InstrumentationScope).
Local Abbreviation Filter T :=
  (option Resource -> option InstrumentationScope -> option T -> bool).

Lemma passes_nil {Item : Type} (l : Leaf Item) : passes [] l = true.
Proof. reflexivity. Qed.

Lemma passes_app {Item : Type} (fs gs : list (Filter Item)) (l : Leaf Item) :
  passes (fs ++ gs) l = passes fs l && passes gs l.
Proof. unfold passes. apply forallb_app. Qed.

Lemma filter_all {A : Type} (p : A -> bool) (l : list A) :
  (forall x, p x = true) -> List.filter p l = l.
Proof.
  intros Hp. induction l as [| x r IH]; simpl; [reflexivity |].
  rewrite Hp, IH. reflexivity.
Qed.

Lemma filter_twice {A : Type} (p q : A -> bool) (l : list A) :
  List.filter q (List.filter p l) = List.filter (fun x => p x && q x) l.
Proof.
  induction l as [| x r IH]; simpl; [reflexivity |].
  destruct (p x); simpl; [destruct (q x) |]; rewrite IH; reflexivity.
Qed.

Lemma Forall_filter_keeps {A : Type} (P : A -> Prop) (p : A -> bool)
    (l : list A) :
  Forall P l -> Forall P (List.filter p l).
Proof.
  intros H. apply List.Forall_forall. intros x Hx.
  apply List.filter_In in Hx. destruct Hx as [Hx _].
  rewrite List.Forall_forall in H. exact (H x Hx).
Qed.

(** X1. Splitting is idempotent: a list that is already split into
    one-leaf trees is returned as it is, for spans, metrics and logs. *)
Theorem split_is_idempotent :
  (forall src : list (option ResourceSpans),
      SplitResourceSpans (SplitResourceSpans src) = SplitResourceSpans src)
  /\ (forall src : list (option ResourceMetrics),
      SplitResourceMetrics (SplitResourceMetrics src)
      = SplitResourceMetrics src)
  /\ (forall src : list (option ResourceLogs),
      SplitResourceLogs (SplitResourceLogs src) = SplitResourceLogs src).
Proof.
  split; [| split]; intros src.
  - rewrite (SplitResourceSpans_leaves src).
    rewrite SplitResourceSpans_leaves, spanLeaves_trees. reflexivity.
  - rewrite (SplitResourceMetrics_leaves src).
    rewrite SplitResourceMetrics_leaves, metricLeaves_trees; [reflexivity |].
    apply metricLeaves_fixed.
  - rewrite (SplitResourceLogs_leaves src).
    rewrite SplitResourceLogs_leaves, logLeaves_trees. reflexivity.
Qed.

(** X2. The split list has exactly as many trees as the input has
    leaves: the capacity [Total*(src)] that Split* reserves for its
    result is the length the result ends with. *)
Theorem split_length_is_total :
  (forall src : list (option ResourceSpans),
      List.length (SplitResourceSpans src) = TotalSpans src)
  /\ (forall src : list (option ResourceMetrics),
      List.length (SplitResourceMetrics src) = TotalDataPoints src)
  /\ (forall src : list (option ResourceLogs),
      List.length (SplitResourceLogs src) = TotalLogRecords src).
Proof.
  split; [| split]; intros src.
  - rewrite SplitResourceSpans_leaves, TotalSpans_leaves.
    apply List.length_map.
  - rewrite SplitResourceMetrics_leaves, TotalDataPoints_leaves.
    apply List.length_map.
  - rewrite SplitResourceLogs_leaves, TotalLogRecords_leaves.
    apply List.length_map.
Qed.

(** X3. The predicate lists act on Filter as a monoid: filtering with
    no predicate at all keeps every leaf, so the result is the split
    list, and filtering in two passes is filtering once with both
    lists, the predicates being AND-composed across calls as they are
    within one call. *)
Theorem filter_unit_and_composition :
  (forall (src : list (option ResourceSpans)) fs gs,
      FilterResourceSpans src [] = SplitResourceSpans src
      /\ FilterResourceSpans (FilterResourceSpans src fs) gs
         = FilterResourceSpans src (fs ++ gs))
  /\ (forall (src : list (option ResourceMetrics)) fs gs,
      FilterResourceMetrics src [] = SplitResourceMetrics src
      /\ FilterResourceMetrics (FilterResourceMetrics src fs) gs
         = FilterResourceMetrics src (fs ++ gs))
  /\ (forall (src : list (option ResourceLogs)) fs gs,
      FilterResourceLogs src [] = SplitResourceLogs src
      /\ FilterResourceLogs (FilterResourceLogs src fs) gs
         = FilterResourceLogs src (fs ++ gs)).
Proof.
  split; [| split]; intros src fs gs; split.
  - rewrite FilterResourceSpans_leaves, SplitResourceSpans_leaves.
    rewrite filter_all; [reflexivity | apply passes_nil].
  - rewrite (FilterResourceSpans_leaves src fs).
    rewrite !FilterResourceSpans_leaves, spanLeaves_trees, filter_twice.
    f_equal. apply List.filter_ext. intros l. symmetry. apply passes_app.
  - rewrite FilterResourceMetrics_leaves, SplitResourceMetrics_leaves.
    rewrite filter_all; [reflexivity | apply passes_nil].
  - rewrite (FilterResourceMetrics_leaves src fs).
    rewrite !FilterResourceMetrics_leaves, metricLeaves_trees.
    + rewrite filter_twice. f_equal. apply List.filter_ext. intros l.
      symmetry. apply passes_app.
    + apply Forall_filter_keeps, metricLeaves_fixed.
  - rewrite FilterResourceLogs_leaves, SplitResourceLogs_leaves.
    rewrite filter_all; [reflexivity | apply passes_nil].
  - rewrite (FilterResourceLogs_leaves src fs).
    rewrite !FilterResourceLogs_leaves, logLeaves_trees, filter_twice.
    f_equal. apply List.filter_ext. intros l. symmetry. apply passes_app.
Qed.

Lemma TotalSpans_app (a b : list (option ResourceSpans)) :
  TotalSpans (a ++ b) = TotalSpans a + TotalSpans b.
Proof. rewrite !TotalSpans_sum, List.map_app, list_sum_app. reflexivity. Qed.

Lemma TotalDataPoints_app (a b : list (option ResourceMetrics)) :
  TotalDataPoints (a ++ b) = TotalDataPoints a + TotalDataPoints b.
Proof.
  rewrite !TotalDataPoints_sum, List.map_app, list_sum_app. reflexivity.
Qed.

Lemma TotalLogRecords_app (a b : list (option ResourceLogs)) :
  TotalLogRecords (a ++ b) = TotalLogRecords a + TotalLogRecords b.
Proof.
  rewrite !TotalLogRecords_sum, List.map_app, list_sum_app. reflexivity.
Qed.

(** X4. Total, Split and Filter work tree by tree: on the concatenation
    of two lists they give the sum, respectively the concatenation, of
    what they give on each list. *)
Theorem operations_distribute_over_concatenation :
  (forall (a b : list (option ResourceSpans)) fs,
      TotalSpans (a ++ b) = TotalSpans a + TotalSpans b
      /\ SplitResourceSpans (a ++ b)
         = (SplitResourceSpans a ++ SplitResourceSpans b)%list
      /\ FilterResourceSpans (a ++ b) fs
         = (FilterResourceSpans a fs ++ FilterResourceSpans b fs)%list)
  /\ (forall (a b : list (option ResourceMetrics)) fs,
      TotalDataPoints (a ++ b) = TotalDataPoints a + TotalDataPoints b
      /\ SplitResourceMetrics (a ++ b)
         = (SplitResourceMetrics a ++ SplitResourceMetrics b)%list
      /\ FilterResourceMetrics (a ++ b) fs
         = (FilterResourceMetrics a fs ++ FilterResourceMetrics b fs)%list)
  /\ (forall (a b : list (option ResourceLogs)) fs,
      TotalLogRecords (a ++ b) = TotalLogRecords a + TotalLogRecords b
      /\ SplitResourceLogs (a ++ b)
         = (SplitResourceLogs a ++ SplitResourceLogs b)%list
      /\ FilterResourceLogs (a ++ b) fs
         = (FilterResourceLogs a fs ++ FilterResourceLogs b fs)%list).
Proof.
  split; [| split]; intros a b fs; (split; [| split]).
  - apply TotalSpans_app.
  - unfold SplitResourceSpans. apply List.flat_map_app.
  - unfold FilterResourceSpans, SplitResourceSpans.
    rewrite !List.flat_map_app. reflexivity.
  - apply TotalDataPoints_app.
  - unfold SplitResourceMetrics. apply List.flat_map_app.
  - unfold FilterResourceMetrics, SplitResourceMetrics.
    rewrite !List.flat_map_app. reflexivity.
  - apply TotalLogRecords_app.
  - unfold SplitResourceLogs. apply List.flat_map_app.
  - unfold FilterResourceLogs, SplitResourceLogs.
    rewrite !List.flat_map_app. reflexivity.
Qed.

(** The keys of the map the partition loop builds: those the map had,
    and the keys of the elements the loop has seen. *)
Lemma partition_loop_keys {A : Type} (append : list A -> A -> list A)
    (key : A -> string) (k : string) :
  forall (l : list A) (m : gmap string (list A)),
    is_Some (fold_left (fun m elem =>
               <[key elem := append (at_key m (key elem)) elem]> m) l m !! k)
    <-> is_Some (m !! k) \/ In k (List.map key l).
Proof.
  induction l as [| x r IH]; intros m; simpl.
  - split; [intros H; left; exact H | intros [H | []]; exact H].
  - rewrite IH. destruct (decide (key x = k)) as [-> | Hne].
    + rewrite lookup_insert_eq. split; intros _.
      * right. left. reflexivity.
      * left. eexists. reflexivity.
    + rewrite lookup_insert_ne by exact Hne.
      split; intros [H | H]; auto.
      destruct H as [H | H]; [contradiction | auto].
Qed.

Variable Resource_Equal : option Resource -> option Resource -> bool.
Variable Scope_Equal :
  option InstrumentationScope -> option InstrumentationScope -> bool.

(** X5. The keys of a partition are exactly the keys the key function
    gives to the one-leaf trees of the split input: no bucket is created
    for any other key, and no leaf is left without its bucket. *)
Theorem partition_keys_are_split_keys :
  (forall (src : list (option ResourceSpans)) key k,
      is_Some (PartitionResourceSpans Resource_Equal Scope_Equal src key !! k)
      <-> In k (List.map key (SplitResourceSpans src)))
  /\ (forall (src : list (option ResourceMetrics)) key k,
      is_Some (PartitionResourceMetrics Resource_Equal Scope_Equal src key !! k)
      <-> In k (List.map key (SplitResourceMetrics src)))
  /\ (forall (src : list (option ResourceLogs)) key k,
      is_Some (PartitionResourceLogs Resource_Equal Scope_Equal src key !! k)
      <-> In k (List.map key (SplitResourceLogs src))).
Proof.
  split; [| split]; intros src key k.
  - unfold PartitionResourceSpans. rewrite partition_loop_keys.
    rewrite lookup_empty. split; [intros [[v Hv] | H] | intros H].
    + discriminate Hv.
    + exact H.
    + right. exact H.
  - unfold PartitionResourceMetrics. rewrite partition_loop_keys.
    rewrite lookup_empty. split; [intros [[v Hv] | H] | intros H].
    + discriminate Hv.
    + exact H.
    + right. exact H.
  - unfold PartitionResourceLogs. rewrite partition_loop_keys.
    rewrite lookup_empty. split; [intros [[v Hv] | H] | intros H].
    + discriminate Hv.
    + exact H.
    + right. exact H.
Qed.

End Containers.
End SignalLaws.

(** ** Facts about the predefined key functions and range filters *)

Module SelectorFacts.
Import Signal Selectors SignalFacts.

Section KeyFunctions.
Context {Resource InstrumentationScope KeyValue : Type}.
Context {Span LogRecord : Type}.
Context {NumberDataPoint SummaryDataPoint HistogramDataPoint
         ExponentialHistogramDataPoint : Type}.

Variable span_GetStartTimeUnixNano : option Span -> Z.
Variable span_GetEndTimeUnixNano : option Span -> Z.
Variable log_GetTimeUnixNano : option LogRecord -> Z.
Variable log_GetSeverityText : option LogRecord -> string.
Variable number_GetTimeUnixNano : option NumberDataPoint -> Z.
Variable summary_GetTimeUnixNano : option SummaryDataPoint -> Z.
Variable histogram_GetTimeUnixNano : option HistogramDataPoint -> Z.
Variable exponential_GetTimeUnixNano :
  option ExponentialHistogramDataPoint -> Z.

Local Abbreviation ResourceSpans :=
  (@ResourceSpans Resource InstrumentationScope Span).
Local Abbreviation ResourceLogs :=
  (@ResourceLogs Resource InstrumentationScope LogRecord).
Local Abbreviation Metric :=
  (@Metric KeyValue NumberDataPoint SummaryDataPoint HistogramDataPoint
     ExponentialHistogramDataPoint).
Local Abbreviation ResourceMetrics :=
  (@ResourceMetrics Resource InstrumentationScope KeyValue NumberDataPoint
     SummaryDataPoint HistogramDataPoint ExponentialHistogramDataPoint).
Local Abbreviation Leaf := (@Leaf Resource InstrumentationScope).

Local Abbreviation SpanRange :=
  (@SpanInTimeRangeFilter Resource InstrumentationScope Span
     span_GetStartTimeUnixNano span_GetEndTimeUnixNano).
Local Abbreviation LogRange :=
  (@LogRecordInTimeRangeFilter Resource InstrumentationScope LogRecord
     log_GetTimeUnixNano).
Local Abbreviation MetricRange :=
  (@MetricDataPointInTimeRangeFilter Resource InstrumentationScope KeyValue
     NumberDataPoint SummaryDataPoint HistogramDataPoint
     ExponentialHistogramDataPoint number_GetTimeUnixNano
     summary_GetTimeUnixNano histogram_GetTimeUnixNano
     exponential_GetTimeUnixNano).
Local Abbreviation ByMetricType :=
  (@PartitionByMetricType Resource InstrumentationScope KeyValue
     NumberDataPoint SummaryDataPoint HistogramDataPoint
     ExponentialHistogramDataPoint).
Local Abbreviation BySeverityNumber :=
  (@PartitionByLogSeverityNumber Resource InstrumentationScope LogRecord
     log_GetSeverityText).
Local Abbreviation BySeverityText :=
  (@PartitionByLogSeverityText Resource InstrumentationScope LogRecord
     log_GetSeverityText).

Lemma existsb_over_map {A B : Type} (f : B -> bool) (g : A -> B) (l : list A) :
  existsb f (List.map g l) = existsb (fun x => f (g x)) l.
Proof.
  induction l as [| x r IH]; simpl; [reflexivity | rewrite IH; reflexivity].
Qed.

Lemma existsb_same {A : Type} (f g : A -> bool) (l : list A) :
  (forall x, f x = g x) -> existsb f l = existsb g l.
Proof.
  intros H. induction l as [| x r IH]; simpl; [reflexivity |].
  rewrite H, IH. reflexivity.
Qed.

(** Inside two ranges is inside their intersection. *)
Lemma within_both (t s1 e1 s2 e2 : Z) :
  (After t s1 && Before t e1) && (After t s2 && Before t e2)
  = After t (Z.max s1 s2) && Before t (Z.min e1 e2).
Proof.
  unfold After, Before. apply Bool.eq_iff_eq_true.
  rewrite !andb_true_iff, !Z.ltb_lt. lia.
Qed.

(** X6. A metric passes the data-point range filter exactly when one of
    the one-point metrics it splits into does: filtering after the split,
    as FilterResourceMetrics does, loses no metric that has a point in
    the range. *)
Theorem metric_range_filter_looks_through_split
    (start end_ : Time) r s (m : option Metric) :
  MetricRange start end_ r s m
  = existsb (MetricRange start end_ r s) (splitMetrics [m]).
Proof.
  unfold splitMetrics. simpl. rewrite app_nil_r.
  unfold MetricDataPointInTimeRangeFilter at 1.
  destruct (m_GetData m) as [[g | sm | h | e | sm] |]; simpl;
    try reflexivity;
    rewrite existsb_over_map; unfold anyPointInRange;
    apply existsb_same; intros dp;
    unfold MetricDataPointInTimeRangeFilter; simpl;
    rewrite orb_false_r; reflexivity.
Qed.

Lemma onePoint_within_both (parent one : option Metric) s1 e1 s2 e2 r s :
  onePoint parent one ->
  MetricRange s1 e1 r s one && MetricRange s2 e2 r s one
  = MetricRange (Z.max s1 s2) (Z.min e1 e2) r s one.
Proof.
  unfold onePoint.
  destruct (m_GetData parent) as [[g | sm | h | e | sm] |];
    try (intros Hfalse; exact (False_ind _ Hfalse));
    intros (dp & _ & ->);
    unfold MetricDataPointInTimeRangeFilter, anyPointInRange; simpl;
    rewrite !orb_false_r; apply within_both.
Qed.

Lemma metricLeaves_onePoint (src : list (option ResourceMetrics))
    (l : Leaf Metric) :
  In l (metricLeaves src) -> exists parent, onePoint parent (lf_Item l).
Proof.
  intros Hin. apply In_metricLeaves in Hin.
  destruct Hin as (elem & sm & parent & one & _ & _ & _ & Hone & Heq).
  exists parent. unfold metricLeafTree in Heq.
  injection Heq. intros. congruence.
Qed.

(** X7. Filtering by two time ranges keeps what filtering by their
    intersection keeps. For metrics this rests on the filter being run
    on one-point metrics: on a metric with several points the two range
    tests could be met by different points. *)
Theorem range_filters_intersect (s1 e1 s2 e2 : Time) :
  (forall src : list (option ResourceSpans),
      FilterResourceSpans src [SpanRange s1 e1; SpanRange s2 e2]
      = FilterResourceSpans src [SpanRange (Z.max s1 s2) (Z.min e1 e2)])
  /\ (forall src : list (option ResourceMetrics),
      FilterResourceMetrics src [MetricRange s1 e1; MetricRange s2 e2]
      = FilterResourceMetrics src
          [MetricRange (Z.max s1 s2) (Z.min e1 e2)])
  /\ (forall src : list (option ResourceLogs),
      FilterResourceLogs src [LogRange s1 e1; LogRange s2 e2]
      = FilterResourceLogs src [LogRange (Z.max s1 s2) (Z.min e1 e2)]).
Proof.
  split; [| split]; intros src.
  - rewrite !FilterResourceSpans_leaves. f_equal.
    apply List.filter_ext. intros l. unfold passes. simpl.
    rewrite !andb_true_r. unfold SpanInTimeRangeFilter, After, Before.
    apply Bool.eq_iff_eq_true.
    rewrite !andb_true_iff, !Z.ltb_lt. lia.
  - rewrite !FilterResourceMetrics_leaves. f_equal.
    apply List.filter_ext_in. intros l Hin. unfold passes. simpl.
    rewrite !andb_true_r.
    destruct (metricLeaves_onePoint src l Hin) as [parent Hone].
    exact (onePoint_within_both parent _ s1 e1 s2 e2 _ _ Hone).
  - rewrite !FilterResourceLogs_leaves. f_equal.
    apply List.filter_ext. intros l. unfold passes. simpl.
    rewrite !andb_true_r. unfold LogRecordInTimeRangeFilter.
    apply within_both.
Qed.

Lemma onePoint_type_name (parent : option Metric) (l : Leaf Metric) :
  onePoint parent (lf_Item l) ->
  In (ByMetricType (metricLeafTree l)) metricTypeNames.
Proof.
  unfold onePoint, PartitionByMetricType, metricTypeNames. simpl.
  destruct (m_GetData parent) as [[g | sm | h | e | sm] |];
    try (intros Hfalse; exact (False_ind _ Hfalse));
    intros (dp & _ & ->); simpl; auto 10.
Qed.

Lemma split_tree_type_name (src : list (option ResourceMetrics))
    (t : option ResourceMetrics) :
  In t (SplitResourceMetrics src) -> In (ByMetricType t) metricTypeNames.
Proof.
  rewrite SplitResourceMetrics_leaves. intros Hin.
  apply List.in_map_iff in Hin. destruct Hin as (l & <- & Hl).
  destruct (metricLeaves_onePoint src l Hl) as [parent Hone].
  exact (onePoint_type_name parent _ Hone).
Qed.

Variable Resource_Equal : option Resource -> option Resource -> bool.
Variable Scope_Equal :
  option InstrumentationScope -> option InstrumentationScope -> bool.

(** X8. PartitionByMetricType names the shape of every one-point tree:
    each tree of the split list gets one of the five shape names, never
    the empty key, so a partition by metric type has no bucket under any
    other key. *)
Theorem metric_type_keys_are_shape_names
    (src : list (option ResourceMetrics)) :
  Forall (fun t => In (ByMetricType t) metricTypeNames)
    (SplitResourceMetrics src)
  /\ forall k,
       PartitionResourceMetrics Resource_Equal Scope_Equal src ByMetricType
         !! k = None
       \/ In k metricTypeNames.
Proof.
  split.
  - apply List.Forall_forall. intros t Ht.
    exact (split_tree_type_name src t Ht).
  - intros k.
    destruct (PartitionResourceMetrics Resource_Equal Scope_Equal src
                ByMetricType !! k) as [bucket |] eqn:Hk; [right | left; reflexivity].
    assert (Hsome : is_Some (PartitionResourceMetrics Resource_Equal
                               Scope_Equal src ByMetricType !! k))
      by (rewrite Hk; eexists; reflexivity).
    unfold PartitionResourceMetrics in Hsome.
    apply SignalLaws.partition_loop_keys in Hsome.
    destruct Hsome as [[v Hv] | Hin].
    + rewrite lookup_empty in Hv. discriminate Hv.
    + apply List.in_map_iff in Hin. destruct Hin as (t & <- & Ht).
      exact (split_tree_type_name src t Ht).
Qed.

(** X9. Both severity partitioners key a one-record tree by the severity
    text of its record: a partition by severity number has a bucket under
    [k] exactly when some log record of the input has severity text [k],
    and so has a partition by severity text. *)
Theorem severity_partitions_key_by_severity_text
    (src : list (option ResourceLogs)) (k : string) :
  (is_Some (PartitionResourceLogs Resource_Equal Scope_Equal src
              BySeverityNumber !! k)
   <-> In k (List.map (fun l : Leaf LogRecord =>
                 log_GetSeverityText (lf_Item l)) (logLeaves src)))
  /\ (is_Some (PartitionResourceLogs Resource_Equal Scope_Equal src
                 BySeverityText !! k)
      <-> In k (List.map (fun l : Leaf LogRecord =>
                    log_GetSeverityText (lf_Item l)) (logLeaves src))).
Proof.
  split.
  - unfold PartitionResourceLogs. rewrite SignalLaws.partition_loop_keys.
    rewrite lookup_empty, SplitResourceLogs_leaves, List.map_map. simpl.
    split; [intros [[v Hv] | H] | intros H].
    + discriminate Hv.
    + exact H.
    + right. exact H.
  - unfold PartitionResourceLogs. rewrite SignalLaws.partition_loop_keys.
    rewrite lookup_empty, SplitResourceLogs_leaves, List.map_map. simpl.
    split; [intros [[v Hv] | H] | intros H].
    + discriminate Hv.
    + exact H.
    + right. exact H.
Qed.

End KeyFunctions.
End SelectorFacts.

(** ** Further facts about the identifier shim *)

Module CodecLaws.
Import Encoding Codec CodecFacts.

Lemma lower_upper_char (c : ascii) : lower_char (upper_char c) = lower_char c.
Proof. destruct c as [[] [] [] [] [] [] [] []]; reflexivity. Qed.

Lemma lower_lower_char (c : ascii) : lower_char (lower_char c) = lower_char c.
Proof. destruct c as [[] [] [] [] [] [] [] []]; reflexivity. Qed.

Lemma upper_char_underscore (c : ascii) :
  Ascii.eqb (upper_char c) "_" = Ascii.eqb c "_".
Proof. destruct c as [[] [] [] [] [] [] [] []]; reflexivity. Qed.

Lemma lower_char_underscore (c : ascii) :
  Ascii.eqb (lower_char c) "_" = Ascii.eqb c "_".
Proof. destruct c as [[] [] [] [] [] [] [] []]; reflexivity. Qed.

Lemma ToLower_ToUpper (s : string) : ToLower (ToUpper s) = ToLower s.
Proof.
  induction s as [| c r IH]; simpl; [reflexivity |].
  rewrite lower_upper_char, IH. reflexivity.
Qed.

Lemma ToLower_ToLower (s : string) : ToLower (ToLower s) = ToLower s.
Proof.
  induction s as [| c r IH]; simpl; [reflexivity |].
  rewrite lower_lower_char, IH. reflexivity.
Qed.

Lemma RemoveUnderscores_ToUpper (s : string) :
  RemoveUnderscores (ToUpper s) = ToUpper (RemoveUnderscores s).
Proof.
  induction s as [| c r IH]; simpl; [reflexivity |].
  rewrite upper_char_underscore. destruct (Ascii.eqb c "_"); simpl;
    rewrite IH; reflexivity.
Qed.

Lemma RemoveUnderscores_ToLower (s : string) :
  RemoveUnderscores (ToLower s) = ToLower (RemoveUnderscores s).
Proof.
  induction s as [| c r IH]; simpl; [reflexivity |].
  rewrite lower_char_underscore. destruct (Ascii.eqb c "_"); simpl;
    rewrite IH; reflexivity.
Qed.

Lemma RemoveUnderscores_inserted (k1 k2 : string) :
  RemoveUnderscores (k1 +:+ "_" +:+ k2) = RemoveUnderscores (k1 +:+ k2).
Proof.
  induction k1 as [| c r IH]; simpl; [reflexivity |].
  rewrite IH. reflexivity.
Qed.


(** *** Hexadecimal text of a byte string reads back as that string *)

Lemma hex_decode_byte (b : Byte.byte) (s : string) :
  hex_decode (String (hex_digit (N.shiftr (Byte.to_N b) 4))
                (String (hex_digit (N.land (Byte.to_N b) 15)) s))
  = match hex_decode s with Some bs => Some (b :: bs) | None => None end.
Proof. destruct b; reflexivity. Qed.

Lemma hex_decode_byte_upper (b : Byte.byte) (s : string) :
  hex_decode (String (upper_char (hex_digit (N.shiftr (Byte.to_N b) 4)))
                (String (upper_char (hex_digit (N.land (Byte.to_N b) 15))) s))
  = match hex_decode s with Some bs => Some (b :: bs) | None => None end.
Proof. destruct b; reflexivity. Qed.

Lemma hex_decode_encode (bs : bytes) : hex_decode (hex_encode bs) = Some bs.
Proof.
  induction bs as [| b r IH]; [reflexivity |].
  change (hex_encode (b :: r))
    with (String (hex_digit (N.shiftr (Byte.to_N b) 4))
            (String (hex_digit (N.land (Byte.to_N b) 15)) (hex_encode r))).
  rewrite hex_decode_byte, IH. reflexivity.
Qed.

Lemma hex_decode_encode_upper (bs : bytes) :
  hex_decode (ToUpper (hex_encode bs)) = Some bs.
Proof.
  induction bs as [| b r IH]; [reflexivity |].
  change (ToUpper (hex_encode (b :: r)))
    with (String (upper_char (hex_digit (N.shiftr (Byte.to_N b) 4)))
            (String (upper_char (hex_digit (N.land (Byte.to_N b) 15)))
               (ToUpper (hex_encode r)))).
  rewrite hex_decode_byte_upper, IH. reflexivity.
Qed.

(** Four characters for every three bytes or part of them. *)
Lemma length_base64_encode_aux (n : nat) :
  forall bs : bytes, List.length bs <= n ->
    String.length (base64_encode bs) = 4 * ((List.length bs + 2) / 3).
Proof.
  induction n as [| n IH]; intros bs Hle.
  - destruct bs; [reflexivity | simpl in Hle; lia].
  - destruct bs as [| a [| b [| c r]]]; try reflexivity.
    change (String.length (base64_encode (a :: b :: c :: r)))
      with (4 + String.length (base64_encode r)).
    rewrite IH by (simpl in Hle; lia).
    simpl List.length.
    replace (S (S (S (List.length r))) + 2)
      with (List.length r + 2 + 1 * 3) by lia.
    rewrite Nat.div_add by lia. lia.
Qed.

Lemma length_base64_encode (bs : bytes) :
  String.length (base64_encode bs) = 4 * ((List.length bs + 2) / 3).
Proof. apply (length_base64_encode_aux (List.length bs)). lia. Qed.

Lemma idSize_cases (k : string) (n : nat) :
  idSize k = Some n ->
  keyIsTraceIDOrSpanID k = (16, 24, true) /\ n = 16
  \/ keyIsTraceIDOrSpanID k = (8, 12, true) /\ n = 8.
Proof.
  unfold idSize.
  destruct (keyIsTraceIDOrSpanID_cases k) as [H | [H | H]]; rewrite H;
    intros Heq; [left | right | discriminate Heq];
    injection Heq as <-; split; reflexivity.
Qed.

(** What the decoding loop stores for an identifier key whose value is
    the hexadecimal text of as many bytes as the key asks for. *)
Lemma hexToBase64Entry_converts (rec : json -> logged json) (k s : string)
    (n : nat) (bs : bytes) :
  idSize k = Some n -> List.length bs = n -> hex_decode s = Some bs ->
  hexToBase64Entry rec k (JString s) = (JString (base64_encode bs), []).
Proof.
  intros Hk Hlen Hdec. unfold hexToBase64Entry.
  destruct (idSize_cases k n Hk) as [[-> ->] | [-> ->]];
    rewrite Hdec, length_base64_encode, Hlen; reflexivity.
Qed.

(** What it stores when the text is not hexadecimal, or is the
    hexadecimal text of another number of bytes. *)
Lemma hexToBase64Entry_rejects (rec : json -> logged json) (k s : string)
    (n : nat) :
  idSize k = Some n ->
  (forall bs, hex_decode s = Some bs -> List.length bs <> n) ->
  exists w, hexToBase64Entry rec k (JString s) = (JString s, [w]).
Proof.
  intros Hk Hbad. unfold hexToBase64Entry.
  destruct (idSize_cases k n Hk) as [[-> ->] | [-> ->]];
    destruct (hex_decode s) as [bs |] eqn:Hdec;
    try (eexists; reflexivity);
    specialize (Hbad bs eq_refl);
    apply Nat.eqb_neq in Hbad; rewrite Hbad; simpl; eexists; reflexivity.
Qed.

Lemma ForMap_around (m1 m2 : list (string * json)) (k : string) (v : json) :
  convertTraceIDAndSpanIDHexToBase64ForMap (m1 ++ (k, v) :: m2)
  = let r1 := convertTraceIDAndSpanIDHexToBase64ForMap m1 in
    let r2 := convertTraceIDAndSpanIDHexToBase64ForMap m2 in
    let e := hexToBase64Entry convertTraceIDAndSpanIDHexToBase64ForAny k v in
    ((fst r1 ++ (k, fst e) :: fst r2)%list,
     (snd r1 ++ snd e ++ snd r2)%list).
Proof.
  unfold convertTraceIDAndSpanIDHexToBase64ForMap, collect. simpl.
  rewrite !List.map_app. simpl. rewrite List.concat_app. reflexivity.
Qed.

(** X11. Decoding turns a well-formed identifier into the base64 text of
    the same bytes: under a key that names a trace id (span id), the
    hexadecimal text of sixteen (eight) bytes, in lower or in upper case,
    is replaced by the padded base64 text of those bytes, no warning is
    logged for it, and the entries around it are converted on their own. *)
Theorem decoder_converts_hex_identifiers (k s : string) (n : nat)
    (bs : bytes) (m1 m2 : list (string * json)) :
  idSize k = Some n -> List.length bs = n ->
  s = hex_encode bs \/ s = ToUpper (hex_encode bs) ->
  convertTraceIDAndSpanIDHexToBase64ForMap (m1 ++ (k, JString s) :: m2)
  = let r1 := convertTraceIDAndSpanIDHexToBase64ForMap m1 in
    let r2 := convertTraceIDAndSpanIDHexToBase64ForMap m2 in
    ((fst r1 ++ (k, JString (base64_encode bs)) :: fst r2)%list,
     (snd r1 ++ snd r2)%list).
Proof.
  intros Hk Hlen Hs. rewrite ForMap_around. cbv zeta.
  rewrite (hexToBase64Entry_converts _ k s n bs Hk Hlen).
  - reflexivity.
  - destruct Hs as [-> | ->];
      [apply hex_decode_encode | apply hex_decode_encode_upper].
Qed.

(** X12. Decoding is tolerant of a malformed identifier: when the text
    under an identifier key is not hexadecimal, or holds another number
    of bytes than the key asks for, the text is left as it is, exactly one
    warning is logged for it, and the rest of the object is converted
    as usual. *)
Theorem decoder_leaves_malformed_identifiers (k s : string) (n : nat)
    (m1 m2 : list (string * json)) :
  idSize k = Some n ->
  (forall bs, hex_decode s = Some bs -> List.length bs <> n) ->
  exists w,
    convertTraceIDAndSpanIDHexToBase64ForMap (m1 ++ (k, JString s) :: m2)
    = let r1 := convertTraceIDAndSpanIDHexToBase64ForMap m1 in
      let r2 := convertTraceIDAndSpanIDHexToBase64ForMap m2 in
      ((fst r1 ++ (k, JString s) :: fst r2)%list,
       (snd r1 ++ [w] ++ snd r2)%list).
Proof.
  intros Hk Hbad.
  destruct (hexToBase64Entry_rejects
              convertTraceIDAndSpanIDHexToBase64ForAny k s n Hk Hbad)
    as [w Hw].
  exists w. rewrite ForMap_around. cbv zeta. rewrite Hw. reflexivity.
Qed.

Local Abbreviation decode := convertTraceIDAndSpanIDHexToBase64ForAny.

Lemma fst_entry_other (k : string) (v : json) :
  match v with JString _ => False | _ => True end ->
  fst (hexToBase64Entry decode k v) = fst (decode v).
Proof.
  intros Hv. unfold hexToBase64Entry.
  destruct (keyIsTraceIDOrSpanID k) as [[hexBytes base64Bytes] []];
    [| reflexivity].
  destruct v as [| b | lit | s | l | m]; try contradiction;
    destruct (decode _) as [v' w]; reflexivity.
Qed.

Lemma decode_keeps_kind (v : json) :
  match v with JString _ => False | _ => True end ->
  match fst (decode v) with JString _ => False | _ => True end.
Proof. destruct v; simpl; auto. Qed.

Lemma hexToBase64Entry_settles (k : string) (v : json) :
  fst (decode (fst (decode v))) = fst (decode v) ->
  fst (hexToBase64Entry decode k (fst (hexToBase64Entry decode k v)))
  = fst (hexToBase64Entry decode k v).
Proof.
  intros IH.
  assert (Hother : match v with JString _ => False | _ => True end ->
            fst (hexToBase64Entry decode k (fst (hexToBase64Entry decode k v)))
            = fst (hexToBase64Entry decode k v)).
  { intros Hv. rewrite (fst_entry_other k v Hv).
    rewrite (fst_entry_other k _ (decode_keeps_kind v Hv)). exact IH. }
  destruct v as [| b | lit | s | l | m]; try (apply Hother; exact I).
  clear Hother. unfold hexToBase64Entry.
  destruct (keyIsTraceIDOrSpanID_cases k) as [Hk | [Hk | Hk]]; rewrite Hk;
    [| | reflexivity].
  - destruct (hex_decode s) as [bs |] eqn:Hdec; simpl; [| rewrite Hdec; reflexivity].
    destruct (Nat.eqb_spec (List.length bs) 16) as [Hlen | Hlen]; simpl;
      [| rewrite Hdec; apply Nat.eqb_neq in Hlen; rewrite Hlen; reflexivity].
    rewrite length_base64_encode, Hlen. simpl.
    rewrite (hex_decode_pad (base64_encode bs)); [reflexivity |].
    apply base64_encode_pad. rewrite Hlen. discriminate.
  - destruct (hex_decode s) as [bs |] eqn:Hdec; simpl; [| rewrite Hdec; reflexivity].
    destruct (Nat.eqb_spec (List.length bs) 8) as [Hlen | Hlen]; simpl;
      [| rewrite Hdec; apply Nat.eqb_neq in Hlen; rewrite Hlen; reflexivity].
    rewrite length_base64_encode, Hlen. simpl.
    rewrite (hex_decode_pad (base64_encode bs)); [reflexivity |].
    apply base64_encode_pad. rewrite Hlen. discriminate.
Qed.

(** X13. The decoding conversion settles after one pass: run on its own
    result it changes nothing more. An identifier it has turned into
    base64 is not mistaken for hexadecimal text the second time, because
    the base64 text of sixteen or of eight bytes ends in padding. *)
Theorem decoder_conversion_is_idempotent (t : json) :
  fst (convertTraceIDAndSpanIDHexToBase64ForAny
         (fst (convertTraceIDAndSpanIDHexToBase64ForAny t)))
  = fst (convertTraceIDAndSpanIDHexToBase64ForAny t).
Proof.
  induction t as [| b | lit | s | l IH | m IH] using json_nested_ind;
    try reflexivity.
  - simpl. f_equal. rewrite !List.map_map.
    induction IH as [| x r Hx Hr IHr]; simpl; [reflexivity |].
    rewrite Hx, IHr. reflexivity.
  - simpl. f_equal. rewrite !List.map_map. simpl.
    induction IH as [| kv r Hkv Hr IHr]; simpl; [reflexivity |].
    rewrite (hexToBase64Entry_settles (fst kv) (snd kv) Hkv), IHr.
    reflexivity.
Qed.

(** The identifiers of the fixture testdata/trace.json, in the OTLP JSON
    form, around a name. *)
Lemma decoder_converts_hex_identifiers_witness :
  convertTraceIDAndSpanIDHexToBase64ForMap
    ([("name", JString "I'm a server span")]
     ++ ("trace_id", JString "5B8EFFF798038103D269B633813FC60C")
     :: [("kind", JNumber "2")])
  = ([("name", JString "I'm a server span");
      ("trace_id", JString "W47/95gDgQPSabYzgT/GDA==");
      ("kind", JNumber "2")], []).
Proof.
  exact (decoder_converts_hex_identifiers "trace_id"
           "5B8EFFF798038103D269B633813FC60C" 16
           (SpanWire.TraceId SpanWire.fixture_span)
           [("name", JString "I'm a server span")] [("kind", JNumber "2")]
           eq_refl eq_refl (or_intror eq_refl)).
Defined.

(** A trace id that holds fifteen bytes, and one that is no hexadecimal
    text at all. *)
Lemma decoder_leaves_malformed_identifiers_witness :
  (exists w,
     convertTraceIDAndSpanIDHexToBase64ForMap
       ([] ++ ("traceId", JString "5B8EFFF798038103D269B633813FC6") :: [])
     = ([("traceId", JString "5B8EFFF798038103D269B633813FC6")], [w]))
  /\ (exists w,
        convertTraceIDAndSpanIDHexToBase64ForMap
          ([] ++ ("spanId", JString "not-an-id") :: [])
        = ([("spanId", JString "not-an-id")], [w])).
Proof.
  split.
  - apply (decoder_leaves_malformed_identifiers "traceId"
             "5B8EFFF798038103D269B633813FC6" 16 [] [] eq_refl).
    intros bs Hbs. vm_compute in Hbs. injection Hbs as <-.
    vm_compute. discriminate.
  - apply (decoder_leaves_malformed_identifiers "spanId" "not-an-id" 8
             [] [] eq_refl).
    intros bs Hbs. vm_compute in Hbs. discriminate Hbs.
Defined.

End CodecLaws.

(** ** Further facts about the HTTP bridge *)

Module BridgeLaws.
Import Encoding Grpc Server.

(** X14. The status map sends OK, and no other code, to 200: every other
    gRPC code, the unknown ones included, becomes a 4xx or 5xx status. *)
Theorem only_OK_maps_to_200 (code : Code) :
  (grpcCodeToHTTPStatus code = 200 <-> code = OK)
  /\ (code = OK \/ 400 <= grpcCodeToHTTPStatus code <= 504).
Proof.
  split.
  - split; [| intros ->; reflexivity].
    destruct code; simpl; intros H; try reflexivity; discriminate H.
  - destruct code; simpl; [left; reflexivity | right; lia ..].
Qed.

Section Bridge.
Context {Ctx Req Resp : Type}.
Variable error_text : error -> string.
Variable status_proto : Status -> option bytes.
Variable status_json : Status -> option bytes.
Variable codec : @SignalCodec Ctx Req Resp.

Local Abbreviation proxy_ServeHTTP :=
  (@proxy_ServeHTTP Ctx error_text status_proto status_json Req Resp codec).

Lemma errorProto_status (st : Status) :
  StatusCode (errorProto status_proto st) = grpcCodeToHTTPStatus (st_Code st).
Proof. unfold errorProto. destruct (status_proto st); reflexivity. Qed.

Lemma errorJSON_status (st : Status) :
  StatusCode (errorJSON status_json st) = grpcCodeToHTTPStatus (st_Code st).
Proof. unfold errorJSON. destruct (status_json st); reflexivity. Qed.

Local Abbreviation reaches := (@BridgeSpec.reaches Ctx Req Resp codec).


(** X16. The reply is written in the codec of the request: whenever the
    bridge answers, the content type of the answer is the content type of
    the request, or else it is the plain-text fallback (used for 405, for
    415, and when a status cannot be marshalled). *)
Theorem reply_uses_request_codec (h : proxyHandler) (r : @Request Ctx)
    (resp : Response) :
  proxy_ServeHTTP h r = Responded resp ->
  ContentType resp = Header_Get (Headers r) "Content-Type"
  \/ ContentType resp = "text/plain; charset=utf-8".
Proof.
  unfold Server.proxy_ServeHTTP.
  destruct (negb _); [intros [= <-]; right; reflexivity |].
  destruct (String.eqb_spec (Header_Get (Headers r) "Content-Type")
              "application/x-protobuf") as [Hc | _].
  - rewrite Hc. unfold serveHTTPWithProto, respondProto, errorProto.
    destruct (ReadAll r) as [body | reason].
    + destruct (proto_Unmarshal codec body _) as [req |].
      * destruct (handler h _ req) as [a | [st | msg | errs] |]; simpl;
          try discriminate;
          repeat match goal with
                 | |- context [match ?x with _ => _ end] => destruct x
                 end;
          intros [= <-]; simpl; auto.
      * destruct (status_proto _); intros [= <-]; simpl; auto.
    + destruct (status_proto _); intros [= <-]; simpl; auto.
  - destruct (String.eqb_spec (Header_Get (Headers r) "Content-Type")
                "application/json") as [Hc | _];
      [| intros [= <-]; right; reflexivity].
    rewrite Hc. unfold serveHTTPWithJSON, respondJSON, errorJSON.
    destruct (ReadAll r) as [body | reason].
    + destruct (protojson_Unmarshal codec body _) as [req |].
      * destruct (handler h _ req) as [a | [st | msg | errs] |]; simpl;
          try discriminate;
          repeat match goal with
                 | |- context [match ?x with _ => _ end] => destruct x
                 end;
          intros [= <-]; simpl; auto.
      * destruct (status_json _); intros [= <-]; simpl; auto.
    + destruct (status_json _); intros [= <-]; simpl; auto.
Qed.


End Bridge.
End BridgeLaws.

(** ** Further facts about the multiplexer *)

Module MuxLaws.
Import Encoding Grpc Server Mux ServerFacts.

Section Chains.
Context {Ctx : Type}.
Context {TraceRequest TraceResponse : Type}.
Context {MetricsRequest MetricsResponse : Type}.
Context {LogsRequest LogsResponse : Type}.
Context {OtherMessage : Type}.

Local Abbreviation Message :=
  (@Message TraceRequest TraceResponse MetricsRequest MetricsResponse
     LogsRequest LogsResponse OtherMessage).
Local Abbreviation ProtoHandlerFunc :=
  (@ProtoHandlerFunc Ctx TraceRequest TraceResponse MetricsRequest
     MetricsResponse LogsRequest LogsResponse OtherMessage).
Local Abbreviation MiddlewareFunc :=
  (@MiddlewareFunc Ctx TraceRequest TraceResponse MetricsRequest
     MetricsResponse LogsRequest LogsResponse OtherMessage).
Local Abbreviation ServerMux :=
  (@ServerMux Ctx TraceRequest TraceResponse MetricsRequest MetricsResponse
     LogsRequest LogsResponse OtherMessage).

Lemma nest_app (a b : list MiddlewareFunc) (k : ProtoHandlerFunc) :
  nest (a ++ b) k = nest a (nest b k).
Proof. unfold nest. apply List.fold_right_app. Qed.

Lemma nest_entry_app {Req Resp : Type}
    (a b : list (@EntryMiddlewareFunc Ctx Req Resp)) (k : Handler) :
  nest (a ++ b) k = nest a (nest b k).
Proof. unfold nest. apply List.fold_right_app. Qed.

(** X18. A middleware that answers with an error instead of calling the
    next handler ends the call there: whatever is registered after it,
    in the cross-signal layer or, for a per-signal middleware, in the
    per-signal layer, and the handler itself, is never consulted, and
    the caller gets exactly that error. *)
Theorem rejecting_middleware_ends_the_call {Req Resp : Type}
    (er : @Erasure _ _ _ _ _ _ _ Req Resp)
    (before : list (Ctx -> Ctx)) (e : error) (ctx : Ctx) (req : Req) :
  (forall (after : list MiddlewareFunc) (entry : entry) (handler : Handler),
      h entry = Some handler ->
      Export er
        (List.map probe before ++ (fun _ _ _ => Fail e) :: after)%list
        entry ctx req
      = Fail e)
  /\ (asRequest er (ofRequest er req) = Some req ->
      forall (cross : list (Ctx -> Ctx)) (after : list EntryMiddlewareFunc)
             (handler : Handler),
        Export er (List.map probe cross)
          {| middlewares :=
               (List.map entryProbe before ++ (fun _ _ _ => Fail e) :: after)%list;
             h := Some handler |} ctx req
        = Fail e).
Proof.
  split.
  - intros after [ems hd] handler Hh. simpl in Hh. subst hd.
    rewrite Export_nest, nest_app, nest_probes. reflexivity.
  - intros Her cross after handler.
    rewrite Export_nest, nest_probes. unfold erased. rewrite Her.
    rewrite nest_entry_app, nest_entryProbes. reflexivity.
Qed.

(** X19. The two type assertions of Export: a cross-signal middleware
    that answers with a message of another type than the response of the
    signal makes the call fail with Internal, and one that hands a
    message of another type than the request of the signal to the next
    handler makes the call panic. *)
Theorem export_type_assertions {Req Resp : Type}
    (er : @Erasure _ _ _ _ _ _ _ Req Resp)
    (before : list (Ctx -> Ctx)) (after : list MiddlewareFunc)
    (ems : list EntryMiddlewareFunc) (handler : Handler)
    (m : Message) (ctx : Ctx) (req : Req) :
  (asResponse er m = None ->
   Export er (List.map probe before ++ (fun _ _ _ => Ok m) :: after)%list
     {| middlewares := ems; h := Some handler |} ctx req
   = Fail (StatusError (New Internal "unexpected response type")))
  /\ (asRequest er m = None ->
      Export er
        (List.map probe before ++ [fun next c _ => next c m])%list
        {| middlewares := ems; h := Some handler |} ctx req
      = Panic).
Proof.
  split; intros Hm.
  - rewrite Export_nest, nest_app, nest_probes. simpl. rewrite Hm.
    reflexivity.
  - rewrite Export_nest, nest_app, nest_probes. simpl. unfold erased.
    rewrite Hm. reflexivity.
Qed.

End Chains.
End MuxLaws.

(** ** Further facts about the client lifecycle *)

Module ClientLaws.
Import Encoding Grpc Client ClientFacts.

#[local] Set Warnings "-clear-no-such-hyp".

Section Transport.
Context {Conn Ctx Payload : Type}.
Variable sha512_hex : string -> string.
Variable grpc_NewClient : clientSignalsOptions -> Conn + error.
Variable conn_Close : Conn -> option error.
Variable grpc_Export :
  Conn -> Signal -> Ctx -> Payload -> option ExportServiceResponse * option error.
Variable proto_Marshal : Signal -> Payload -> option bytes.
Variable protojson_Marshal : Signal -> Payload -> option bytes.
Variable http_Do : Ctx -> HTTPRequest -> HTTPResponse + error.
Variable proto_Unmarshal : bytes -> option ExportServiceResponse.
Variable protojson_Unmarshal : bytes -> option ExportServiceResponse.

Local Abbreviation Client := (@Client.Client Conn).
Local Abbreviation upload :=
  (Client.upload sha512_hex grpc_Export proto_Marshal protojson_Marshal
     http_Do proto_Unmarshal protojson_Unmarshal).
Local Abbreviation Start := (Client.Start sha512_hex grpc_NewClient).
Local Abbreviation startGRPC := (Client.startGRPC sha512_hex grpc_NewClient).
Local Abbreviation Stop := (Client.Stop conn_Close).
Local Abbreviation connHash :=
  (fun so => snd (grpcConnectionInfo sha512_hex so)).

(** The client satisfies what NewClient establishes and Start keeps:
    every connection in the table is a real one, and a stop context is
    kept for exactly the fingerprints that have a connection. *)
Local Abbreviation sound c :=
  ((forall k, conns c !! k <> Some None)
   /\ (dom (stopContexts c) : gset string) = dom (conns c)).

(** One signal of Start took the client from [a] to [b]. *)
Local Abbreviation started sig a b :=
  (isGRPCProtocol (signalOptions (o a) sig) = true
   /\ startGRPC a (signalOptions (o a) sig) = (b, None)
   \/ isGRPCProtocol (signalOptions (o a) sig) = false /\ b = a).

(** The fingerprints Start adds for one signal. *)
Local Abbreviation wanted opts sig :=
  (if isGRPCProtocol (signalOptions opts sig)
   then ({[ connHash (signalOptions opts sig) ]} : gset string) else ∅).

Ltac only_channels :=
  clear conn_Close grpc_Export proto_Marshal protojson_Marshal http_Do
        proto_Unmarshal protojson_Unmarshal.

Lemma startGRPC_ok (a b : Client) (so : clientSignalsOptions) :
  startGRPC a so = (b, None) ->
  o b = o a
  /\ (dom (conns b) : gset string) = dom (conns a) ∪ {[ connHash so ]}
  /\ (sound a -> sound b).
Proof.
  only_channels.
  unfold Client.startGRPC, grpcConnectionInfo. simpl.
  destruct (conns a !! _) as [present |] eqn:Hc.
  - intros [= <-]. split; [reflexivity |]. split; [| auto].
    apply elem_of_dom_2 in Hc. set_solver.
  - destruct (grpc_NewClient so) as [conn | err]; [| discriminate].
    intros [= <-]. simpl. split; [reflexivity |]. split.
    + rewrite dom_insert_L. set_solver.
    + intros [Hreal Hdom]. split.
      * intros k. destruct (decide (k = sha512_hex
          (endpoint_Host so +:+ userAgent so
           +:+ (if negb (String.eqb (endpoint_Scheme so) "https")
                then "insecure" else "tls")
           +:+ (if gzip so then "gzip" else "")))) as [-> | Hne].
        -- rewrite lookup_insert_eq. discriminate.
        -- rewrite lookup_insert_ne by (intros Heq; apply Hne; symmetry; exact Heq).
           apply Hreal.
      * rewrite !dom_insert_L, Hdom. reflexivity.
Qed.

Lemma startGRPC_present (c : Client) (so : clientSignalsOptions) :
  connHash so ∈ (dom (conns c) : gset string) ->
  startGRPC c so = (c, None).
Proof.
  intros Hin. apply elem_of_dom in Hin. destruct Hin as [x Hx].
  unfold Client.startGRPC, grpcConnectionInfo in *. simpl in *.
  rewrite Hx. reflexivity.
Qed.

Lemma started_ok (sig : Signal) (a b : Client) :
  started sig a b ->
  o b = o a
  /\ (dom (conns b) : gset string) = dom (conns a) ∪ wanted (o a) sig
  /\ (sound a -> sound b).
Proof.
  only_channels.
  intros [[Hg Hs] | [Hg ->]]; rewrite Hg.
  - apply startGRPC_ok. exact Hs.
  - split; [reflexivity |]. split; [set_solver | auto].
Qed.

Lemma Start_steps (c c' : Client) :
  Start c = (c', None) ->
  exists c1 c2,
    started Traces c c1 /\ started Metrics c1 c2 /\ started Logs c2 c'.
Proof.
  unfold Client.Start.
  destruct (isGRPCProtocol (signalOptions (o c) Traces)) eqn:Ht.
  - destruct (Client.startGRPC _ _ c _) as [c1 [e |]] eqn:H1; [discriminate |].
    destruct (isGRPCProtocol (signalOptions (o c1) Metrics)) eqn:Hm.
    + destruct (Client.startGRPC _ _ c1 _) as [c2 [e |]] eqn:H2; [discriminate |].
      destruct (isGRPCProtocol (signalOptions (o c2) Logs)) eqn:Hl.
      * destruct (Client.startGRPC _ _ c2 _) as [c3 [e |]] eqn:H3; [discriminate |].
        intros [= <-]. exists c1, c2. auto 10.
      * intros [= <-]. exists c1, c2. auto 10.
    + destruct (isGRPCProtocol (signalOptions (o c1) Logs)) eqn:Hl.
      * destruct (Client.startGRPC _ _ c1 _) as [c3 [e |]] eqn:H3; [discriminate |].
        intros [= <-]. exists c1, c1. auto 10.
      * intros [= <-]. exists c1, c1. auto 10.
  - destruct (isGRPCProtocol (signalOptions (o c) Metrics)) eqn:Hm.
    + destruct (Client.startGRPC _ _ c _) as [c2 [e |]] eqn:H2; [discriminate |].
      destruct (isGRPCProtocol (signalOptions (o c2) Logs)) eqn:Hl.
      * destruct (Client.startGRPC _ _ c2 _) as [c3 [e |]] eqn:H3; [discriminate |].
        intros [= <-]. exists c, c2. auto 10.
      * intros [= <-]. exists c, c2. auto 10.
    + destruct (isGRPCProtocol (signalOptions (o c) Logs)) eqn:Hl.
      * destruct (Client.startGRPC _ _ c _) as [c3 [e |]] eqn:H3; [discriminate |].
        intros [= <-]. exists c, c. auto 10.
      * intros [= <-]. exists c, c. auto 10.
Qed.

Lemma Start_ok (c c' : Client) :
  Start c = (c', None) ->
  o c' = o c
  /\ (dom (conns c') : gset string)
     = dom (conns c) ∪ (wanted (o c) Traces ∪ wanted (o c) Metrics
                        ∪ wanted (o c) Logs)
  /\ (sound c -> sound c').
Proof.
  only_channels.
  intros H. destruct (Start_steps c c' H) as (c1 & c2 & H1 & H2 & H3).
  apply started_ok in H1, H2, H3.
  destruct H1 as (Ho1 & Hd1 & Hs1), H2 as (Ho2 & Hd2 & Hs2),
    H3 as (Ho3 & Hd3 & Hs3).
  rewrite Ho2, Ho1 in Hd3. rewrite Ho1 in Hd2.
  split; [congruence |]. split; [| auto].
  rewrite Hd3, Hd2, Hd1. set_solver.
Qed.

(** X20. Start opens one channel per fingerprint. After a successful
    Start on a new client the connection table holds exactly the
    fingerprints of the signals that use gRPC: signals with the same
    fingerprint share one entry, signals with different fingerprints have
    one each, and a signal that uses HTTP adds none. Every entry is a real
    connection and has its stop context. *)
Theorem Start_opens_one_channel_per_fingerprint (opts : clientOptions)
    (c' : Client) :
  Start (NewClient opts) = (c', None) ->
  (dom (conns c') : gset string)
  = list_to_set
      (List.map (fun sig => connHash (signalOptions opts sig))
         (List.filter (fun sig => isGRPCProtocol (signalOptions opts sig))
            [Traces; Metrics; Logs]))
  /\ (dom (stopContexts c') : gset string) = dom (conns c')
  /\ (forall k, conns c' !! k <> Some None)
  /\ o c' = opts.
Proof.
  only_channels.
  intros H. apply Start_ok in H. destruct H as (Ho & Hd & Hs).
  assert (Hnew : sound (NewClient opts : Client)).
  { split; [intros k; simpl; rewrite lookup_empty; discriminate |].
    simpl. rewrite !dom_empty_L. reflexivity. }
  destruct (Hs Hnew) as [Hreal Hstop].
  split; [| split; [exact Hstop | split; [exact Hreal | exact Ho]]].
  rewrite Hd. simpl.
  destruct (isGRPCProtocol (traces opts)),
           (isGRPCProtocol (metrics opts)),
           (isGRPCProtocol (logs opts)); simpl; set_solver.
Qed.

(** X21. Start is idempotent, and it does nothing for HTTP: a second
    Start after a successful one changes nothing and dials nothing, and
    on a client none of whose signals uses gRPC Start succeeds without
    any change. *)
Theorem Start_is_idempotent (c c' : Client) :
  (Start c = (c', None) -> Start c' = (c', None))
  /\ ((forall sig, isGRPCProtocol (signalOptions (o c) sig) = false) ->
      Start c = (c, None)).
Proof.
  only_channels. split.
  - intros H. apply Start_ok in H. destruct H as (Ho & Hd & _).
    assert (Hin : forall sig,
               isGRPCProtocol (signalOptions (o c') sig) = true ->
               connHash (signalOptions (o c') sig)
               ∈ (dom (conns c') : gset string)).
    { intros sig Hg. rewrite Ho in *. rewrite Hd.
      destruct sig; rewrite Hg; set_solver. }
    unfold Client.Start.
    destruct (isGRPCProtocol (signalOptions (o c') Traces)) eqn:Ht;
      [rewrite (startGRPC_present c' _ (Hin Traces Ht)) |];
      (destruct (isGRPCProtocol (signalOptions (o c') Metrics)) eqn:Hm;
       [rewrite (startGRPC_present c' _ (Hin Metrics Hm)) |]);
      (destruct (isGRPCProtocol (signalOptions (o c') Logs)) eqn:Hl;
       [rewrite (startGRPC_present c' _ (Hin Logs Hl)) |]);
      reflexivity.
  - intros Hhttp. unfold Client.Start.
    rewrite (Hhttp Traces), (Hhttp Metrics), (Hhttp Logs). reflexivity.
Qed.

Lemma Stop_empties (c : Client) (ctx_err : option error) :
  conns (fst (Stop c ctx_err)) = ∅.
Proof.
  unfold Client.Stop.
  destruct ctx_err as [e |]; simpl;
    destruct (Nat.eqb_spec (size (conns c)) 0) as [Hz | Hnz]; simpl;
    try reflexivity; apply map_size_empty_iff; exact Hz.
Qed.

(** X22. Stop leaves nothing open, whatever it returns: the connection
    table is empty afterwards, so every later Stop returns the
    already-closed error and every later upload of a gRPC signal returns
    the not-started error. *)
Theorem Stop_leaves_nothing_open (c : Client) (ctx_err : option error) :
  let c' := fst (Stop c ctx_err) in
  conns c' = ∅
  /\ o c' = o c
  /\ (forall again, snd (Stop c' again) = Some ErrAlreadyClosed)
  /\ (forall sig ctx payload,
        isGRPCProtocol (signalOptions (o c) sig) = true ->
        upload sig c' ctx payload = Some ErrNotStarted).
Proof.
  intros c'. assert (He : conns c' = ∅) by apply Stop_empties.
  assert (Ho : o c' = o c).
  { subst c'. unfold Client.Stop.
    destruct ctx_err; simpl; destruct (Nat.eqb _ 0); reflexivity. }
  split; [exact He |]. split; [exact Ho |]. split.
  - intros again. apply Stop_already_closed. exact He.
  - intros sig ctx payload Hg. apply upload_not_started.
    + rewrite Ho. exact Hg.
    + rewrite He. apply lookup_empty.
Qed.

(** X23. An HTTP signal does not depend on the lifecycle: its upload
    gives the same result on any two clients with the same options,
    whatever their connection tables hold, so it works before Start and
    after Stop alike. *)
Theorem http_upload_ignores_the_lifecycle (sig : Signal) (c c' : Client)
    (ctx : Ctx) (payload : Payload) :
  o c = o c' ->
  isGRPCProtocol (signalOptions (o c) sig) = false ->
  upload sig c ctx payload = upload sig c' ctx payload.
Proof.
  intros Ho Hg. unfold Client.upload. rewrite <- Ho, Hg.
  unfold uploadWithHTTP. rewrite <- Ho. reflexivity.
Qed.

(** X24. An HTTP upload reports success only for a clean 200: when it
    returns no error the body was marshalled and sent, the reply had
    status 200 and a readable body, its content type was protobuf or
    JSON, the body decoded in that codec, and the decoded response
    carried no partial-success message. *)
Theorem http_upload_succeeds_only_on_clean_200 (sig : Signal) (c : Client)
    (ctx : Ctx) (payload : Payload) :
  isGRPCProtocol (signalOptions (o c) sig) = false ->
  upload sig c ctx payload = None ->
  let so := signalOptions (o c) sig in
  exists body hresp respBody resp,
    marshalBody proto_Marshal protojson_Marshal sig so payload = Some body
    /\ http_Do ctx (httpRequest so body) = inl hresp
    /\ resp_StatusCode hresp = 200
    /\ resp_Body hresp = Server.ReadOK respBody
    /\ (resp_ContentType hresp = "application/x-protobuf"
        /\ proto_Unmarshal respBody = Some resp
        \/ resp_ContentType hresp = "application/json"
           /\ protojson_Unmarshal respBody = Some resp)
    /\ PartialSuccess resp = None.
Proof.
  intros Hg H so. unfold Client.upload in H. rewrite Hg in H.
  unfold uploadWithHTTP in H. fold so in H.
  destruct (marshalBody _ _ sig so payload) as [body |]; [| discriminate].
  destruct (http_Do ctx _) as [hresp | e] eqn:Hdo; [| discriminate].
  destruct (Nat.eqb_spec (resp_StatusCode hresp) 200) as [Hs | _];
    [| discriminate].
  simpl in H.
  destruct (resp_Body hresp) as [respBody | reason] eqn:Hb; [| discriminate].
  exists body, hresp, respBody.
  destruct (String.eqb_spec (resp_ContentType hresp) "application/x-protobuf")
    as [Hc | _].
  - destruct (proto_Unmarshal respBody) as [resp |] eqn:Hu; [| discriminate].
    exists resp. destruct (PartialSuccess resp) eqn:Hp; [discriminate |].
    auto 10.
  - destruct (String.eqb_spec (resp_ContentType hresp) "application/json")
      as [Hc | _]; [| discriminate].
    destruct (protojson_Unmarshal respBody) as [resp |] eqn:Hu;
      [| discriminate].
    exists resp. destruct (PartialSuccess resp) eqn:Hp; [discriminate |].
    auto 10.
Qed.

End Transport.
End ClientLaws.

(** ** Facts about the client options *)

Module OptionFacts.
Import Options.

Lemma strings_Split_nonempty (sep : ascii) (s : string) :
  strings_Split sep s <> [].
Proof.
  destruct s as [| c r]; simpl; [discriminate |].
  destruct (Ascii.eqb c sep); [discriminate |].
  destruct (strings_Split sep r); discriminate.
Qed.

Lemma strings_Split_piece (sep : ascii) (p : string) :
  occurs sep p = false -> strings_Split sep p = [p].
Proof.
  induction p as [| c r IH]; simpl; [reflexivity |].
  intros H. apply orb_false_iff in H. destruct H as [Hc Hr].
  rewrite Hc, (IH Hr). reflexivity.
Qed.

Lemma strings_Split_joined (sep : ascii) (p rest : string) :
  occurs sep p = false ->
  strings_Split sep (p +:+ String sep rest) = p :: strings_Split sep rest.
Proof.
  induction p as [| c r IH]; simpl.
  - intros _. rewrite Ascii.eqb_refl. reflexivity.
  - intros H. apply orb_false_iff in H. destruct H as [Hc Hr].
    rewrite Hc, (IH Hr). reflexivity.
Qed.

Lemma append_associative (a b c : string) :
  (a +:+ b) +:+ c = a +:+ b +:+ c.
Proof.
  induction a as [| d r IH]; [reflexivity |].
  change (String d ((r +:+ b) +:+ c) = String d (r +:+ b +:+ c)).
  rewrite IH. reflexivity.
Qed.

Lemma occurs_app (c : ascii) (a b : string) :
  occurs c (a +:+ b) = occurs c a || occurs c b.
Proof.
  induction a as [| d r IH]; simpl; [reflexivity |].
  rewrite IH, orb_assoc. reflexivity.
Qed.

Lemma cutFirst_joined (sep : ascii) (k v : string) :
  occurs sep k = false ->
  cutFirst sep (k +:+ String sep v) = Some (k, v).
Proof.
  induction k as [| c r IH]; simpl.
  - intros _. rewrite Ascii.eqb_refl. reflexivity.
  - intros H. apply orb_false_iff in H. destruct H as [Hc Hr].
    rewrite Hc, (IH Hr). reflexivity.
Qed.

Lemma cutFirst_occurs (sep : ascii) (s : string) :
  occurs sep s = true <-> exists before after, cutFirst sep s = Some (before, after).
Proof.
  induction s as [| c r IH]; simpl.
  - split; [discriminate | intros (b & a & H); discriminate H].
  - destruct (Ascii.eqb c sep); simpl.
    + split; [intros _; eauto | reflexivity].
    + rewrite IH. split.
      * intros (b & a & ->). eauto.
      * intros (b & a & H).
        destruct (cutFirst sep r) as [[b' a'] |]; [eauto | discriminate H].
Qed.

(** One header as it is written in a header string. *)
Local Abbreviation written kv := (fst kv +:+ "=" +:+ snd kv).

(** The loop of parseHeadersString. *)
Local Abbreviation parseLoop :=
  (fold_left (fun (acc : gmap string string + OptionError) part =>
     match acc with
     | inr err => inr err
     | inl h =>
         match strings_SplitN2 "=" part with
         | [k; v] => inl (<[k := v]> h)
         | _ => inr (HeaderInvalid part)
         end
     end)).

Lemma parseLoop_refused (parts : list string) (err : OptionError) :
  parseLoop parts (inr err) = inr err.
Proof. induction parts as [| p r IH]; simpl; [reflexivity | exact IH]. Qed.

Lemma parseLoop_written (kvs : list (string * string)) :
  Forall (fun kv => occurs "=" (fst kv) = false) kvs ->
  forall h,
    parseLoop (List.map (fun kv => written kv) kvs) (inl h)
    = inl (fold_left (fun h kv => <[fst kv := snd kv]> h) kvs h).
Proof.
  induction 1 as [| [k v] r Hk Hr IH]; intros h; simpl; [reflexivity |].
  unfold strings_SplitN2.
  change (k +:+ "=" +:+ v) with (k +:+ String "=" v).
  rewrite (cutFirst_joined "=" k v Hk). apply IH.
Qed.

Lemma strings_Split_headersString (kvs : list (string * string)) :
  kvs <> [] ->
  Forall (fun kv => occurs "," (fst kv) = false
                    /\ occurs "," (snd kv) = false) kvs ->
  strings_Split "," (headersString kvs)
  = List.map (fun kv => written kv) kvs.
Proof.
  intros Hne H. induction H as [| [k v] r [Hk Hv] Hr IH]; [contradiction |].
  simpl in Hk, Hv.
  assert (Hp : occurs "," (k +:+ "=" +:+ v) = false).
  { rewrite !occurs_app, Hk, Hv. reflexivity. }
  destruct r as [| kv2 r'].
  - simpl. apply strings_Split_piece. exact Hp.
  - change (headersString ((k, v) :: kv2 :: r'))
      with (k +:+ "=" +:+ v +:+ "," +:+ headersString (kv2 :: r')).
    replace (k +:+ "=" +:+ v +:+ "," +:+ headersString (kv2 :: r'))
      with ((k +:+ "=" +:+ v) +:+ String "," (headersString (kv2 :: r'))).
    + rewrite (strings_Split_joined "," _ _ Hp), IH by discriminate.
      reflexivity.
    + rewrite !append_associative. reflexivity.
Qed.

(** X25. parseHeadersString reads a header string back: for headers
    whose keys hold no comma and no equals sign and whose values hold no
    comma, the string [k1=v1,k2=v2,...] is parsed into the map of these
    headers, a later header replacing an earlier one of the same key.
    Values may hold equals signs. *)
Theorem parseHeadersString_reads_back (kvs : list (string * string)) :
  kvs <> [] ->
  Forall (fun kv => occurs "," (fst kv) = false
                    /\ occurs "=" (fst kv) = false
                    /\ occurs "," (snd kv) = false) kvs ->
  parseHeadersString (headersString kvs)
  = inl (fold_left (fun h kv => <[fst kv := snd kv]> h) kvs ∅).
Proof.
  intros Hne H. unfold parseHeadersString.
  rewrite strings_Split_headersString.
  - apply parseLoop_written. eapply Forall_impl; [exact H |].
    intros kv (_ & Hk & _). exact Hk.
  - exact Hne.
  - eapply Forall_impl; [exact H |]. intros kv (Hc & _ & Hv). auto.
Qed.

Lemma parseLoop_accepts (parts : list string) :
  forall h,
    (exists h', parseLoop parts (inl h) = inl h')
    <-> Forall (fun part => occurs "=" part = true) parts.
Proof.
  induction parts as [| p r IH]; intros h; simpl.
  - split; [intros _; constructor | intros _; eauto].
  - unfold strings_SplitN2.
    destruct (cutFirst "=" p) as [[before after] |] eqn:Hcut.
    + rewrite IH. split.
      * intros Hr. constructor; [| exact Hr].
        apply cutFirst_occurs. eauto.
      * intros Hall. inversion Hall; assumption.
    + rewrite parseLoop_refused. split.
      * intros [h' Hh']. discriminate Hh'.
      * intros Hall. inversion Hall as [| ? ? Hp _]; subst.
        apply cutFirst_occurs in Hp. destruct Hp as (b & a & Hp).
        rewrite Hp in Hcut. discriminate Hcut.
Qed.

(** X26. parseHeadersString accepts a string exactly when every piece
    between its commas holds an equals sign; the empty string, whose one
    piece is empty, is refused. *)
Theorem parseHeadersString_wants_pairs (s : string) :
  ((exists h, parseHeadersString s = inl h)
   <-> Forall (fun part => occurs "=" part = true) (strings_Split "," s))
  /\ parseHeadersString "" = inr (HeaderInvalid "").
Proof.
  split; [apply parseLoop_accepts | reflexivity].
Qed.

(** What the copying loop leaves under a key: the signal's own value
    when it has one, the base value otherwise. *)
Lemma copyMissing_lookup (own base : gmap string string) (k : string) :
  copyMissing own base !! k
  = match own !! k with Some v => Some v | None => base !! k end.
Proof.
  unfold copyMissing.
  apply (map_fold_weak_ind
           (fun (r : gmap string string) (m : gmap string string) =>
              r !! k = match own !! k with Some v => Some v | None => m !! k end)).
  - rewrite lookup_empty. destruct (own !! k); reflexivity.
  - intros i x m r Hi IH.
    destruct (decide (i = k)) as [-> | Hne].
    + rewrite lookup_insert_eq.
      destruct (r !! k) as [v |] eqn:Hr.
      * rewrite Hr. rewrite Hi in IH. destruct (own !! k); congruence.
      * rewrite lookup_insert_eq. rewrite Hi in IH.
        destruct (own !! k); congruence.
    + rewrite (lookup_insert_ne m i k x Hne).
      destruct (r !! i); [exact IH |].
      rewrite lookup_insert_ne by exact Hne. exact IH.
Qed.

Lemma copyMissing_again (own base : gmap string string) :
  copyMissing (copyMissing own base) base = copyMissing own base.
Proof.
  apply map_eq. intros k. rewrite !copyMissing_lookup.
  destruct (own !! k); [reflexivity |]. destruct (base !! k); reflexivity.
Qed.

Section Build.
Context {URL HTTPClient : Type}.
Variable JoinPath : URL -> string -> URL.
Variable defaultUserAgent : string.
Variable DefaultClient : HTTPClient.

Local Abbreviation clientSignalsOptions :=
  (@clientSignalsOptions URL HTTPClient).
Local Abbreviation clientOptions := (@clientOptions URL HTTPClient).
Local Abbreviation fillDefaults := (@fillDefaults URL HTTPClient JoinPath).
Local Abbreviation build :=
  (@build URL HTTPClient JoinPath defaultUserAgent DefaultClient).
Local Abbreviation sharedDefaults :=
  (@sharedDefaults URL HTTPClient defaultUserAgent DefaultClient).

(** The shared options fillDefaults reads. *)
Local Abbreviation sameShared o1 o2 :=
  (endpoint o1 = endpoint o2 /\ protocol o1 = protocol o2
   /\ userAgent o1 = userAgent o2 /\ headers o1 = headers o2
   /\ gzip o1 = gzip o2 /\ exportTimeout o1 = exportTimeout o2
   /\ httpClient o1 = httpClient o2).

Lemma fillDefaults_shared (so : clientSignalsOptions) (o1 o2 : clientOptions) :
  sameShared o1 o2 -> fillDefaults so o1 = fillDefaults so o2.
Proof.
  intros (He & Hp & Hu & Hh & Hg & Ht & Hc). unfold Options.fillDefaults.
  rewrite He, Hp, Hu, Hh, Hg, Ht, Hc. reflexivity.
Qed.

(** What a signal looks like once fillDefaults has returned it. *)
Lemma fillDefaults_Done (so so' : clientSignalsOptions) (o : clientOptions) :
  fillDefaults so o = Done so' ->
  so_signalType so' = so_signalType so
  /\ so_protocol so'
     = (if String.eqb (so_protocol so) "" then protocol o else so_protocol so)
  /\ slices_Contains allowedProtocols (so_protocol so') = true
  /\ so_gzip so' = match so_gzip so with None => gzip o | Some g => Some g end
  /\ so_httpClient so'
     = match so_httpClient so with
       | None => httpClient o
       | Some client => Some client
       end
  /\ is_Some (so_endpoint so')
  /\ so_headers so'
     = Some (copyMissing (entries (so_headers so)) (entries (headers o))).
Proof.
  unfold Options.fillDefaults.
  destruct (slices_Contains allowedProtocols _) eqn:Hp; simpl;
    [| discriminate].
  destruct (so_endpoint so) as [u |].
  - intros [= <-]. simpl. repeat split; auto; eexists; reflexivity.
  - destruct (String.prefix "http/" _).
    + destruct (endpoint o) as [base |]; [| discriminate].
      intros [= <-]. simpl. repeat split; auto; eexists; reflexivity.
    + destruct (endpoint o) as [base |]; [| discriminate].
      intros [= <-]. simpl. repeat split; auto; eexists; reflexivity.
Qed.

Lemma settle_string (own base : string) :
  (if String.eqb (if String.eqb own "" then base else own) ""
   then base else if String.eqb own "" then base else own)
  = (if String.eqb own "" then base else own).
Proof.
  destruct (String.eqb own "") eqn:Ho; [destruct (String.eqb base ""); reflexivity |].
  rewrite Ho. reflexivity.
Qed.

Lemma settle_Z (own base : Z) :
  (if Z.eqb (if Z.eqb own 0 then base else own) 0
   then base else if Z.eqb own 0 then base else own)
  = (if Z.eqb own 0 then base else own).
Proof.
  destruct (Z.eqb own 0) eqn:Ho; [destruct (Z.eqb base 0); reflexivity |].
  rewrite Ho. reflexivity.
Qed.

Lemma settle_option {A : Type} (own base : option A) :
  match match own with None => base | Some x => Some x end with
  | None => base
  | Some x => Some x
  end
  = match own with None => base | Some x => Some x end.
Proof. destruct own, base; reflexivity. Qed.

(** A signal that fillDefaults has returned is returned as it is when
    it is filled again from the same shared options. *)
Lemma fillDefaults_settles (so so' : clientSignalsOptions) (o : clientOptions) :
  fillDefaults so o = Done so' -> fillDefaults so' o = Done so'.
Proof.
  unfold Options.fillDefaults.
  destruct (slices_Contains allowedProtocols
              (if String.eqb (so_protocol so) "" then protocol o
               else so_protocol so)) eqn:Hp; simpl; [| discriminate].
  assert (Hagain : forall u,
    Options.fillDefaults JoinPath
      {| so_gzip := match so_gzip so with None => gzip o | Some g => Some g end;
         so_userAgent :=
           if String.eqb (so_userAgent so) "" then userAgent o
           else so_userAgent so;
         so_signalType := so_signalType so;
         so_endpoint := Some u;
         so_protocol :=
           if String.eqb (so_protocol so) "" then protocol o
           else so_protocol so;
         so_exportTimeout :=
           if Z.eqb (so_exportTimeout so) 0 then exportTimeout o
           else so_exportTimeout so;
         so_headers :=
           Some (copyMissing (entries (so_headers so)) (entries (headers o)));
         so_httpClient :=
           match so_httpClient so with
           | None => httpClient o
           | Some client => Some client
           end |} o
    = Done
      {| so_gzip := match so_gzip so with None => gzip o | Some g => Some g end;
         so_userAgent :=
           if String.eqb (so_userAgent so) "" then userAgent o
           else so_userAgent so;
         so_signalType := so_signalType so;
         so_endpoint := Some u;
         so_protocol :=
           if String.eqb (so_protocol so) "" then protocol o
           else so_protocol so;
         so_exportTimeout :=
           if Z.eqb (so_exportTimeout so) 0 then exportTimeout o
           else so_exportTimeout so;
         so_headers :=
           Some (copyMissing (entries (so_headers so)) (entries (headers o)));
         so_httpClient :=
           match so_httpClient so with
           | None => httpClient o
           | Some client => Some client
           end |}).
  { intros u. unfold Options.fillDefaults.
    cbn [so_gzip so_userAgent so_signalType so_endpoint so_protocol
         so_exportTimeout so_headers so_httpClient].
    rewrite (settle_string (so_protocol so) (protocol o)), Hp.
    cbn [negb].
    rewrite (settle_string (so_userAgent so) (userAgent o)).
    rewrite (settle_Z (so_exportTimeout so) (exportTimeout o)).
    rewrite (settle_option (so_gzip so) (gzip o)).
    rewrite (settle_option (so_httpClient so) (httpClient o)).
    change (entries (Some (copyMissing (entries (so_headers so))
                             (entries (headers o)))))
      with (copyMissing (entries (so_headers so)) (entries (headers o))).
    rewrite copyMissing_again. reflexivity. }
  destruct (so_endpoint so) as [u |].
  - intros [= <-]. apply Hagain.
  - destruct (String.prefix "http/" _).
    + destruct (endpoint o) as [base |]; [| discriminate].
      intros [= <-]. apply Hagain.
    + destruct (endpoint o) as [base |]; [| discriminate].
      intros [= <-]. apply Hagain.
Qed.

Lemma withSignalType_same (so : clientSignalsOptions) :
  withSignalType so (so_signalType so) = so.
Proof. destruct so; reflexivity. Qed.

(** build, with the shared options read once: fillDefaults reads
    nothing of the other signals. *)
Lemma build_unfold (o : clientOptions) :
  build o
  = let d := sharedDefaults o in
    match fillDefaults (withSignalType (traces o) "traces") d with
    | Refused err => Refused err
    | NilDereference => NilDereference
    | Done t =>
        match fillDefaults (withSignalType (metrics o) "metrics") d with
        | Refused err => Refused err
        | NilDereference => NilDereference
        | Done m =>
            match fillDefaults (withSignalType (logs o) "logs") d with
            | Refused err => Refused err
            | NilDereference => NilDereference
            | Done l => Done (withSignals d t m l)
            end
        end
    end.
Proof. reflexivity. Qed.

(** The three calls of fillDefaults behind a successful build. *)
Lemma build_Done (o o' : clientOptions) :
  build o = Done o' ->
  let d := sharedDefaults o in
  sameShared o' d
  /\ fillDefaults (withSignalType (traces o) "traces") d = Done (traces o')
  /\ fillDefaults (withSignalType (metrics o) "metrics") d = Done (metrics o')
  /\ fillDefaults (withSignalType (logs o) "logs") d = Done (logs o').
Proof.
  rewrite build_unfold. cbv zeta. intros H.
  destruct (fillDefaults (withSignalType (traces o) "traces") _)
    as [t | |]; try discriminate.
  destruct (fillDefaults (withSignalType (metrics o) "metrics") _)
    as [m | |]; try discriminate.
  destruct (fillDefaults (withSignalType (logs o) "logs") _)
    as [l | |]; try discriminate.
  injection H as <-. simpl. auto 10.
Qed.

(** X27. After a successful build nothing a later step reads is left
    unset: each signal has one of the three allowed protocols, a gzip
    flag, an HTTP client, an endpoint and a header map that are not nil,
    and carries its own signal name. *)
Theorem build_leaves_nothing_unset (o o' : clientOptions) :
  build o = Done o' ->
  Forall (fun entry : string * clientSignalsOptions =>
            so_signalType (snd entry) = fst entry
            /\ In (so_protocol (snd entry)) allowedProtocols
            /\ is_Some (so_gzip (snd entry))
            /\ is_Some (so_httpClient (snd entry))
            /\ is_Some (so_endpoint (snd entry))
            /\ is_Some (so_headers (snd entry)))
    (signals o').
Proof.
  intros H. apply build_Done in H. destruct H as (_ & Ht & Hm & Hl).
  assert (Hone : forall so so' name,
    fillDefaults (withSignalType so name) (sharedDefaults o) = Done so' ->
    so_signalType so' = name
    /\ In (so_protocol so') allowedProtocols
    /\ is_Some (so_gzip so') /\ is_Some (so_httpClient so')
    /\ is_Some (so_endpoint so') /\ is_Some (so_headers so')).
  { intros so so' name Hf. apply fillDefaults_Done in Hf.
    destruct Hf as (Hs & _ & Hp & Hg & Hc & He & Hh).
    split; [exact Hs |]. split.
    - unfold slices_Contains in Hp. apply List.existsb_exists in Hp.
      destruct Hp as (p & Hin & Heq). apply String.eqb_eq in Heq.
      subst p. exact Hin.
    - rewrite Hg, Hc, Hh. simpl.
      repeat split; try exact He; try (eexists; reflexivity);
        destruct (so_gzip so), (so_httpClient so), (gzip o), (httpClient o);
        eexists; reflexivity. }
  unfold signals.
  repeat (apply List.Forall_cons; [eapply Hone; eassumption |]).
  apply List.Forall_nil.
Qed.

(** X28. Signal headers win over shared headers: after a successful
    build the header map of each signal holds, under every key, the
    value the signal was given for it, and the shared value when the
    signal was given none. *)
Theorem build_merges_headers (o o' : clientOptions) (k : string) :
  build o = Done o' ->
  let merged (own : clientSignalsOptions) :=
    match entries (so_headers own) !! k with
    | Some v => Some v
    | None => entries (headers o) !! k
    end in
  entries (so_headers (traces o')) !! k = merged (traces o)
  /\ entries (so_headers (metrics o')) !! k = merged (metrics o)
  /\ entries (so_headers (logs o')) !! k = merged (logs o).
Proof.
  intros H merged. apply build_Done in H. destruct H as (_ & Ht & Hm & Hl).
  apply fillDefaults_Done in Ht, Hm, Hl.
  destruct Ht as (_ & _ & _ & _ & _ & _ & Ht),
           Hm as (_ & _ & _ & _ & _ & _ & Hm),
           Hl as (_ & _ & _ & _ & _ & _ & Hl).
  rewrite Ht, Hm, Hl. subst merged. simpl.
  rewrite !copyMissing_lookup. auto.
Qed.

Lemma sharedDefaults_again (d o' : clientOptions) :
  sameShared o' (sharedDefaults d) -> sameShared (sharedDefaults o') o'.
Proof.
  intros (He & Hp & Hu & Hh & Hg & Ht & Hc). simpl in *.
  repeat split.
  - rewrite Hp. destruct (String.eqb (protocol d) "") eqn:E;
      [reflexivity | rewrite E; reflexivity].
  - rewrite Hu. destruct (String.eqb (userAgent d) "") eqn:E.
    + destruct (String.eqb defaultUserAgent ""); reflexivity.
    + rewrite E. reflexivity.
  - rewrite Hg. destruct (gzip d); reflexivity.
  - rewrite Hc. destruct (httpClient d); reflexivity.
Qed.


(** X30. A missing endpoint: when neither the shared options nor the
    traces signal carry an endpoint, build refuses with the
    endpoint-required error if the traces protocol is gRPC; with an
    HTTP-family protocol it does not get that far, because joining the
    signal path dereferences the nil shared endpoint. *)
Theorem build_without_any_endpoint (o : clientOptions) :
  endpoint o = None ->
  so_endpoint (traces o) = None ->
  let shared := if String.eqb (protocol o) "" then "grpc" else protocol o in
  let p :=
    if String.eqb (so_protocol (traces o)) "" then shared
    else so_protocol (traces o) in
  In p allowedProtocols ->
  build o
  = if String.prefix "http/" p then NilDereference
    else Refused (EndpointRequired "traces").
Proof.
  intros He Hs shared p Hp. rewrite build_unfold. cbv zeta.
  unfold Options.fillDefaults. simpl.
  fold shared. fold p. rewrite He, Hs.
  assert (Hc : slices_Contains allowedProtocols p = true).
  { unfold slices_Contains. apply List.existsb_exists. exists p.
    split; [exact Hp | apply String.eqb_refl]. }
  unfold slices_Contains in Hc. simpl in Hc. rewrite Hc. simpl.
  destruct (String.prefix "http/" p); reflexivity.
Qed.

End Build.
End OptionFacts.

(** ** The further facts at the fixtures *)

Module BridgeExamples.
Import Encoding Grpc Server Mux ServerFixture.

(** A handler that turns every call down. *)
Local Abbreviation denied :=
  {| handler := fun (_ : Ctx) (_ : Req) =>
       @Fail Resp (StatusError (New PermissionDenied "denied")) |}.


(** The reply to a JSON POST that the echo handler accepts is JSON. *)
Lemma reply_uses_request_codec_witness :
  let resp := {| StatusCode := 200; ContentType := "application/json";
                 Body := [Byte.x01; Byte.x01] |} in
  proxy_ServeHTTP error_text status_proto status_json codec
    {| handler := echo |}
    (post "/v1/traces" "application/json" [Byte.x7b; Byte.x7d])
  = Responded resp
  /\ (ContentType resp = "application/json"
      \/ ContentType resp = "text/plain; charset=utf-8").
Proof.
  intros resp. split; [reflexivity |].
  apply (BridgeLaws.reply_uses_request_codec error_text status_proto
           status_json codec {| handler := echo |}
           (post "/v1/traces" "application/json" [Byte.x7b; Byte.x7d])
           resp).
  reflexivity.
Defined.


(** A cross-signal middleware, and a per-signal one, that answer
    Unauthenticated in front of the echo handler. *)
Lemma rejecting_middleware_ends_the_call_witness :
  let e := StatusError (New Unauthenticated "no api key") in
  let er := @traceErasure Req Resp Req Resp Req Resp unit in
  Export er [probe (cons "outer"); fun _ _ _ => Fail e; probe (cons "late")]
    {| middlewares := []; h := Some echo |} [] 3
  = Fail e
  /\ Export er [probe (cons "outer")]
       {| middlewares := [entryProbe (cons "outer"); fun _ _ _ => Fail e];
          h := Some echo |} [] 3
     = Fail e.
Proof.
  intros e er.
  destruct (MuxLaws.rejecting_middleware_ends_the_call er [cons "outer"] e
              ([] : Ctx) 3) as [Hcross Hentry].
  split.
  - exact (Hcross [probe (cons "late")]
             {| middlewares := []; h := Some echo |} echo eq_refl).
  - exact (Hentry eq_refl [cons "outer"] [] echo).
Defined.

(** A cross-signal middleware that answers a trace export with a
    metrics response, and one that hands a metrics request on. *)
Lemma export_type_assertions_witness :
  let er := @traceErasure Req Resp Req Resp Req Resp unit in
  Export er [probe (cons "outer"); fun _ _ _ => Ok (MsgMetricsResponse 0)]
    {| middlewares := []; h := Some echo |} [] 3
  = Fail (StatusError (New Internal "unexpected response type"))
  /\ Export er
       [probe (cons "outer"); fun next c _ => next c (MsgMetricsRequest 3)]
       {| middlewares := []; h := Some echo |} [] 3
     = Panic.
Proof.
  intros er.
  destruct (MuxLaws.export_type_assertions er [cons "outer"] [] [] echo
              (MsgMetricsResponse 0) ([] : Ctx) 3) as [Hresp _].
  destruct (MuxLaws.export_type_assertions er [cons "outer"] [] [] echo
              (MsgMetricsRequest 3) ([] : Ctx) 3) as [_ Hreq].
  split; [exact (Hresp eq_refl) | exact (Hreq eq_refl)].
Defined.

End BridgeExamples.

Module ClientExamples.
Import Encoding Grpc Client.

(** Three gRPC signals, the logs compressed: two channels. *)
Lemma Start_opens_one_channel_per_fingerprint_witness :
  let c' := fst (ClientFixture.Start
                   (ClientFixture.NewClient QuietCollector.logsCompressed)) in
  ((dom (conns c') : gset string)
   = list_to_set
       (List.map (fun sig =>
            snd (grpcConnectionInfo ClientFixture.sha512_hex
                   (signalOptions QuietCollector.logsCompressed sig)))
          (List.filter (fun sig =>
               isGRPCProtocol (signalOptions QuietCollector.logsCompressed sig))
             [Traces; Metrics; Logs]))
   /\ (dom (stopContexts c') : gset string) = dom (conns c')
   /\ (forall k, conns c' !! k <> Some None)
   /\ o c' = QuietCollector.logsCompressed)
  /\ size (conns c') = 2.
Proof.
  intros c'. split; [| reflexivity].
  apply (ClientLaws.Start_opens_one_channel_per_fingerprint
           ClientFixture.sha512_hex ClientFixture.grpc_NewClient
           QuietCollector.logsCompressed c').
  reflexivity.
Defined.

(** A second Start on the started client, and Start on the HTTP client. *)
Lemma Start_is_idempotent_witness :
  let c := ClientFixture.NewClient ClientFixture.grpcOptions in
  let c' := fst (ClientFixture.Start c) in
  let c0 := ClientFixture.NewClient ClientFixture.httpOptions in
  ClientFixture.Start c' = (c', None)
  /\ ClientFixture.Start c0 = (c0, None).
Proof.
  intros c c' c0. split.
  - apply (proj1 (ClientLaws.Start_is_idempotent ClientFixture.sha512_hex
                    ClientFixture.grpc_NewClient c c')).
    reflexivity.
  - apply (proj2 (ClientLaws.Start_is_idempotent ClientFixture.sha512_hex
                    ClientFixture.grpc_NewClient c0 c0)).
    intros sig. destruct sig; reflexivity.
Defined.

(** Start, Stop, then an upload and a second Stop. *)
Lemma Stop_leaves_nothing_open_witness :
  let c := fst (ClientFixture.Start
                  (ClientFixture.NewClient ClientFixture.grpcOptions)) in
  let c' := fst (ClientFixture.Stop c None) in
  size (conns c) = 1
  /\ conns c' = ∅
  /\ snd (ClientFixture.Stop c' None) = Some ErrAlreadyClosed
  /\ ClientFixture.upload Traces c' tt 1 = Some ErrNotStarted.
Proof.
  intros c c'. split; [reflexivity |].
  destruct (ClientLaws.Stop_leaves_nothing_open ClientFixture.sha512_hex
              ClientFixture.conn_Close ClientFixture.grpc_Export
              ClientFixture.proto_Marshal ClientFixture.protojson_Marshal
              ClientFixture.http_Do ClientFixture.proto_Unmarshal
              ClientFixture.protojson_Unmarshal c None)
    as (Hempty & _ & Hagain & Hupload).
  split; [exact Hempty |]. split; [exact (Hagain None) |].
  exact (Hupload Traces tt 1 eq_refl).
Defined.

(** The JSON-over-HTTP traces signal on a new client and on a client
    that holds a channel. *)
Lemma http_upload_ignores_the_lifecycle_witness :
  QuietCollector.upload Traces
    (ClientFixture.NewClient ClientFixture.httpOptions) tt 1
  = QuietCollector.upload Traces QuietCollector.httpClientWithChannel tt 1.
Proof.
  apply (ClientLaws.http_upload_ignores_the_lifecycle
           ClientFixture.sha512_hex ClientFixture.grpc_Export
           ClientFixture.proto_Marshal ClientFixture.protojson_Marshal
           ClientFixture.http_Do QuietCollector.proto_Unmarshal
           QuietCollector.protojson_Unmarshal Traces
           (ClientFixture.NewClient ClientFixture.httpOptions)
           QuietCollector.httpClientWithChannel tt 1);
    reflexivity.
Defined.

(** The upload the quiet collector accepts. *)
Lemma http_upload_succeeds_only_on_clean_200_witness :
  let c := ClientFixture.NewClient ClientFixture.httpOptions in
  let so := signalOptions (o c) Traces in
  QuietCollector.upload Traces c tt 1 = None
  /\ exists body hresp respBody resp,
       marshalBody ClientFixture.proto_Marshal ClientFixture.protojson_Marshal
         Traces so 1 = Some body
       /\ ClientFixture.http_Do tt (httpRequest so body) = inl hresp
       /\ resp_StatusCode hresp = 200
       /\ resp_Body hresp = Server.ReadOK respBody
       /\ (resp_ContentType hresp = "application/x-protobuf"
           /\ QuietCollector.proto_Unmarshal respBody = Some resp
           \/ resp_ContentType hresp = "application/json"
              /\ QuietCollector.protojson_Unmarshal respBody = Some resp)
       /\ PartialSuccess resp = None.
Proof.
  intros c so. split; [reflexivity |].
  apply (ClientLaws.http_upload_succeeds_only_on_clean_200
           ClientFixture.sha512_hex ClientFixture.grpc_Export
           ClientFixture.proto_Marshal ClientFixture.protojson_Marshal
           ClientFixture.http_Do QuietCollector.proto_Unmarshal
           QuietCollector.protojson_Unmarshal Traces c tt 1);
    reflexivity.
Defined.

End ClientExamples.

Module OptionExamples.
Import Options OptionsFixture.

(** The header string of the logs signal in the test of the client. *)
Lemma parseHeadersString_reads_back_witness :
  parseHeadersString "Api-Key=dummyTraces,Hoge=tora"
  = inl (<["Hoge" := "tora"]> (<["Api-Key" := "dummyTraces"]> ∅)).
Proof.
  apply (OptionFacts.parseHeadersString_reads_back
           [("Api-Key", "dummyTraces"); ("Hoge", "tora")]).
  - discriminate.
  - repeat constructor.
Defined.

(** The built options of the JSON-over-HTTP client with the two header
    strings: every signal is complete. *)
Lemma build_leaves_nothing_unset_witness :
  build withHeaderStrings = Done built
  /\ Forall (fun entry : string * clientSignalsOptions =>
               so_signalType (snd entry) = fst entry
               /\ In (so_protocol (snd entry)) allowedProtocols
               /\ is_Some (so_gzip (snd entry))
               /\ is_Some (so_httpClient (snd entry))
               /\ is_Some (so_endpoint (snd entry))
               /\ is_Some (so_headers (snd entry)))
       (signals built).
Proof.
  split; [reflexivity |].
  apply (OptionFacts.build_leaves_nothing_unset JoinPath defaultUserAgent tt
           withHeaderStrings built).
  reflexivity.
Defined.

(** The logs signal sees its own [Hoge], the traces signal the shared
    one. *)
Lemma build_merges_headers_witness :
  entries (so_headers (traces built)) !! "Hoge" = Some "fuga"
  /\ entries (so_headers (metrics built)) !! "Hoge" = Some "fuga"
  /\ entries (so_headers (logs built)) !! "Hoge" = Some "tora".
Proof.
  apply (OptionFacts.build_merges_headers JoinPath defaultUserAgent tt
           withHeaderStrings built "Hoge").
  reflexivity.
Defined.


(** No endpoint at all: the default protocol, and JSON over HTTP. *)
Lemma build_without_any_endpoint_witness :
  build (initial None) = Refused (EndpointRequired "traces")
  /\ build (setProtocol (initial None) "http/json") = NilDereference.
Proof.
  split.
  - apply (OptionFacts.build_without_any_endpoint JoinPath defaultUserAgent
             tt (initial None) eq_refl eq_refl).
    simpl. auto.
  - apply (OptionFacts.build_without_any_endpoint JoinPath defaultUserAgent
             tt (setProtocol (initial None) "http/json") eq_refl eq_refl).
    simpl. auto.
Defined.

End OptionExamples.
